(** * git-changelog-manager: the changelog state machine

    A shallow embedding of [lib/ChangelogManager.js], [lib/ReleaseManager.js]
    and the configuration object of [bin/changelog-release.js].

    Conventions.
    - A JavaScript string is a [string]: the sequence of the bytes of its
      UTF-8 encoding.  Every pattern the program searches for, splits on or
      compares with is ASCII, and an ASCII byte never occurs inside a longer
      UTF-8 sequence, so the byte-wise operations below agree with the
      code-unit-wise operations of JavaScript on well-formed text.
    - The changelog directory is a finite map from file names to files; a
      path is the name of a file inside that directory.
    - What the program obtains from outside (the clock, [git log], the
      polishing provider, the release host) is an explicit argument. *)

From Stdlib Require Import ZArith NArith Ascii String List Bool Lia DecimalString.
From stdpp Require Import base option list strings gmap fin_maps.

Import ListNotations.
Local Open Scope string_scope.
Local Open Scope list_scope.

(** ** JavaScript string primitives *)

Module JsString.

Definition LF : ascii := "010"%char.
Definition nl : string := String LF "".

(** [s.startsWith(p)] *)
Fixpoint startsWith (s p : string) {struct p} : bool :=
  match p, s with
  | "", _ => true
  | String _ _, "" => false
  | String a p', String b s' => Ascii.eqb a b && startsWith s' p'
  end.

(** [s.substring(n)] *)
Fixpoint drop (n : nat) (s : string) : string :=
  match n, s with
  | O, _ => s
  | S _, "" => ""
  | S n', String _ s' => drop n' s'
  end.

(** [s.substring(0, n)] *)
Fixpoint take (n : nat) (s : string) : string :=
  match n, s with
  | O, _ => ""
  | S _, "" => ""
  | S n', String c s' => String c (take n' s')
  end.

(** [s.includes(p)] *)
Fixpoint includes (s p : string) : bool :=
  startsWith s p ||
  match s with
  | "" => false
  | String _ s' => includes s' p
  end.

(** The text before and the text after the first occurrence of [p] in [s]:
    what a non-global [replace] or a lazy [[\s\S]*?] works with. *)
Fixpoint cut (p s : string) : option (string * string) :=
  if startsWith s p then Some ("", drop (String.length p) s)
  else match s with
       | "" => None
       | String c s' =>
           match cut p s' with
           | Some (a, b) => Some (String c a, b)
           | None => None
           end
       end.

(** [s.replace(p, r)] for a literal pattern: the first occurrence only. *)
Definition replaceFirst (p r s : string) : string :=
  match cut p s with
  | Some (a, b) => a +:+ r +:+ b
  | None => s
  end.

(** [s.split(sep)] for a one-character separator. *)
Fixpoint split (sep : ascii) (s : string) : list string :=
  match s with
  | "" => [""]
  | String c s' =>
      if Ascii.eqb c sep then "" :: split sep s'
      else match split sep s' with
           | [] => [String c ""]
           | l :: ls => String c l :: ls
           end
  end.

(** [ls.join(sep)] *)
Fixpoint join (sep : string) (ls : list string) : string :=
  match ls with
  | [] => ""
  | [l] => l
  | l :: ls' => l +:+ sep +:+ join sep ls'
  end.

(** The white space and line terminators that [trim] removes, each as its
    UTF-8 byte sequence: TAB, LF, VT, FF, CR, SP, NBSP, U+1680,
    U+2000..U+200A, U+2028, U+2029, U+202F, U+205F, U+3000, U+FEFF. *)
Definition bytes (l : list nat) : string :=
  fold_right (fun n s => String (ascii_of_nat n) s) "" l.

Definition whitespace : list string :=
  map bytes
    ([ [9]; [10]; [11]; [12]; [13]; [32]; [194; 160]; [225; 154; 128] ]
     ++ map (fun k => [226; 128; 128 + k]) (seq 0 11)
     ++ [ [226; 128; 168]; [226; 128; 169]; [226; 128; 175];
          [226; 129; 159]; [227; 128; 128]; [239; 187; 191] ]).

Fixpoint reverseString (s : string) : string :=
  match s with
  | "" => ""
  | String c s' => reverseString s' +:+ String c ""
  end.

(** [s.endsWith(p)] *)
Definition endsWith (s p : string) : bool :=
  startsWith (reverseString s) (reverseString p).

(** The first white-space sequence [s] starts (resp. ends) with. *)
Definition leadingSpace (s : string) : option string :=
  find (startsWith s) whitespace.
Definition trailingSpace (s : string) : option string :=
  find (endsWith s) whitespace.

Fixpoint trimStart_fuel (fuel : nat) (s : string) : string :=
  match fuel with
  | O => s
  | S fuel' =>
      match leadingSpace s with
      | Some w => trimStart_fuel fuel' (drop (String.length w) s)
      | None => s
      end
  end.

Fixpoint trimEnd_fuel (fuel : nat) (s : string) : string :=
  match fuel with
  | O => s
  | S fuel' =>
      match trailingSpace s with
      | Some w => trimEnd_fuel fuel' (take (String.length s - String.length w) s)
      | None => s
      end
  end.

(** Every step removes at least one byte, so [length s] steps are enough. *)
Definition trimStart (s : string) : string := trimStart_fuel (String.length s) s.
Definition trimEnd (s : string) : string := trimEnd_fuel (String.length s) s.

(** [s.trim()] *)
Definition trim (s : string) : string := trimEnd (trimStart s).

(** [s.toLowerCase()] on the ASCII letters.  The only use is a search for
    ASCII words none of whose letters is the lower case of a non-ASCII
    character. *)
Definition lowerAscii (c : ascii) : ascii :=
  let n := nat_of_ascii c in
  if (65 <=? n)%nat && (n <=? 90)%nat then ascii_of_nat (n + 32) else c.

Fixpoint toLowerCase (s : string) : string :=
  match s with
  | "" => ""
  | String c s' => String (lowerAscii c) (toLowerCase s')
  end.

(** A value is falsy when it is [undefined] or the empty string. *)
Definition truthy (o : option string) : bool :=
  match o with
  | Some (String _ _) => true
  | _ => false
  end.

End JsString.

Import JsString.

(** ** SHA-256 (FIPS 180-4), as [crypto.createHash('sha256')] computes it *)

Module Sha256.
Local Open Scope N_scope.

Definition mask32 : N := 4294967295.
Definition w32 (x : N) : N := N.land x mask32.
Definition add32 (x y : N) : N := w32 (x + y).
Definition not32 (x : N) : N := N.lxor x mask32.
Definition rotr (n x : N) : N :=
  N.lor (N.shiftr x n) (w32 (N.shiftl x (32 - n))).

Definition Ch (x y z : N) : N := N.lxor (N.land x y) (N.land (not32 x) z).
Definition Maj (x y z : N) : N :=
  N.lxor (N.lxor (N.land x y) (N.land x z)) (N.land y z).
Definition Sigma0 (x : N) : N := N.lxor (N.lxor (rotr 2 x) (rotr 13 x)) (rotr 22 x).
Definition Sigma1 (x : N) : N := N.lxor (N.lxor (rotr 6 x) (rotr 11 x)) (rotr 25 x).
Definition sigma0 (x : N) : N := N.lxor (N.lxor (rotr 7 x) (rotr 18 x)) (N.shiftr x 3).
Definition sigma1 (x : N) : N := N.lxor (N.lxor (rotr 17 x) (rotr 19 x)) (N.shiftr x 10).

(** The constants are fractional parts of roots of the first primes:
    the first 32 bits of the fractional part of the cube root of each of the
    first 64 primes for [K], of the square root of each of the first 8
    primes for [H0]. *)
Definition isPrime (n : N) : bool :=
  (1 <? n)
  && forallb (fun d => negb (n mod d =? 0))
       (map N.of_nat (seq 2 (N.to_nat n - 2))).

Definition primes (count : nat) : list N :=
  firstn count (List.filter isPrime (map N.of_nat (seq 2 310))).

(** The greatest [r] below [2 ^ 36] whose cube is at most [x]. *)
Definition cubeRoot (x : N) : N :=
  fold_left
    (fun r bit => let r' := r + 2 ^ bit in if r' * r' * r' <=? x then r' else r)
    (map N.of_nat (List.rev (seq 0 36))) 0.

Definition K : list N :=
  Eval vm_compute in map (fun p => w32 (cubeRoot (p * 2 ^ 96))) (primes 64).

Definition H0 : list N :=
  Eval vm_compute in map (fun p => w32 (N.sqrt (p * 2 ^ 64))) (primes 8).

Definition bytesOf (s : string) : list N :=
  map N_of_ascii (list_ascii_of_string s).

(** Big-endian bytes of [x], [n] of them. *)
Fixpoint be (n : nat) (x : N) : list N :=
  match n with
  | O => []
  | S n' => be n' (N.shiftr x 8) ++ [N.land x 255]
  end.

(** The message, one [1] bit, zero bits up to 56 modulo 64 bytes, and the
    length in bits on 64 bits. *)
Definition pad (m : list N) : list N :=
  let len := N.of_nat (List.length m) in
  let zeros := N.to_nat ((119 - len mod 64) mod 64) in
  m ++ [128] ++ repeat 0 zeros ++ be 8 (8 * len).

Fixpoint words (fuel : nat) (bs : list N) : list N :=
  match fuel, bs with
  | S fuel', a :: b :: c :: d :: bs' =>
      (N.shiftl a 24 + N.shiftl b 16 + N.shiftl c 8 + d) :: words fuel' bs'
  | _, _ => []
  end.

Fixpoint blocks (fuel : nat) (ws : list N) : list (list N) :=
  match fuel, ws with
  | S fuel', _ :: _ => firstn 16 ws :: blocks fuel' (skipn 16 ws)
  | _, _ => []
  end.

(** The message schedule, most recent word first. *)
Fixpoint schedule (n : nat) (rev_w : list N) : list N :=
  match n with
  | O => rev_w
  | S n' =>
      let w i := nth i rev_w 0 in
      schedule n'
        (add32 (add32 (add32 (sigma1 (w 1%nat)) (w 6%nat)) (sigma0 (w 14%nat))) (w 15%nat)
         :: rev_w)
  end.

Definition round (st : list N) (kw : N * N) : list N :=
  match st with
  | [a; b; c; d; e; f; g; h] =>
      let t1 := add32 (add32 (add32 (add32 h (Sigma1 e)) (Ch e f g)) (fst kw)) (snd kw) in
      let t2 := add32 (Sigma0 a) (Maj a b c) in
      [add32 t1 t2; a; b; c; add32 d t1; e; f; g]
  | _ => st
  end.

Definition compress (h : list N) (block : list N) : list N :=
  let w := rev (schedule 48 (rev block)) in
  let st := fold_left round (combine K w) h in
  map (fun p => add32 (fst p) (snd p)) (combine h st).

Definition digest (s : string) : list N :=
  let bs := pad (bytesOf s) in
  let ws := words (List.length bs) bs in
  fold_left compress (blocks (List.length ws) ws) H0.

Definition hexDigit (n : N) : ascii :=
  if n <? 10 then ascii_of_N (48 + n) else ascii_of_N (87 + n).

Definition hexByte (b : N) : string :=
  String (hexDigit (N.shiftr b 4)) (String (hexDigit (N.land b 15)) "").

(** [.digest('hex')]: 64 lower-case hexadecimal digits. *)
Definition hex (s : string) : string :=
  String.concat "" (map hexByte (flat_map (be 4) (digest s))).

End Sha256.

(** ** The [semver] package, as far as the program calls it

    [parse] and [inc] follow the package's strict grammar
    [v?MAJOR.MINOR.PATCH(-PRERELEASE)?(+BUILD)?].  [rcompare] is only ever
    applied to versions read off file names made of digits and dots, which
    carry no prerelease tag; on those the package's comparison is the
    comparison of the three numbers. *)

Module Semver.
Local Open Scope N_scope.

Record SemVer := { major : N; minor : N; patch : N; prerelease : list string }.

Definition MAX_LENGTH : N := 256.
Definition MAX_SAFE_INTEGER : N := 9007199254740991.

Definition isDigit (c : ascii) : bool :=
  let n := N_of_ascii c in (48 <=? n) && (n <=? 57).

Definition isIdChar (c : ascii) : bool :=
  let n := N_of_ascii c in
  isDigit c || ((65 <=? n) && (n <=? 90)) || ((97 <=? n) && (n <=? 122))
  || (n =? 45).

Fixpoint allChars (p : ascii -> bool) (s : string) : bool :=
  match s with
  | "" => true
  | String c s' => p c && allChars p s'
  end.

(** [\d+] *)
Definition digits (s : string) : bool :=
  negb (String.eqb s "") && allChars isDigit s.

Fixpoint decimal (acc : N) (s : string) : N :=
  match s with
  | "" => acc
  | String c s' => decimal (10 * acc + (N_of_ascii c - 48)) s'
  end.

(** [0|[1-9]\d*] *)
Definition numericIdentifier (s : string) : option N :=
  if digits s && (negb (startsWith s "0") || String.eqb s "0")
  then Some (decimal 0 s) else None.

(** [0|[1-9]\d*|\d*[a-zA-Z-][a-zA-Z0-9-]*] *)
Definition prereleaseIdentifier (s : string) : bool :=
  negb (String.eqb s "") && allChars isIdChar s
  && (negb (digits s) || negb (startsWith s "0") || String.eqb s "0").

(** [[0-9A-Za-z-]+] *)
Definition buildIdentifier (s : string) : bool :=
  negb (String.eqb s "") && allChars isIdChar s.

(** [s.length]: UTF-16 code units of the text whose UTF-8 bytes are [s]. *)
Fixpoint utf16Length (s : string) : N :=
  match s with
  | "" => 0
  | String c s' =>
      let n := N_of_ascii c in
      (if (128 <=? n) && (n <? 192) then 0 else if 240 <=? n then 2 else 1)
      + utf16Length s'
  end.

Definition parseCore (core : string) (pre : list string) : option SemVer :=
  match split "."%char core with
  | [a; b; c] =>
      match numericIdentifier a, numericIdentifier b, numericIdentifier c with
      | Some x, Some y, Some z =>
          if (x <=? MAX_SAFE_INTEGER) && (y <=? MAX_SAFE_INTEGER)
             && (z <=? MAX_SAFE_INTEGER)
          then Some {| major := x; minor := y; patch := z; prerelease := pre |}
          else None
      | _, _, _ => None
      end
  | _ => None
  end.

Definition parseMain (main : string) : option SemVer :=
  match cut "-" main with
  | Some (core, pre) =>
      let ids := split "."%char pre in
      if forallb prereleaseIdentifier ids then parseCore core ids else None
  | None => parseCore main []
  end.

(** [semver.parse(version)]; [None] is [null]. *)
Definition parse (version : string) : option SemVer :=
  if MAX_LENGTH <? utf16Length version then None
  else
    let t := trim version in
    let t := if startsWith t "v" then drop 1 t else t in
    match cut "+" t with
    | Some (main, build) =>
        if forallb buildIdentifier (split "."%char build)
        then parseMain main else None
    | None => parseMain t
    end.

Definition showN (n : N) : string :=
  DecimalString.NilZero.string_of_uint (N.to_uint n).

(** [.version] of a version without prerelease tag. *)
Definition format (v : SemVer) : string :=
  showN (major v) +:+ "." +:+ showN (minor v) +:+ "." +:+ showN (patch v).

Inductive ReleaseType := Major | Minor | Patch.

Definition hasPrerelease (v : SemVer) : bool :=
  match prerelease v with [] => false | _ => true end.

(** [SemVer.prototype.inc] for the three release types. *)
Definition incSemVer (v : SemVer) (release : ReleaseType) : SemVer :=
  match release with
  | Major =>
      {| major := if negb (minor v =? 0) || negb (patch v =? 0)
                     || negb (hasPrerelease v)
                  then major v + 1 else major v;
         minor := 0; patch := 0; prerelease := [] |}
  | Minor =>
      {| major := major v;
         minor := if negb (patch v =? 0) || negb (hasPrerelease v)
                  then minor v + 1 else minor v;
         patch := 0; prerelease := [] |}
  | Patch =>
      {| major := major v; minor := minor v;
         patch := if negb (hasPrerelease v) then patch v + 1 else patch v;
         prerelease := [] |}
  end.

(** [semver.inc(version, release)]; [None] is [null]. *)
Definition inc (version : string) (release : ReleaseType) : option string :=
  match parse version with
  | Some v => Some (format (incSemVer v release))
  | None => None
  end.

(** [compareMain]: major, then minor, then patch, as numbers. *)
Definition compareMain (a b : SemVer) : comparison :=
  match major a ?= major b with
  | Eq => match minor a ?= minor b with
          | Eq => patch a ?= patch b
          | c => c
          end
  | c => c
  end.

(** [semver.rcompare(a, b)] is [compare(b, a)]. *)
Definition rcompare (a b : SemVer) : comparison := compareMain b a.

End Semver.

(** ** Backing storage *)

Module Storage.

(** Why [readFile] fails on a name that exists: it is a directory
    ([writeFile] and [unlink] throw on it too), a file the process can
    neither read nor write ([writeFile] throws, [unlink] removes it), or a
    file the process can write and not read. *)
Inductive Obstacle :=
| Directory
| Locked
| WriteOnly.

(** A name in the directory is either a file that can be read and written
    or something [readFile] fails on.  Files that can be read and not
    written are left out, and names can be created in the directory and
    removed from it. *)
Inductive fsnode :=
| Readable (text : string)
| Unreadable (why : Obstacle).

(** What a call that writes leaves of the directory, and whether it
    returned or threw. *)
Inductive Run :=
| Returned (dir : gmap string fsnode)
| Threw (dir : gmap string fsnode).

Definition dirOf (r : Run) : gmap string fsnode :=
  match r with
  | Returned dir => dir
  | Threw dir => dir
  end.

(** [fs.readFile(path, 'utf8')]; [None] when the call throws. *)
Definition readFile (dir : gmap string fsnode) (path : string) : option string :=
  match dir !! path with
  | Some (Readable text) => Some text
  | _ => None
  end.

(** [fs.access(path)] succeeds. *)
Definition access (dir : gmap string fsnode) (path : string) : bool :=
  match dir !! path with
  | Some _ => true
  | None => false
  end.

(** [fs.readdir(dir)] *)
Definition readdir (dir : gmap string fsnode) : list string :=
  map fst (map_to_list dir).

(** [fs.writeFile(path, text)]: a whole-file overwrite, which creates the
    file when the name is free.  It throws on a directory and on a file
    without write permission; what it writes to a file that cannot be read
    stays out of sight. *)
Definition writeFile (dir : gmap string fsnode) (path text : string) : Run :=
  match dir !! path with
  | Some (Unreadable WriteOnly) => Returned dir
  | Some (Unreadable _) => Threw dir
  | _ => Returned (<[path := Readable text]> dir)
  end.

(** [fs.unlink(path)]: throws on a free name and on a directory. *)
Definition unlink (dir : gmap string fsnode) (path : string) : Run :=
  match dir !! path with
  | None | Some (Unreadable Directory) => Threw dir
  | Some _ => Returned (delete path dir)
  end.

End Storage.

Import Storage.

(** ** lib/ChangelogManager.js *)

Module ChangelogManager.
Import Semver.

Inductive Provider := OpenAI | Claude | Gemini.

(** The fields of [this.config] that the modelled methods read. *)
Record Config := {
  draftFileName : string;
  aiApiKey : option string;
  aiApiType : Provider;
  useEmojis : bool
}.

(** What one invocation obtains from outside the program.
    - [today] is [new Date().toISOString().split('T')[0]].
    - [gitLog] is the output of [git log --pretty=format:"%H|%s" --since=..],
      [None] when [execSync] throws.
    - [provider api emojis text] is the text the provider [api] answers to
      the prompt built from the style [emojis] and the joined messages
      [text]; [None] when the call throws (network error, a response
      without the expected fields) or answers something that is not text. *)
Record World := {
  today : string;
  gitLog : option string;
  provider : Provider -> bool -> string -> option string
}.

Record VersionFile := { version : string; file : string; semver : SemVer }.

Record Commit := { hash : string; message : string }.

Record Entry := { entryMessage : string; polished : string }.

(** [f.match(/^\d+\.\d+\.\d+\.md$/)] *)
Definition isVersionFileName (f : string) : bool :=
  match split "."%char f with
  | [a; b; c; ext] => digits a && digits b && digits c && String.eqb ext "md"
  | _ => false
  end.

(** [Array.prototype.sort] with a comparator: a stable sort. *)
Fixpoint insert {A} (cmp : A -> A -> comparison) (x : A) (l : list A) : list A :=
  match l with
  | [] => [x]
  | y :: l' =>
      match cmp x y with
      | Gt => y :: insert cmp x l'
      | _ => x :: l
      end
  end.

Fixpoint sort {A} (cmp : A -> A -> comparison) (l : list A) : list A :=
  match l with
  | [] => []
  | x :: l' => insert cmp x (sort cmp l')
  end.

Definition versionOfFile (f : string) : option VersionFile :=
  let version := replaceFirst ".md" "" f in
  match parse version with
  | Some sv => Some {| version := version; file := f; semver := sv |}
  | None => None
  end.

Definition getHighestVersion (dir : gmap string fsnode) : option VersionFile :=
  let versionFiles := List.filter isVersionFileName (readdir dir) in
  match versionFiles with
  | [] => None
  | _ :: _ =>
      let versions := omap versionOfFile versionFiles in
      head (sort (fun a b => rcompare (semver a) (semver b)) versions)
  end.

(** The loop body of [parseFrontmatter].  Assigning a string to the
    property [__proto__] of an object leaves the object as it is. *)
Fixpoint frontmatterLines (lines : list string) (frontmatter : gmap string string)
  : gmap string string :=
  match lines with
  | [] => frontmatter
  | line :: lines' =>
      if String.eqb line "---" then frontmatter
      else
        match split ":"%char line with
        | key :: ((_ :: _) as valueParts) =>
            if negb (String.eqb key "") && negb (String.eqb (trim key) "__proto__")
            then frontmatterLines lines'
                   (<[trim key := trim (join ":" valueParts)]> frontmatter)
            else frontmatterLines lines' frontmatter
        | _ => frontmatterLines lines' frontmatter
        end
  end.

Definition parseFrontmatter (content : string) : gmap string string :=
  match split LF content with
  | first :: rest =>
      if String.eqb first "---" then frontmatterLines rest ∅ else ∅
  | [] => ∅
  end.

(** [detectOpenReleaseFile()], in a changelog directory that exists or
    that [mkdir] creates. *)
Definition detectOpenReleaseFile (cfg : Config) (dir : gmap string fsnode) : string :=
  let draftFile := draftFileName cfg in
  if access dir draftFile then draftFile
  else
    match getHighestVersion dir with
    | Some highestVersion =>
        let versionFile := file highestVersion in
        match readFile dir versionFile with
        | Some content =>
            if negb (truthy (parseFrontmatter content !! "tag"))
            then versionFile else draftFile
        | None => draftFile
        end
    | None => draftFile
    end.

Definition parseCommitLine (line : string) : option Commit :=
  match split "|"%char line with
  | h :: m :: _ => Some {| hash := h; message := m |}
  | _ => None
  end.

Definition keepCommit (c : Commit) : bool :=
  let msg := toLowerCase (message c) in
  negb (includes msg "updated changelog")
  && negb (includes msg "merge pull request")
  && negb (includes msg "merge branch")
  && negb (startsWith msg "merge ").

(** A line without [|] has an undefined message; the filter then throws
    and the [catch] answers the empty list. *)
Definition getNewCommits (w : World) : list Commit :=
  match gitLog w with
  | None => []
  | Some out =>
      let result := trim out in
      if String.eqb result "" then []
      else
        match mapM parseCommitLine (split LF result) with
        | Some commits => List.filter keepCommit commits
        | None => []
        end
  end.

Definition createMessageHash (message : string) : string :=
  take 8 (Sha256.hex message).

Definition hashMarker (messageHash : string) : string :=
  "<!-- hash:" +:+ messageHash +:+ " -->".

Definition isMessageAlreadyInChangelog
  (dir : gmap string fsnode) (releaseFile messageHash : string) : bool :=
  match readFile dir releaseFile with
  | Some content => includes content (hashMarker messageHash)
  | None => false
  end.

Definition rawBullet (msg : string) : string := "- " +:+ msg.

Definition polishCommitMessages (cfg : Config) (w : World) (messages : list string)
  : list string :=
  if negb (truthy (aiApiKey cfg)) || (List.length messages =? 0)%nat
  then map rawBullet messages
  else
    match provider w (aiApiType cfg) (useEmojis cfg) (join nl messages) with
    | Some polishedMessages =>
        List.filter (fun line => startsWith (trim line) "- ")
          (split LF polishedMessages)
    | None => map rawBullet messages
    end.

(** The result of [semver.inc] inside a template literal. *)
Definition render (v : option string) : string :=
  match v with
  | Some s => s
  | None => "null"
  end.

Definition getNextVersion (dir : gmap string fsnode) (bumpType : ReleaseType) : string :=
  match getHighestVersion dir with
  | Some highestVersion => render (inc (version highestVersion) bumpType)
  | None => "0.1.0"
  end.

(** The draft template shared by [createUnreleasedFile] and
    [ReleaseManager.startNewDraft]. *)
Definition draftTemplate (nextVersion dateStr : string) : string :=
  join nl
    [ "---"; "version: " +:+ nextVersion; "date: " +:+ dateStr; "tag: "; "---";
      ""; "# Release " +:+ nextVersion; ""; "## **Unreleased**"; "";
      "<!-- New entries will be added here -->"; ""; "" ].

Definition createUnreleasedFile (w : World) (dir : gmap string fsnode) (filePath : string)
  : Run :=
  writeFile dir filePath (draftTemplate (getNextVersion dir Patch) (today w)).

(** [lines.findIndex(p)] ([None] is [-1]) *)
Fixpoint findIndex {A} (p : A -> bool) (l : list A) : option nat :=
  match l with
  | [] => None
  | x :: l' => if p x then Some O else option_map S (findIndex p l')
  end.

(** [lines.splice(i, 0, ...items)] *)
Definition splice {A} (i : nat) (items l : list A) : list A :=
  firstn i l ++ items ++ skipn i l.

Definition entryLine (entry : Entry) : string :=
  polished entry +:+ " " +:+ hashMarker (createMessageHash (entryMessage entry)).

(** The lines and [unreleasedIndex] once the section header is in place. *)
Definition locateUnreleased (lines : list string) : list string * nat :=
  match findIndex (fun line => includes line "**Unreleased**") lines with
  | Some i => (lines, i)
  | None =>
      match findIndex (fun line => startsWith line "# Release") lines with
      | Some insertIndex =>
          (splice (insertIndex + 1) [""; "## **Unreleased**"; ""] lines,
           insertIndex + 2)
      | None =>
          let lines' := lines ++ [""; "## **Unreleased**"; ""] in
          (lines', List.length lines' - 1)
      end
  end.

(** The text transformation of [updateChangelogFile]. *)
Definition mergeEntries (content : string) (newEntries : list Entry) : string :=
  let (lines, unreleasedIndex) := locateUnreleased (split LF content) in
  let insertIndex := unreleasedIndex + 1 in
  join nl (splice insertIndex (map entryLine newEntries) lines).

(** The inner [catch] creates the file when the first read fails, for
    whatever reason, and reads again; what throws then is thrown again by
    the outer [catch]. *)
Definition updateChangelogFile
  (w : World) (dir : gmap string fsnode) (filePath : string) (newEntries : list Entry)
  : Run :=
  let created :=
    match readFile dir filePath with
    | Some _ => Returned dir
    | None => createUnreleasedFile w dir filePath
    end in
  match created with
  | Returned dir' =>
      match readFile dir' filePath with
      | Some content => writeFile dir' filePath (mergeEntries content newEntries)
      | None => Threw dir'
      end
  | Threw dir' => Threw dir'
  end.

(** [polished[index] || `- ${message}`] *)
Definition polishedOr (polishedLines : list string) (index : nat) (msg : string)
  : string :=
  let p := nth_error polishedLines index in
  if truthy p then default "" p else rawBullet msg.

Fixpoint entriesOf (polishedLines : list string) (index : nat) (commits : list Commit)
  : list Entry :=
  match commits with
  | [] => []
  | c :: commits' =>
      {| entryMessage := message c;
         polished := polishedOr polishedLines index (message c) |}
      :: entriesOf polishedLines (S index) commits'
  end.

(** [addToChangelog(options)]; [customMessage] is [options.customMessage].
    What [updateChangelogFile] throws is thrown again. *)
Definition addToChangelog
  (cfg : Config) (w : World) (customMessage : option string) (dir : gmap string fsnode)
  : Run :=
  let releaseFile := detectOpenReleaseFile cfg dir in
  if truthy customMessage then
    let msg := default "" customMessage in
    if isMessageAlreadyInChangelog dir releaseFile (createMessageHash msg)
    then Returned dir
    else
      let polishedLines := polishCommitMessages cfg w [msg] in
      updateChangelogFile w dir releaseFile
        [ {| entryMessage := msg; polished := polishedOr polishedLines 0 msg |} ]
  else
    let commits := getNewCommits w in
    let filteredCommits :=
      List.filter
        (fun c => negb (isMessageAlreadyInChangelog dir releaseFile
                          (createMessageHash (message c))))
        commits in
    match filteredCommits with
    | [] => Returned dir
    | _ :: _ =>
        let polishedLines := polishCommitMessages cfg w (map message filteredCommits) in
        updateChangelogFile w dir releaseFile (entriesOf polishedLines 0 filteredCommits)
    end.

(** [hasPendingCommits()]: the loop answers [true] at the first commit whose
    hash the open release file does not hold. *)
Definition hasPendingCommits (cfg : Config) (w : World) (dir : gmap string fsnode)
  : bool :=
  let commits := getNewCommits w in
  match commits with
  | [] => false
  | _ :: _ =>
      let releaseFile := detectOpenReleaseFile cfg dir in
      existsb
        (fun c => negb (isMessageAlreadyInChangelog dir releaseFile
                          (createMessageHash (message c))))
        commits
  end.

End ChangelogManager.

(** ** lib/ReleaseManager.js *)

Module ReleaseManager.
Import Semver.

(** [packageJson.version]: absent or falsy ([null], [false], [0]), a
    string, or a truthy value that is not a string. *)
Inductive VersionValue :=
| NoVersion
| VersionText (v : string)
| OtherVersion.

(** [package.json]: missing, unreadable or not JSON; JSON that is no object
    ([null], a number, a string, a boolean, an array); or an object, with
    its [version] and whether the file can be written. *)
Inductive Manifest :=
| NoManifest
| NotAnObject
| PackageJson (version : VersionValue) (writable : bool).

(** The fields of [this.config] that the modelled methods read;
    [versionFiles] says whether [config.versionFiles] is truthy. *)
Record Config := {
  draftFileName : string;
  githubToken : option string;
  githubRepository : option string;
  versionFiles : bool
}.

Inductive HostAnswer := Created | Rejected.

Record State := {
  manifest : Manifest;
  changelog : gmap string fsnode
}.

(** What the loop of [updateAdditionalFiles] leaves behind, after its last
    round or when it throws. *)
Inductive Pass :=
| Passed (st : State)
| Failed (st : State).

(** [releaseHost tag body] is the answer of the release host to the
    request that creates the release [tag] with the notes [body];
    [Rejected] stands for a status outside 2xx or a network error.
    [additionalFiles newVersion st] is what the loop of
    [updateAdditionalFiles] over [config.versionFiles] does to the manifest
    and to the changelog directory: every entry names a file, which is read,
    rewritten with the regular expression or at the JSON path of the entry,
    and written back.  A round that throws is logged and the loop goes on;
    the loop itself throws on a [versionFiles] that cannot be iterated and
    on an entry that is [null], where the log line throws in its turn. *)
Record World := {
  today : string;
  releaseHost : string -> string -> HostAnswer;
  additionalFiles : option string -> State -> Pass
}.

(** [packageJson.version || '0.0.0'], and ['0.0.0'] when reading the
    property throws; [None] is a value that is not a string. *)
Definition getCurrentVersion (m : Manifest) : option string :=
  match m with
  | PackageJson (VersionText v) _ => Some (if truthy (Some v) then v else "0.0.0")
  | PackageJson OtherVersion _ => None
  | _ => Some "0.0.0"
  end.

(** [semver.inc(version, type)], which answers [null] for a version that
    is not a string. *)
Definition bumpVersion (version : option string) (type : ReleaseType)
  : option string :=
  match version with
  | Some v => inc v type
  | None => None
  end.

(** [packageData.version = newVersion] and the write: on [null] and on a
    number, a string or a boolean the assignment throws (the class body is
    strict code), and [JSON.stringify] does not print a named property of an
    array, so only an object takes the version; the write throws on a file
    without write permission.  Whatever throws is logged and swallowed. *)
Definition updatePackageJson (m : Manifest) (newVersion : option string) : Manifest :=
  match m with
  | PackageJson _ true =>
      PackageJson
        match newVersion with
        | Some v => VersionText v
        | None => NoVersion
        end
        true
  | _ => m
  end.

(** [updateAdditionalFiles(newVersion)] *)
Definition updateAdditionalFiles
  (cfg : Config) (w : World) (newVersion : option string) (st : State)
  : Pass :=
  if versionFiles cfg then additionalFiles w newVersion st else Passed st.

Definition updateFrontmatterLine (dateStr newVersion line : string) : string :=
  if startsWith line "version:" then "version: " +:+ newVersion
  else if startsWith line "date:" then "date: " +:+ dateStr
  else if startsWith line "tag:" && String.eqb (trim line) "tag:"
       then "tag: v" +:+ newVersion
  else line.

Definition fence : string := "---" +:+ nl.

(** The first [replace] of [renameDraftFile]: the text must start with a
    [---] line, and the lazy group stops at the first [---\n] after it. *)
Definition updateFrontmatter (dateStr newVersion content : string) : string :=
  if startsWith content fence then
    match cut fence (drop 4 content) with
    | Some (frontmatter, rest) =>
        let updatedLines :=
          map (updateFrontmatterLine dateStr newVersion) (split LF frontmatter) in
        fence +:+ join nl updatedLines +:+ nl +:+ fence +:+ rest
    | None => content
    end
  else content.

Definition unreleasedHeader : string := "## **Unreleased**" +:+ nl +:+ nl.

(** [content.replace(/## \*\*Unreleased\*\*\n\n/, '')] *)
Definition removeUnreleasedHeader (content : string) : string :=
  replaceFirst unreleasedHeader "" content.

(** The text written to the version file from the text of the draft. *)
Definition releaseContent (dateStr newVersion content : string) : string :=
  removeUnreleasedHeader (updateFrontmatter dateStr newVersion content).

Definition basicContent (dateStr newVersion : string) : string :=
  join nl
    [ "---"; "version: " +:+ newVersion; "date: " +:+ dateStr;
      "tag: v" +:+ newVersion; "---"; ""; "# Release " +:+ newVersion; "";
      "- Release " +:+ newVersion; "" ].

(** [renameDraftFile(newVersion)]: whatever throws in the [try] (the read,
    the write, the unlink) leads to the write of the basic content, which
    no [catch] guards. *)
Definition renameDraftFile
  (cfg : Config) (w : World) (newVersion : string) (dir : gmap string fsnode)
  : Run :=
  let draftPath := draftFileName cfg in
  let newFilePath := newVersion +:+ ".md" in
  let basic d := writeFile d newFilePath (basicContent (today w) newVersion) in
  match readFile dir draftPath with
  | Some content =>
      match writeFile dir newFilePath (releaseContent (today w) newVersion content) with
      | Returned written =>
          match unlink written draftPath with
          | Returned renamed => Returned renamed
          | Threw d => basic d
          end
      | Threw d => basic d
      end
  | None => basic dir
  end.

(** The body sent to the release host: what follows the frontmatter
    block of the release notes, trimmed, when there is such a block. *)
Definition releaseBody (version releaseNotes : string) : string :=
  if startsWith releaseNotes fence then
    match cut fence (drop 4 releaseNotes) with
    | Some (_, rest) => trim rest
    | None => "Release " +:+ version
    end
  else "Release " +:+ version.

(** [true] when the method returns, [false] when the promise it returns
    is rejected, which no [catch] of the method sees. *)
Definition createGithubRelease
  (cfg : Config) (w : World) (version : string) (dir : gmap string fsnode) : bool :=
  if negb (truthy (githubToken cfg)) || negb (truthy (githubRepository cfg))
  then true
  else
    match readFile dir (version +:+ ".md") with
    | Some releaseNotes =>
        match releaseHost w ("v" +:+ version) (releaseBody version releaseNotes) with
        | Created => true
        | Rejected => false
        end
    | None => true
    end.

Definition startNewDraft (cfg : Config) (w : World) (dir : gmap string fsnode)
  : Run :=
  let nextVersion := ChangelogManager.getNextVersion dir Patch in
  writeFile dir (draftFileName cfg)
    (ChangelogManager.draftTemplate nextVersion (today w)).

(** The value [release] resolves to, or the state it leaves behind when
    it throws. *)
Inductive Outcome :=
| Released (newVersion : option string) (st : State)
| Thrown (st : State).

(** [release(bumpType)], in a changelog directory that exists or that
    [mkdir] creates.  Tagging, committing and pushing swallow their
    failures and touch neither the manifest nor the changelog directory.
    What throws in [updateAdditionalFiles], [renameDraftFile],
    [createGithubRelease] or [startNewDraft] ends the release there. *)
Definition release (cfg : Config) (w : World) (bumpType : ReleaseType) (st : State)
  : Outcome :=
  let currentVersion := getCurrentVersion (manifest st) in
  let newVersion := bumpVersion currentVersion bumpType in
  let shown := ChangelogManager.render newVersion in
  let bumped :=
    {| manifest := updatePackageJson (manifest st) newVersion;
       changelog := changelog st |} in
  match updateAdditionalFiles cfg w newVersion bumped with
  | Failed st' => Thrown st'
  | Passed st' =>
      match renameDraftFile cfg w shown (changelog st') with
      | Threw dir => Thrown {| manifest := manifest st'; changelog := dir |}
      | Returned dir =>
          if createGithubRelease cfg w shown dir
          then
            match startNewDraft cfg w dir with
            | Returned dir' =>
                Released newVersion {| manifest := manifest st'; changelog := dir' |}
            | Threw dir' => Thrown {| manifest := manifest st'; changelog := dir' |}
            end
          else Thrown {| manifest := manifest st'; changelog := dir |}
      end
  end.

End ReleaseManager.

(** ** bin/changelog-release.js: the configuration object *)

Module Cli.

(** JavaScript values: [undefined] and what [JSON.parse] can give. *)
#[warnings="-register-all"]
Inductive value :=
| VUndefined
| VNull
| VBool (b : bool)
| VNumber (n : Z)
| VString (s : string)
| VArray (items : list value)
| VObject (fields : list (string * value)).

(** [program.opts()]: the four options with a default, the three without. *)
Record Options := {
  optDir : string;
  optFile : string;
  optRoot : string;
  optPackage : string;
  optGithubToken : option string;
  optGithubRepo : option string;
  optConfig : option string
}.

(** [process.env] *)
Record Env := {
  GITHUB_TOKEN : option string;
  GITHUB_REPOSITORY : option string
}.

(** [files path] is the object [JSON.parse] gives for the text of the file
    at [path], as the map of its properties; [None] when reading or parsing
    throws. *)
Definition Files : Type := string -> option (gmap string value).

(** [fileConfig] after the loading block; [None] is [process.exit(1)]. *)
Definition loadFileConfig (o : Options) (files : Files)
  : option (gmap string value) :=
  if truthy (optConfig o) then files (default "" (optConfig o)) else Some ∅.

Definition ofOption (o : option string) : value :=
  match o with
  | Some s => VString s
  | None => VUndefined
  end.

(** [a || b] *)
Definition orElse (a b : option string) : value :=
  if truthy a then ofOption a else ofOption b.

(** The properties written before the spread. *)
Definition optionConfig (o : Options) (e : Env) : gmap string value :=
  list_to_map
    [ ("changelogDir", VString (optDir o));
      ("draftFileName", VString (optFile o));
      ("projectRoot", VString (optRoot o));
      ("packageJsonPath", VString (optPackage o));
      ("githubToken", orElse (optGithubToken o) (GITHUB_TOKEN e));
      ("githubRepository", orElse (optGithubRepo o) (GITHUB_REPOSITORY e)) ].

(** [{ ...optionConfig, ...fileConfig }]: a property of the object spread
    last replaces a property of the same name written before it. *)
Definition spreadConfig (o : Options) (e : Env) (fileConfig : gmap string value)
  : gmap string value :=
  fileConfig ∪ optionConfig o e.

(** The object [config] of the command; [None] when the command exits
    before building it. *)
Definition config (o : Options) (e : Env) (files : Files)
  : option (gmap string value) :=
  match loadFileConfig o files with
  | Some fileConfig => Some (spreadConfig o e fileConfig)
  | None => None
  end.

End Cli.

(** ** The configuration objects of the two managers and of the add command *)

Module Configuration.
Import Cli.

(** JavaScript truthiness. *)
Definition truthyValue (v : value) : bool :=
  match v with
  | VUndefined | VNull => false
  | VBool b => b
  | VNumber n => negb (n =? 0)%Z
  | VString s => negb (String.eqb s "")
  | VArray _ | VObject _ => true
  end.

(** [obj.key]: [undefined] when the object has no such property. *)
Definition get (obj : gmap string value) (key : string) : value :=
  default VUndefined (obj !! key).

(** [a || b] with both operands evaluated. *)
Definition or (a b : value) : value := if truthyValue a then a else b.

(** [a || b] where evaluating [b] may throw ([None]); [b] is evaluated only
    when [a] is falsy. *)
Definition orLazy (a : value) (b : option value) : option value :=
  if truthyValue a then Some a else b.

(** [process.env] and [process.cwd()]. *)
Record ProcessEnv := {
  OPENAI_API_KEY : option string;
  CLAUDE_API_KEY : option string;
  GEMINI_API_KEY : option string;
  ENV_GITHUB_TOKEN : option string;
  ENV_GITHUB_REPOSITORY : option string;
  cwd : string
}.

(** What [JSON.parse] gives for [changelog.config.json]: nothing when the
    file is missing or is not JSON, [null], or a value with its own
    enumerable properties. *)
Inductive ProjectFile :=
| Missing
| JsonNull
| JsonObject (props : gmap string value).

(** [fileConfig] after the [try] of the constructor; [None] is [null]. *)
Definition fileConfigOf (pf : ProjectFile) : option (gmap string value) :=
  match pf with
  | Missing => Some ∅
  | JsonNull => None
  | JsonObject props => Some props
  end.

(** [fileConfig.key]; reading a property of [null] throws. *)
Definition fileGet (pf : ProjectFile) (key : string) : option value :=
  match fileConfigOf pf with
  | Some props => Some (get props key)
  | None => None
  end.

(** [config.key || fileConfig.key || fallback] *)
Definition layered (config : gmap string value) (pf : ProjectFile)
  (key fallback : string) : option value :=
  orLazy (get config key)
    (match fileGet pf key with
     | Some v => Some (or v (VString fallback))
     | None => None
     end).

Definition isUndefined (v : value) : bool :=
  match v with
  | VUndefined => true
  | _ => false
  end.

(** [config.useEmojis !== undefined ? config.useEmojis
      : (fileConfig.useEmojis !== undefined ? fileConfig.useEmojis : true)] *)
Definition layeredEmojis (config : gmap string value) (pf : ProjectFile)
  : option value :=
  if negb (isUndefined (get config "useEmojis")) then Some (get config "useEmojis")
  else
    match fileGet pf "useEmojis" with
    | Some v => Some (if negb (isUndefined v) then v else VBool true)
    | None => None
    end.

(** [config.aiApiKey || process.env.OPENAI_API_KEY
      || process.env.CLAUDE_API_KEY || process.env.GEMINI_API_KEY] *)
Definition resolvedKey (env : ProcessEnv) (config : gmap string value) : value :=
  or (or (or (get config "aiApiKey") (ofOption (OPENAI_API_KEY env)))
         (ofOption (CLAUDE_API_KEY env)))
     (ofOption (GEMINI_API_KEY env)).

(** [config.aiApiType || (process.env.OPENAI_API_KEY ? 'openai'
      : process.env.CLAUDE_API_KEY ? 'claude' : 'gemini')] *)
Definition resolvedType (env : ProcessEnv) (config : gmap string value) : value :=
  or (get config "aiApiType")
     (VString (if truthy (OPENAI_API_KEY env) then "openai"
               else if truthy (CLAUDE_API_KEY env) then "claude" else "gemini")).

(** [{...fileConfig}]: the spread of [null] adds nothing. *)
Definition spread (pf : ProjectFile) : gmap string value :=
  default ∅ (fileConfigOf pf).

Definition isString (v : value) : bool :=
  match v with
  | VString _ => true
  | _ => false
  end.

(** [path.resolve] and [path.join] throw on an argument that is not a
    string. *)
Definition arePaths (cfg : gmap string value) (keys : list string) : bool :=
  forallb (fun key => isString (get cfg key)) keys.

(** The constructor of [ChangelogManager]: [this.config] is made of the
    computed properties, then the spread of [fileConfig], then the spread of
    [config]; the paths [this.changelogDir] and [this.draftFile] are built
    from it.  [projectFile] gives the parsed [changelog.config.json] of a
    project root; [None] is a constructor that throws. *)
Definition changelogManagerConfig
  (env : ProcessEnv) (projectFile : value -> ProjectFile) (config : gmap string value)
  : option (gmap string value) :=
  let projectRoot := or (get config "projectRoot") (VString (cwd env)) in
  let pf := projectFile projectRoot in
  match layered config pf "changelogDir" "changelog/releases",
        layered config pf "draftFileName" "draft.md",
        layered config pf "gitTimeRange" "1 day ago",
        layeredEmojis config pf with
  | Some changelogDir, Some draftFileName, Some gitTimeRange, Some useEmojis =>
      let cfg :=
        config
        ∪ (spread pf
           ∪ list_to_map
               [ ("changelogDir", changelogDir);
                 ("draftFileName", draftFileName);
                 ("aiApiKey", resolvedKey env config);
                 ("aiApiType", resolvedType env config);
                 ("gitTimeRange", gitTimeRange);
                 ("projectRoot", projectRoot);
                 ("useEmojis", useEmojis) ]) in
      if arePaths cfg ["projectRoot"; "changelogDir"; "draftFileName"]
      then Some cfg else None
  | _, _, _, _ => None
  end.

(** The object assigned to [this.config] of [ReleaseManager]. *)
Definition releaseManagerConfig (env : ProcessEnv) (config : gmap string value)
  : gmap string value :=
  config
  ∪ list_to_map
      [ ("projectRoot", or (get config "projectRoot") (VString (cwd env)));
        ("changelogDir", or (get config "changelogDir") (VString "changelog/releases"));
        ("draftFileName", or (get config "draftFileName") (VString "draft.md"));
        ("packageJsonPath", or (get config "packageJsonPath") (VString "package.json"));
        ("githubToken",
         or (get config "githubToken") (ofOption (ENV_GITHUB_TOKEN env)));
        ("githubRepository",
         or (get config "githubRepository") (ofOption (ENV_GITHUB_REPOSITORY env))) ].

(** The constructor of [ReleaseManager]: its own [this.config] and the one
    of the [ChangelogManager] it creates from it; [None] when the inner
    constructor throws or a path cannot be built. *)
Definition releaseManager
  (env : ProcessEnv) (projectFile : value -> ProjectFile) (config : gmap string value)
  : option (gmap string value * gmap string value) :=
  let own := releaseManagerConfig env config in
  match changelogManagerConfig env projectFile own with
  | Some inner =>
      if arePaths own ["projectRoot"; "packageJsonPath"; "changelogDir"]
      then Some (own, inner) else None
  | None => None
  end.

(** [program.opts()] of [bin/changelog-add.js]; [addEmojis] is [undefined]
    when neither [--emojis] nor [--no-emojis] is given. *)
Record AddOptions := {
  addMessage : option string;
  addDir : string;
  addFile : string;
  addTime : string;
  addRoot : string;
  openaiKey : option string;
  claudeKey : option string;
  geminiKey : option string;
  addEmojis : option bool
}.

(** The object [config] of [bin/changelog-add.js]. *)
Definition addConfig (o : AddOptions) : gmap string value :=
  let base : gmap string value :=
    list_to_map
      [ ("changelogDir", VString (addDir o));
        ("draftFileName", VString (addFile o));
        ("gitTimeRange", VString (addTime o));
        ("projectRoot", VString (addRoot o)) ] in
  let keyed :=
    if truthy (openaiKey o)
    then <["aiApiType" := VString "openai"]> (<["aiApiKey" := ofOption (openaiKey o)]> base)
    else if truthy (claudeKey o)
    then <["aiApiType" := VString "claude"]> (<["aiApiKey" := ofOption (claudeKey o)]> base)
    else if truthy (geminiKey o)
    then <["aiApiType" := VString "gemini"]> (<["aiApiKey" := ofOption (geminiKey o)]> base)
    else base in
  match addEmojis o with
  | Some b => <["useEmojis" := VBool b]> keyed
  | None => keyed
  end.

End Configuration.

(** ** bin/changelog-release.js: the main function *)

Module ReleaseCommand.
Import Semver ChangelogManager.

(** The check of [options.type] against [validTypes]; [None] is the exit
    before anything is read or written. *)
Definition bumpTypeOf (type : string) : option ReleaseType :=
  if String.eqb type "major" then Some Major
  else if String.eqb type "minor" then Some Minor
  else if String.eqb type "patch" then Some Patch
  else None.

(** [prompt(question)] resolves to the line typed, trimmed and in lower
    case.  The answer is only compared with [y] and [yes], none of whose
    letters is the lower case of a character outside ASCII. *)
Definition prompt (typed : string) : string := toLowerCase (trim typed).

(** The pending check, the question and the add it may run.  [Returned]
    is the changelog directory with which [main] goes on to the release;
    [Threw] is a constructor or an add that threw, after which [main] ends
    in its [catch].  [ccfg] holds the fields the [ChangelogManager] built
    from [config] reads; [None] is a constructor that throws. *)
Definition beforeRelease
  (skipPendingCheck : bool) (ccfg : option Config) (cw : World) (typed : string)
  (dir : gmap string fsnode) : Run :=
  if skipPendingCheck then Returned dir
  else
    match ccfg with
    | Some changelogManager =>
        if hasPendingCommits changelogManager cw dir then
          let answer := prompt typed in
          if String.eqb answer "y" || String.eqb answer "yes"
          then addToChangelog changelogManager cw None dir
          else Returned dir
        else Returned dir
    | None => Threw dir
    end.

(** How [main] ends: at the check of the bump type, before anything is read
    or written; in its [catch] before the release, after a constructor or
    the add threw; or with what [release] did.  The exit status is 1 unless
    [release] answered. *)
Inductive Ending :=
| InvalidType
| Caught (st : ReleaseManager.State)
| Release (outcome : ReleaseManager.Outcome).

(** The script from the check of the bump type on, with a config file that
    loads when one is given; [rcfg] holds the fields the [ReleaseManager]
    built from the same [config] reads, [None] when its constructor
    throws. *)
Definition main
  (type : string) (skipPendingCheck : bool)
  (ccfg : option Config) (rcfg : option ReleaseManager.Config)
  (cw : World) (rw : ReleaseManager.World) (typed : string)
  (st : ReleaseManager.State) : Ending :=
  match bumpTypeOf type with
  | Some bumpType =>
      match beforeRelease skipPendingCheck ccfg cw typed (ReleaseManager.changelog st) with
      | Returned dir =>
          let checked :=
            {| ReleaseManager.manifest := ReleaseManager.manifest st;
               ReleaseManager.changelog := dir |} in
          match rcfg with
          | Some manager => Release (ReleaseManager.release manager rw bumpType checked)
          | None => Caught checked
          end
      | Threw dir =>
          Caught {| ReleaseManager.manifest := ReleaseManager.manifest st;
                    ReleaseManager.changelog := dir |}
      end
  | None => InvalidType
  end.

End ReleaseCommand.

(** ** scripts/postinstall.js, the uninstall hook and the scripts step of
       the init command *)

Module Scripts.
Import Cli Configuration.

(** An object is the list of its own properties in enumeration order.  The
    property names used here are not array indices, so a new property goes
    last.  A number that is not an integer behaves as any non-zero
    number. *)

(** [obj[key]] *)
Fixpoint field (key : string) (fields : list (string * value)) : value :=
  match fields with
  | [] => VUndefined
  | (k, v) :: rest => if String.eqb k key then v else field key rest
  end.

(** [obj[key] = v] *)
Fixpoint setField (key : string) (v : value) (fields : list (string * value))
  : list (string * value) :=
  match fields with
  | [] => [(key, v)]
  | (k, old) :: rest =>
      if String.eqb k key then (k, v) :: rest else (k, old) :: setField key v rest
  end.

(** [delete obj[key]] *)
Definition deleteField (key : string) (fields : list (string * value))
  : list (string * value) :=
  List.filter (fun kv => negb (String.eqb (fst kv) key)) fields.

(** [v.key] on what [JSON.parse] gives, for the names read here, which no
    prototype defines; [None] when the read throws. *)
Definition property (v : value) (key : string) : option value :=
  match v with
  | VUndefined | VNull => None
  | VObject fields => Some (field key fields)
  | _ => Some VUndefined
  end.

(** The [package.json] of a directory: missing, not JSON, or parsed. *)
Inductive Probe :=
| NoFile
| Unparsable
| Parsed (pkg : value).

Inductive Located :=
| Threw
| NotFound
| Found (level : nat) (pkg : value).

Definition isOwnName (name : value) : bool :=
  match name with
  | VString s => String.eqb s "git-changelog-manager"
  | _ => false
  end.

(** The search loop; [probe i] is the [package.json] of the directory [i]
    levels above the working directory, [rounds] the iterations left. *)
Fixpoint locate (probe : nat -> Probe) (level rounds : nat) : Located :=
  match rounds with
  | O => NotFound
  | S rounds' =>
      match probe level with
      | NoFile => locate probe (S level) rounds'
      | Unparsable => Threw
      | Parsed pkg =>
          match property pkg "name" with
          | None => Threw
          | Some name =>
              if isOwnName name then locate probe (S level) rounds'
              else Found level pkg
          end
      end
  end.

Definition changelogScripts : list (string * string) :=
  [ ("changelog:add", "changelog-add"); ("changelog:release", "changelog-release") ].

(** One round of the loop that adds the scripts. *)
Definition addScript
  (state : list (string * value) * list string) (entry : string * string)
  : list (string * value) * list string :=
  let (scripts, scriptsAdded) := state in
  let (scriptName, command) := entry in
  if truthyValue (field scriptName scripts) then (scripts, scriptsAdded)
  else (setField scriptName (VString command) scripts, scriptsAdded ++ [scriptName]).

(** What happens to the located file. *)
Inductive Effect :=
| Nothing
| Wrote (packageJson : value).

(** [addChangelogScripts] from the second [JSON.parse] on.  A property
    written to a number, a boolean or a string is dropped silently, and
    [JSON.stringify] does not print a named property of an array. *)
Definition addTo (packageJson : value) : Effect :=
  match packageJson with
  | VObject fields =>
      let fields' :=
        if truthyValue (field "scripts" fields) then fields
        else setField "scripts" (VObject []) fields in
      match field "scripts" fields' with
      | VObject scripts =>
          let (scripts', scriptsAdded) :=
            fold_left addScript changelogScripts (scripts, []) in
          if (0 <? List.length scriptsAdded)%nat
          then Wrote (VObject (setField "scripts" (VObject scripts') fields'))
          else Nothing
      | _ => Wrote (VObject fields)
      end
  | VArray _ => Wrote packageJson
  | _ => Nothing
  end.

(** [addChangelogScripts()]: the level of the file written and what it
    holds then, [None] when no file is written. *)
Definition addChangelogScripts (probe : nat -> Probe) : option (nat * value) :=
  match locate probe 0 5 with
  | Found level pkg =>
      match addTo pkg with
      | Wrote v => Some (level, v)
      | Nothing => None
      end
  | _ => None
  end.

(** [scripts[name] === 'changelog-add' || scripts[name] === 'changelog-release'] *)
Definition isOurCommand (v : value) : bool :=
  match v with
  | VString s => String.eqb s "changelog-add" || String.eqb s "changelog-release"
  | _ => false
  end.

(** One round of the loop that removes the scripts. *)
Definition removeScript
  (state : list (string * value) * list string) (scriptName : string)
  : list (string * value) * list string :=
  let (scripts, scriptsRemoved) := state in
  if truthyValue (field scriptName scripts) && isOurCommand (field scriptName scripts)
  then (deleteField scriptName scripts, scriptsRemoved ++ [scriptName])
  else (scripts, scriptsRemoved).

(** [removeChangelogScripts] from the second [JSON.parse] on. *)
Definition removeFrom (packageJson : value) : Effect :=
  match packageJson with
  | VObject fields =>
      match field "scripts" fields with
      | VObject scripts =>
          let (scripts', scriptsRemoved) :=
            fold_left removeScript ["changelog:add"; "changelog:release"] (scripts, []) in
          if (0 <? List.length scriptsRemoved)%nat
          then Wrote (VObject (setField "scripts" (VObject scripts') fields))
          else Nothing
      | _ => Nothing
      end
  | _ => Nothing
  end.

Definition removeChangelogScripts (probe : nat -> Probe) : option (nat * value) :=
  match locate probe 0 5 with
  | Found level pkg =>
      match removeFrom pkg with
      | Wrote v => Some (level, v)
      | Nothing => None
      end
  | _ => None
  end.

(** The scripts step of the init command on the parsed [package.json] of
    the project root; a failure ends in the [catch] of the step. *)
Definition initScripts (packageJson : value) : Effect :=
  match packageJson with
  | VObject fields =>
      let fields' :=
        if truthyValue (field "scripts" fields) then fields
        else setField "scripts" (VObject []) fields in
      match field "scripts" fields' with
      | VObject scripts =>
          let (scripts1, added1) :=
            if truthyValue (field "changelog:add" scripts) then (scripts, false)
            else (setField "changelog:add" (VString "changelog-add") scripts, true) in
          let (scripts2, added2) :=
            if truthyValue (field "changelog:release" scripts1) then (scripts1, added1)
            else (setField "changelog:release" (VString "changelog-release") scripts1,
                  true) in
          if added2
          then Wrote (VObject (setField "scripts" (VObject scripts2) fields'))
          else Nothing
      | _ => Wrote (VObject fields)
      end
  | VArray _ => Wrote packageJson
  | _ => Nothing
  end.

End Scripts.

(** ** Vocabulary of the statements *)

(** A text without line feed. *)
Definition oneLine (l : string) : Prop := includes l nl = false.

(** A line that is not the header of the Unreleased section, and a line
    that is not the title of the document. *)
Definition noUnreleased (line : string) : Prop :=
  includes line "**Unreleased**" = false.

Definition noTitle (line : string) : Prop :=
  startsWith line "# Release" = false.

(** Semantic-version precedence: major, then minor, then patch, each
    compared as a number. *)
Definition precedes (a b : Semver.SemVer) : Prop :=
  (Semver.major a < Semver.major b
   \/ (Semver.major a = Semver.major b
       /\ (Semver.minor a < Semver.minor b
           \/ (Semver.minor a = Semver.minor b
               /\ Semver.patch a <= Semver.patch b))))%N.

(** The standard increment of a release version, written out. *)
Definition increment (v : Semver.SemVer) (bump : Semver.ReleaseType) : string :=
  match bump with
  | Semver.Major => Semver.showN (Semver.major v + 1) +:+ ".0.0"
  | Semver.Minor =>
      Semver.showN (Semver.major v) +:+ "."
      +:+ Semver.showN (Semver.minor v + 1) +:+ ".0"
  | Semver.Patch =>
      Semver.showN (Semver.major v) +:+ "." +:+ Semver.showN (Semver.minor v)
      +:+ "." +:+ Semver.showN (Semver.patch v + 1)
  end.

(** [vf] describes a version document of the directory: a file named
    [<version>.md] whose name matches the strict pattern and whose version
    parses as a semantic version. *)
Definition versionDocument
  (dir : gmap string fsnode) (vf : ChangelogManager.VersionFile) : Prop :=
  is_Some (dir !! ChangelogManager.file vf)
  /\ ChangelogManager.isVersionFileName (ChangelogManager.file vf) = true
  /\ ChangelogManager.file vf = ChangelogManager.version vf +:+ ".md"
  /\ Semver.parse (ChangelogManager.version vf) = Some (ChangelogManager.semver vf).

(** [vf] is a version document that no version document of the directory
    exceeds. *)
Definition highestVersion
  (dir : gmap string fsnode) (vf : ChangelogManager.VersionFile) : Prop :=
  versionDocument dir vf
  /\ forall vf', versionDocument dir vf' ->
       precedes (ChangelogManager.semver vf') (ChangelogManager.semver vf).

(** The decoded frontmatter of the text has no [tag], or an empty one. *)
Definition untagged (content : string) : Prop :=
  truthy (ChangelogManager.parseFrontmatter content !! "tag") = false.

(** The characters of a version read off a file name. *)
Definition digitOrDot (c : ascii) : bool :=
  Semver.isDigit c || Ascii.eqb c "."%char.

(** The first character of the text satisfies [p]. *)
Definition headIs (p : ascii -> bool) (s : string) : bool :=
  match s with
  | String c _ => p c
  | "" => false
  end.

Definition notDigit (c : ascii) : bool := negb (Semver.isDigit c).

(** [MAJOR.MINOR.PATCH] with three non-empty runs of digits: what is left
    of a version file name without its extension. *)
Definition plainVersion (s : string) : Prop :=
  exists a b c,
    Semver.digits a = true /\ Semver.digits b = true /\ Semver.digits c = true
    /\ s = a +:+ "." +:+ b +:+ "." +:+ c.

(** The weight of the digit that [n] digits follow. *)
Definition pow10 (n : nat) : N := (10 ^ N.of_nat n)%N.

(** The three numbers spelled by a file name that matches the strict
    pattern, leading zeros or not. *)
Definition numbersOfName (f : string) : option (N * N * N) :=
  match split "."%char f with
  | [a; b; c; _] =>
      Some (Semver.decimal 0 a, Semver.decimal 0 b, Semver.decimal 0 c)
  | _ => None
  end.

Definition versionOfNumbers (t : N * N * N) : Semver.SemVer :=
  let '(x, y, z) := t in
  {| Semver.major := x; Semver.minor := y; Semver.patch := z;
     Semver.prerelease := [] |}.

(** The reading of [getNextVersion] that takes every file matching the
    strict pattern for an existing version: [0.1.0] when no file matches,
    otherwise the increment of the numerically highest of them. *)
Definition nextVersionOverMatchingFiles
  (dir : gmap string fsnode) (bump : Semver.ReleaseType) (answer : string) : Prop :=
  let names := List.filter ChangelogManager.isVersionFileName (readdir dir) in
  match names with
  | [] => answer = "0.1.0"
  | _ :: _ =>
      exists f t,
        In f names /\ numbersOfName f = Some t
        /\ (forall g u, In g names -> numbersOfName g = Some u ->
              precedes (versionOfNumbers u) (versionOfNumbers t))
        /\ answer = increment (versionOfNumbers t) bump
  end.

(** A directory whose only file spells a version with a leading zero. *)
Definition leadingZeroDir : gmap string fsnode :=
  {[ "01.0.0.md" := Readable "" ]}.

(** ** Sample data *)

Definition sampleConfig : ChangelogManager.Config :=
  {| ChangelogManager.draftFileName := "draft.md";
     ChangelogManager.aiApiKey := None;
     ChangelogManager.aiApiType := ChangelogManager.Gemini;
     ChangelogManager.useEmojis := true |}.

(** A world without polishing provider, where [git log] printed [log]. *)
Definition sampleWorld (log : option string) : ChangelogManager.World :=
  {| ChangelogManager.today := "2024-07-04";
     ChangelogManager.gitLog := log;
     ChangelogManager.provider := fun _ _ _ => None |}.

Definition rawEntry (msg : string) : ChangelogManager.Entry :=
  {| ChangelogManager.entryMessage := msg;
     ChangelogManager.polished := ChangelogManager.rawBullet msg |}.

(** The lines of a fresh draft down to its title, and below its header. *)
Definition sampleTop : list string :=
  [ "---"; "version: 0.2.0"; "date: 2024-07-01"; "tag: "; "---"; "";
    "# Release 0.2.0"; "" ].
Definition sampleBottom : list string :=
  [ ""; "<!-- New entries will be added here -->"; ""; "" ].

Definition sampleDraft : string :=
  ChangelogManager.draftTemplate "0.2.0" "2024-07-01".

(** The fresh draft after the entry [C] was added to it. *)
Definition draftWithC : string :=
  ChangelogManager.mergeEntries sampleDraft [rawEntry "C"].

(** A released document: a title and one line, no Unreleased section. *)
Definition releasedText : string :=
  join nl [ "# Release 1.0.0"; "- old" ].

(** The order "title, blank, header, blank, entries" somewhere in the lines. *)
Definition blankBetweenHeaderAndEntries
  (title : string) (entries lines : list string) : Prop :=
  exists pre post,
    lines = pre ++ title :: "" :: "## **Unreleased**" :: "" :: entries ++ post.

(** A configuration with an API key, in a world whose provider fails. *)
Definition keyedConfig : ChangelogManager.Config :=
  {| ChangelogManager.draftFileName := "draft.md";
     ChangelogManager.aiApiKey := Some "sk-test";
     ChangelogManager.aiApiType := ChangelogManager.OpenAI;
     ChangelogManager.useEmojis := false |}.

(** [git log] printed two commits with the same subject. *)
Definition twiceTheSameSubject : string :=
  "a1b2c3|Fix typo" +:+ nl +:+ "d4e5f6|Fix typo".

Definition freshDraftDir : gmap string fsnode :=
  {[ "draft.md" := Readable sampleDraft ]}.

(** The release host is not asked, or it accepts. *)
Definition hostAccepts (cfg : ReleaseManager.Config) (w : ReleaseManager.World) : Prop :=
  truthy (ReleaseManager.githubToken cfg) = false
  \/ truthy (ReleaseManager.githubRepository cfg) = false
  \/ forall tag body, ReleaseManager.releaseHost w tag body = ReleaseManager.Created.

(** No name stands in the way of a write: [path] is free or a file that
    can be read and written. *)
Definition noObstacle (dir : gmap string fsnode) (path : string) : Prop :=
  forall why, dir !! path <> Some (Unreadable why).

Definition sampleReleaseConfig : ReleaseManager.Config :=
  {| ReleaseManager.draftFileName := "draft.md";
     ReleaseManager.githubToken := None;
     ReleaseManager.githubRepository := None;
     ReleaseManager.versionFiles := false |}.

(** The same with the credentials of a release host. *)
Definition hostedReleaseConfig : ReleaseManager.Config :=
  {| ReleaseManager.draftFileName := "draft.md";
     ReleaseManager.githubToken := Some "ghp_token";
     ReleaseManager.githubRepository := Some "owner/project";
     ReleaseManager.versionFiles := false |}.

(** A world whose release host answers every request with an error. *)
Definition sampleReleaseWorld : ReleaseManager.World :=
  {| ReleaseManager.today := "2024-07-04";
     ReleaseManager.releaseHost := fun _ _ => ReleaseManager.Rejected;
     ReleaseManager.additionalFiles := fun _ st => ReleaseManager.Passed st |}.

(** The draft displays [0.2.0], the manifest says [1.0.0]. *)
Definition sampleState : ReleaseManager.State :=
  {| ReleaseManager.manifest :=
       ReleaseManager.PackageJson (ReleaseManager.VersionText "1.0.0") true;
     ReleaseManager.changelog := freshDraftDir |}.

Definition sampleOptions : Cli.Options :=
  {| Cli.optDir := "changelog/releases";
     Cli.optFile := "draft.md";
     Cli.optRoot := "/work/project";
     Cli.optPackage := "package.json";
     Cli.optGithubToken := Some "token-from-flag";
     Cli.optGithubRepo := None;
     Cli.optConfig := Some "release.config.json" |}.

Definition sampleEnv : Cli.Env :=
  {| Cli.GITHUB_TOKEN := Some "token-from-env";
     Cli.GITHUB_REPOSITORY := Some "owner/from-env" |}.

Definition sampleFileConfig : gmap string Cli.value :=
  {[ "changelogDir" := Cli.VString "docs/releases";
     "githubToken" := Cli.VString "token-from-file" ]}.

Definition sampleFiles : Cli.Files :=
  fun path =>
    if String.eqb path "release.config.json" then Some sampleFileConfig else None.

(** Directories for the four situations of the resolver. *)
Definition taggedText : string :=
  join nl [ "---"; "version: 1.3.0"; "date: 2024-06-01"; "tag: v1.3.0"; "---"; "";
            "# Release 1.3.0"; ""; "- Something" ].
Definition untaggedText : string :=
  join nl [ "---"; "version: 1.10.0"; "date: 2024-06-20"; "tag: "; "---"; "";
            "# Release 1.10.0"; ""; "## **Unreleased**"; "" ].

Definition releasedDir : gmap string fsnode :=
  {[ "1.2.3.md" := Readable taggedText; "1.3.0.md" := Readable taggedText ]}.
Definition pendingDir : gmap string fsnode :=
  {[ "1.9.0.md" := Readable taggedText; "1.10.0.md" := Readable untaggedText;
     "notes.md" := Readable "" ]}.

(** A lower-case hexadecimal digit. *)
Definition isLowerHex (c : ascii) : bool :=
  let n := N_of_ascii c in
  Semver.isDigit c || ((97 <=? n) && (n <=? 102))%N.

Definition notLF (c : ascii) : bool := negb (Ascii.eqb c LF).

(** The lines that [updateChangelogFile] joins: the lines of the text, the
    section header when it had to be added, and the new entry lines. *)
Definition mergedLines (content : string) (newEntries : list ChangelogManager.Entry)
  : list string :=
  let (lines, unreleasedIndex) :=
    ChangelogManager.locateUnreleased (split LF content) in
  ChangelogManager.splice (unreleasedIndex + 1)
    (map ChangelogManager.entryLine newEntries) lines.

(** The text [updateChangelogFile] merges into: the text of the file, or
    the template when the file cannot be read. *)
Definition startingText
  (w : ChangelogManager.World) (dir : gmap string fsnode) (filePath : string)
  : string :=
  match readFile dir filePath with
  | Some content => content
  | None =>
      ChangelogManager.draftTemplate
        (ChangelogManager.getNextVersion dir Semver.Patch)
        (ChangelogManager.today w)
  end.

(** The bytes of the lines, one more per line for its line feed. *)
Definition weight (lines : list string) : nat :=
  fold_right (fun l n => S (String.length l + n)) O lines.

(** [git log] printed two commits with different subjects. *)
Definition twoCommitsLog : string :=
  "a1b2c3|Fix typo" +:+ nl +:+ "d4e5f6|Add search".

(** Every character but [d]. *)
Definition notChar (d : ascii) (c : ascii) : bool := negb (Ascii.eqb c d).

(** The characters of versions and of dates as [toISOString] prints them:
    ASCII letters and digits, [.], [-] and [+]. *)
Definition isPlainChar (c : ascii) : bool :=
  let n := N_of_ascii c in
  (Semver.isDigit c
   || ((65 <=? n) && (n <=? 90)) || ((97 <=? n) && (n <=? 122))
   || (n =? 46) || (n =? 45) || (n =? 43))%N.

(** The lines of the draft template above and below its section header. *)
Definition templateTop (version dateStr : string) : list string :=
  [ "---"; "version: " +:+ version; "date: " +:+ dateStr; "tag: "; "---"; "";
    "# Release " +:+ version; "" ].
Definition templateBottom : list string :=
  [ ""; "<!-- New entries will be added here -->"; ""; "" ].


(** A draft with a note between two fences further down. *)
Definition draftWithRule : string :=
  join nl [ "---"; "version: 0.2.0"; "date: 2024-07-01"; "tag: "; "---"; "";
            "# Release 0.2.0"; ""; "version: see above"; "---"; "tag:"; "" ].

(** A state without draft: only a tagged release in the directory. *)
Definition stateWithoutDraft : ReleaseManager.State :=
  {| ReleaseManager.manifest :=
       ReleaseManager.PackageJson (ReleaseManager.VersionText "1.3.0") true;
     ReleaseManager.changelog := releasedDir |}.

(** The four properties of the [ChangelogManager] configuration that have a
    built-in default. *)
Definition configDefaults : list (string * Cli.value) :=
  [ ("changelogDir", Cli.VString "changelog/releases");
    ("draftFileName", Cli.VString "draft.md");
    ("gitTimeRange", Cli.VString "1 day ago");
    ("useEmojis", Cli.VBool true) ].

(** The provider [t] is used with a key [k] that was given for it: by its
    own flag of the add command or by its own environment variable. *)
Definition keyOfProvider
  (env : Configuration.ProcessEnv) (o : Configuration.AddOptions)
  (t : string) (k : Cli.value) : Prop :=
  (t = "openai"
   /\ (k = Cli.ofOption (Configuration.openaiKey o)
       \/ k = Cli.ofOption (Configuration.OPENAI_API_KEY env)))
  \/ (t = "claude"
      /\ (k = Cli.ofOption (Configuration.claudeKey o)
          \/ k = Cli.ofOption (Configuration.CLAUDE_API_KEY env)))
  \/ (t = "gemini"
      /\ (k = Cli.ofOption (Configuration.geminiKey o)
          \/ k = Cli.ofOption (Configuration.GEMINI_API_KEY env))).

Definition sampleProcessEnv : Configuration.ProcessEnv :=
  {| Configuration.OPENAI_API_KEY := Some "sk-openai-env";
     Configuration.CLAUDE_API_KEY := None;
     Configuration.GEMINI_API_KEY := None;
     Configuration.ENV_GITHUB_TOKEN := None;
     Configuration.ENV_GITHUB_REPOSITORY := None;
     Configuration.cwd := "/work/project" |}.

Definition sampleAddOptions : Configuration.AddOptions :=
  {| Configuration.addMessage := None;
     Configuration.addDir := "changelog/releases";
     Configuration.addFile := "draft.md";
     Configuration.addTime := "1 day ago";
     Configuration.addRoot := "/work/project";
     Configuration.openaiKey := None;
     Configuration.claudeKey := Some "sk-claude-flag";
     Configuration.geminiKey := None;
     Configuration.addEmojis := None |}.

(** The project's [changelog.config.json] sets a directory and a time range. *)
Definition sampleProjectFile : Cli.value -> Configuration.ProjectFile :=
  fun _ =>
    Configuration.JsonObject
      {[ "changelogDir" := Cli.VString "docs/changes";
         "gitTimeRange" := Cli.VString "1 week ago" ]}.

(** A Markdown bullet, possibly indented. *)
Definition bullet (line : string) : Prop :=
  startsWith (trimStart line) "- " = true.

(** A white-space sequence does not start with a hyphen. *)
Definition noHyphenHead (w : string) : bool :=
  match w with
  | "" => false
  | String c _ => negb (Ascii.eqb c "-"%char)
  end.

(** The scripts object of a parsed [package.json]; empty when there is
    none. *)
Definition scriptsOf (packageJson : Cli.value) : list (string * Cli.value) :=
  match packageJson with
  | Cli.VObject fields =>
      match Scripts.field "scripts" fields with
      | Cli.VObject scripts => scripts
      | _ => []
      end
  | _ => []
  end.

(** What the file holds after a hook has run on it. *)
Definition contents (e : Scripts.Effect) (before : Cli.value) : Cli.value :=
  match e with
  | Scripts.Wrote v => v
  | Scripts.Nothing => before
  end.

(** A manifest that is an object, with a scripts object or without
    scripts. *)
Definition scriptable (packageJson : Cli.value) : bool :=
  match packageJson with
  | Cli.VObject fields =>
      match Scripts.field "scripts" fields with
      | Cli.VObject _ => true
      | v => negb (Configuration.truthyValue v)
      end
  | _ => false
  end.

Definition isHookScript (name : string) : bool :=
  String.eqb name "changelog:add" || String.eqb name "changelog:release".

Definition samplePackage : Cli.value :=
  Cli.VObject
    [ ("name", Cli.VString "my-app");
      ("scripts",
       Cli.VObject [ ("test", Cli.VString "jest");
                     ("changelog:release", Cli.VString "node tools/release.js") ]);
      ("version", Cli.VString "1.0.0") ].

Definition plainPackage : Cli.value :=
  Cli.VObject
    [ ("name", Cli.VString "my-app");
      ("scripts", Cli.VObject [ ("test", Cli.VString "jest") ]);
      ("version", Cli.VString "1.0.0") ].

(** The hook runs in [node_modules/git-changelog-manager]: its own
    manifest, no manifest in [node_modules], the project's manifest. *)
Definition sampleProbe : nat -> Scripts.Probe :=
  fun level =>
    match level with
    | 0%nat => Scripts.Parsed (Cli.VObject [ ("name", Cli.VString "git-changelog-manager") ])
    | 2%nat => Scripts.Parsed plainPackage
    | _ => Scripts.NoFile
    end.

(** A directory the search loop passes over: no manifest, or the manifest
    of the tool itself. *)
Definition passedOver (p : Scripts.Probe) : Prop :=
  p = Scripts.NoFile
  \/ exists pkg name,
       p = Scripts.Parsed pkg
       /\ Scripts.property pkg "name" = Some name
       /\ Scripts.isOwnName name = true.

(** A directory in which the name of the draft is taken by a directory. *)
Definition blockedDir : gmap string fsnode :=
  {[ "draft.md" := Unreadable Directory; "1.2.3.md" := Readable taggedText ]}.

(** The project root the constructor of [ChangelogManager] looks in. *)
Definition projectRootOf
  (env : Configuration.ProcessEnv) (config : gmap string Cli.value) : Cli.value :=
  Configuration.or (Configuration.get config "projectRoot")
    (Cli.VString (Configuration.cwd env)).

(** Every property of [obj] under one of the names [keys] is a string. *)
Definition givesPaths (obj : gmap string Cli.value) (keys : list string) : Prop :=
  forall key v, In key keys -> obj !! key = Some v -> Configuration.isString v = true.

(** * Properties *)

(** ** Facts about the string primitives *)

#[local] Arguments String.append !_ _ / : simpl nomatch.

Section StringFacts.

Lemma append_nil_r (s : string) : s +:+ "" = s.
Proof. induction s as [|c s IH]; simpl; [reflexivity | now rewrite IH]. Qed.

Lemma append_assoc (a b c : string) : (a +:+ b) +:+ c = a +:+ (b +:+ c).
Proof. induction a as [|x a IH]; simpl; [reflexivity | now rewrite IH]. Qed.

Lemma startsWith_app (p r : string) : startsWith (p +:+ r) p = true.
Proof.
  induction p as [|c p IH]; simpl; [reflexivity |].
  now rewrite Ascii.eqb_refl, IH.
Qed.

Lemma startsWith_drop (s p : string) :
  startsWith s p = true -> s = p +:+ drop (String.length p) s.
Proof.
  revert s; induction p as [|c p IH]; intros s H; simpl in *; [reflexivity |].
  destruct s as [|d s]; [discriminate |].
  apply andb_true_iff in H as [Hc Hp].
  apply Ascii.eqb_eq in Hc; subst d.
  simpl. f_equal. now apply IH.
Qed.

Lemma startsWith_iff (s p : string) :
  startsWith s p = true <-> exists r, s = p +:+ r.
Proof.
  split.
  - intros H. eexists. now apply startsWith_drop.
  - intros [r ->]. apply startsWith_app.
Qed.

Lemma includes_prefix (s p : string) :
  startsWith s p = true -> includes s p = true.
Proof. destruct s; simpl; intros ->; reflexivity. Qed.

(** [includes] is the search for a substring. *)
Lemma includes_iff (s p : string) :
  includes s p = true <-> exists a b, s = a +:+ p +:+ b.
Proof.
  split.
  - induction s as [|c s IH]; simpl; intros H.
    + rewrite orb_false_r in H. apply startsWith_iff in H as [r Hr].
      exists "", r. exact Hr.
    + apply orb_true_iff in H as [H|H].
      * apply startsWith_iff in H as [r Hr]. exists "", r. exact Hr.
      * destruct (IH H) as (a & b & ->). now exists (String c a), b.
  - intros (a & b & ->).
    induction a as [|c a IH]; simpl.
    + apply includes_prefix, startsWith_app.
    + apply orb_true_iff; right. exact IH.
Qed.

Lemma cut_Some (p s a b : string) :
  cut p s = Some (a, b) -> s = a +:+ p +:+ b.
Proof.
  revert a b; induction s as [|c s IH]; intros a b; simpl.
  - destruct (startsWith "" p) eqn:E; [|discriminate].
    intros [= <- <-]. now apply startsWith_drop.
  - destruct (startsWith (String c s) p) eqn:E.
    + intros [= <- <-]. now apply startsWith_drop.
    + destruct (cut p s) as [[a' b']|]; [|discriminate].
      intros [= <- <-]. simpl. f_equal. now apply IH.
Qed.

Lemma cut_None_includes (p s : string) :
  cut p s = None <-> includes s p = false.
Proof.
  induction s as [|c s IH]; simpl.
  - destruct (startsWith "" p); simpl; split; congruence.
  - destruct (startsWith (String c s) p); simpl.
    + split; congruence.
    + rewrite <- IH. destruct (cut p s) as [[a b]|]; split; congruence.
Qed.

Lemma split_nonempty (sep : ascii) (s : string) : split sep s <> [].
Proof.
  destruct s as [|c s]; simpl; [discriminate |].
  destruct (Ascii.eqb c sep); [discriminate |].
  destruct (split sep s); discriminate.
Qed.

Lemma join_split_sep (sep : ascii) (s : string) :
  join (String sep "") (split sep s) = s.
Proof.
  induction s as [|c s IH]; [reflexivity |].
  cbn [split]. pose proof (split_nonempty sep s) as Hne.
  destruct (Ascii.eqb c sep) eqn:E.
  - apply Ascii.eqb_eq in E; subst c.
    destruct (split sep s) as [|l ls]; [congruence |].
    change (join (String sep "") ("" :: l :: ls))
      with (String sep (join (String sep "") (l :: ls))).
    now rewrite IH.
  - destruct (split sep s) as [|l ls]; [congruence |].
    destruct ls as [|l' ls].
    + simpl in *. now rewrite IH.
    + change (join (String sep "") (String c l :: l' :: ls))
        with (String c (join (String sep "") (l :: l' :: ls))).
      now rewrite IH.
Qed.

(** Splitting on line feeds and joining with line feeds gives the text back. *)
Lemma join_split (s : string) : join nl (split LF s) = s.
Proof. apply join_split_sep. Qed.

Lemma oneLine_cons (c : ascii) (l : string) :
  oneLine (String c l) -> Ascii.eqb c LF = false /\ oneLine l.
Proof.
  unfold oneLine, nl. cbn [includes startsWith].
  intros H. apply orb_false_iff in H as [H1 H2].
  rewrite andb_true_r in H1. rewrite Ascii.eqb_sym in H1. now split.
Qed.

Lemma split_cons_other (sep c : ascii) (s : string) :
  Ascii.eqb c sep = false ->
  split sep (String c s) =
    match split sep s with
    | [] => [String c ""]
    | l :: ls => String c l :: ls
    end.
Proof. intros H. cbn [split]. now rewrite H. Qed.

Lemma split_oneLine (l : string) : oneLine l -> split LF l = [l].
Proof.
  induction l as [|c l IH]; [reflexivity |].
  intros H. apply oneLine_cons in H as [Hc Hl].
  rewrite split_cons_other by assumption.
  now rewrite (IH Hl).
Qed.

Lemma split_app_nl (l rest : string) :
  oneLine l -> split LF (l +:+ nl +:+ rest) = l :: split LF rest.
Proof.
  induction l as [|c l IH]; intros H.
  - reflexivity.
  - apply oneLine_cons in H as [Hc Hl].
    change (String c l +:+ nl +:+ rest) with (String c (l +:+ nl +:+ rest)).
    rewrite split_cons_other by assumption.
    now rewrite (IH Hl).
Qed.

(** Joining lines that hold no line feed and splitting again gives the
    lines back. *)
Lemma split_join (ls : list string) :
  ls <> [] -> Forall oneLine ls -> split LF (join nl ls) = ls.
Proof.
  induction ls as [|l ls IH]; [congruence |].
  intros _ H. inversion H as [|? ? Hl Hls]; subst.
  destruct ls as [|l' ls].
  - simpl. now apply split_oneLine.
  - change (join nl (l :: l' :: ls)) with (l +:+ nl +:+ join nl (l' :: ls)).
    rewrite split_app_nl by assumption.
    f_equal. apply IH; [discriminate | assumption].
Qed.

End StringFacts.

(** ** Facts about lines and their indices *)

Section LineFacts.
Import ChangelogManager.

Lemma oneLine_String (c : ascii) (l : string) :
  Ascii.eqb c LF = false -> oneLine l -> oneLine (String c l).
Proof.
  unfold oneLine, nl. intros Hc Hl. cbn [includes startsWith].
  rewrite Ascii.eqb_sym, Hc. exact Hl.
Qed.

(** The lines of a text hold no line feed. *)
Lemma split_lines_oneLine (s : string) : Forall oneLine (split LF s).
Proof.
  induction s as [|c s IH].
  - repeat constructor.
  - cbn [split]. destruct (Ascii.eqb c LF) eqn:E.
    + constructor; [reflexivity | exact IH].
    + destruct (split LF s) as [|l ls].
      * constructor; [|constructor]. now apply oneLine_String.
      * inversion IH; subst. constructor; [|assumption].
        now apply oneLine_String.
Qed.

Context {A : Type} (p : A -> bool).

Lemma findIndex_first (pre post : list A) (x : A) :
  Forall (fun y => p y = false) pre -> p x = true ->
  findIndex p (pre ++ x :: post) = Some (List.length pre).
Proof.
  intros Hpre Hx. induction Hpre as [|y pre Hy _ IH]; simpl.
  - now rewrite Hx.
  - now rewrite Hy, IH.
Qed.

Lemma findIndex_None (l : list A) :
  Forall (fun y => p y = false) l -> findIndex p l = None.
Proof.
  intros H. induction H as [|y l Hy _ IH]; simpl; [reflexivity |].
  now rewrite Hy, IH.
Qed.

Lemma splice_after (pre post items : list A) (x : A) :
  splice (List.length pre + 1) items (pre ++ x :: post)
  = pre ++ x :: items ++ post.
Proof.
  unfold splice. induction pre as [|y pre IH]; simpl; [reflexivity |].
  now rewrite IH.
Qed.

Lemma splice_end (l items : list A) :
  splice (List.length l) items l = l ++ items.
Proof.
  unfold splice. rewrite firstn_all, skipn_all. now rewrite app_nil_r.
Qed.

End LineFacts.

(** ** Merging entries into a document *)

Section Merge.
Import ChangelogManager.

(** A write succeeds on a name without obstacle. *)
Lemma writeFile_noObstacle (dir : gmap string fsnode) (path text : string) :
  noObstacle dir path ->
  writeFile dir path text = Returned (<[path := Readable text]> dir).
Proof.
  intros H. unfold writeFile. specialize (H WriteOnly) as Hw.
  destruct (dir !! path) as [[t|why]|] eqn:E; try reflexivity.
  now destruct (H why).
Qed.

Lemma readable_noObstacle (dir : gmap string fsnode) (path text : string) :
  readFile dir path = Some text -> noObstacle dir path.
Proof.
  unfold readFile, noObstacle. intros H why Hw. rewrite Hw in H. discriminate H.
Qed.

Lemma free_noObstacle (dir : gmap string fsnode) (path : string) :
  dir !! path = None -> noObstacle dir path.
Proof. unfold noObstacle. intros H why Hw. congruence. Qed.

Lemma written_noObstacle (dir : gmap string fsnode) (path other text : string) :
  noObstacle dir path -> noObstacle (<[other := Readable text]> dir) path.
Proof.
  unfold noObstacle. intros H why.
  destruct (decide (other = path)) as [-> | Hne].
  - rewrite lookup_insert_eq. discriminate.
  - rewrite lookup_insert_ne by assumption. apply H.
Qed.

(** The write on an obstacle leaves the directory as it is. *)
Lemma writeFile_obstacle (dir : gmap string fsnode) (path text : string) (why : Obstacle) :
  dir !! path = Some (Unreadable why) ->
  dirOf (writeFile dir path text) = dir
  /\ (why <> WriteOnly -> writeFile dir path text = Threw dir).
Proof.
  intros H. unfold writeFile. rewrite H. destruct why; split; try reflexivity; congruence.
Qed.

(** On a file that can be read, [updateChangelogFile] overwrites it with
    the merged text and touches nothing else. *)
Lemma updateChangelogFile_readable
  (w : World) (dir : gmap string fsnode) (filePath content : string)
  (newEntries : list Entry) :
  readFile dir filePath = Some content ->
  updateChangelogFile w dir filePath newEntries
  = Returned (<[filePath := Readable (mergeEntries content newEntries)]> dir).
Proof.
  intros H. unfold updateChangelogFile. rewrite H. rewrite H.
  apply writeFile_noObstacle. now apply (readable_noObstacle _ _ content).
Qed.

Lemma readFile_writeFile (dir : gmap string fsnode) (path text : string) :
  readFile (<[path := Readable text]> dir) path = Some text.
Proof. unfold readFile. now rewrite lookup_insert_eq. Qed.

Lemma mergeEntries_header
  (content : string) (pre post : list string) (header : string)
  (newEntries : list Entry) :
  split LF content = pre ++ header :: post ->
  Forall noUnreleased pre ->
  includes header "**Unreleased**" = true ->
  mergeEntries content newEntries
  = join nl (pre ++ header :: map entryLine newEntries ++ post).
Proof.
  intros Hsplit Hpre Hhdr. unfold mergeEntries, locateUnreleased.
  rewrite Hsplit.
  rewrite (findIndex_first _ pre post header Hpre Hhdr).
  now rewrite splice_after.
Qed.

Lemma mergeEntries_title
  (content : string) (pre post : list string) (title : string)
  (newEntries : list Entry) :
  split LF content = pre ++ title :: post ->
  Forall noUnreleased (pre ++ title :: post) ->
  Forall noTitle pre ->
  startsWith title "# Release" = true ->
  mergeEntries content newEntries
  = join nl (pre ++ title :: "" :: "## **Unreleased**"
                 :: map entryLine newEntries ++ "" :: post).
Proof.
  intros Hsplit Hno Hpre Htitle. unfold mergeEntries, locateUnreleased.
  rewrite Hsplit.
  rewrite (findIndex_None _ _ Hno).
  rewrite (findIndex_first _ pre post title Hpre Htitle).
  rewrite splice_after.
  replace (List.length pre + 2 + 1)%nat
    with (List.length (pre ++ [title; ""]) + 1)%nat
    by (rewrite length_app; simpl; lia).
  replace (pre ++ title :: [""; "## **Unreleased**"; ""] ++ post)
    with ((pre ++ [title; ""]) ++ "## **Unreleased**" :: "" :: post)
    by (now rewrite <- app_assoc).
  rewrite splice_after. rewrite <- app_assoc. reflexivity.
Qed.

Lemma mergeEntries_append
  (content : string) (newEntries : list Entry) :
  Forall noUnreleased (split LF content) ->
  Forall noTitle (split LF content) ->
  mergeEntries content newEntries
  = join nl (split LF content ++ [""; "## **Unreleased**"; ""]
               ++ map entryLine newEntries).
Proof.
  intros Hno Hti. unfold mergeEntries, locateUnreleased.
  rewrite (findIndex_None _ _ Hno), (findIndex_None _ _ Hti).
  set (lines' := split LF content ++ [""; "## **Unreleased**"; ""]).
  assert (Hlen : (List.length lines' - 1 + 1 = List.length lines')%nat).
  { unfold lines'. rewrite length_app. simpl. lia. }
  rewrite Hlen, splice_end. unfold lines'. now rewrite <- app_assoc.
Qed.

End Merge.

(** ** The highest version document *)

Section Sorting.
Import ChangelogManager.
Context {A : Type} (cmp : A -> A -> comparison).
Hypothesis cmp_total : forall x y, cmp x y = Gt -> cmp y x <> Gt.
Hypothesis cmp_trans :
  forall x y z, cmp x y <> Gt -> cmp y z <> Gt -> cmp x z <> Gt.

Lemma cmp_refl (x : A) : cmp x x <> Gt.
Proof. intros H. exact (cmp_total x x H H). Qed.

Lemma head_insert (x : A) (l : list A) (h : A) :
  head (insert cmp x l) = Some h ->
  (h = x /\ forall y, head l = Some y -> cmp x y <> Gt)
  \/ (head l = Some h /\ cmp x h = Gt).
Proof.
  destruct l as [|y l]; simpl.
  - intros [= <-]. left. split; [reflexivity | discriminate].
  - destruct (cmp x y) eqn:E; simpl; intros [= <-].
    + left. split; [reflexivity |]. intros ? [= <-]. congruence.
    + left. split; [reflexivity |]. intros ? [= <-]. congruence.
    + right. now split.
Qed.

Lemma insert_not_nil (x : A) (l : list A) : insert cmp x l <> [].
Proof. destruct l as [|y l]; simpl; [|destruct (cmp x y)]; discriminate. Qed.

Lemma head_sort_None (l : list A) : head (sort cmp l) = None -> l = [].
Proof.
  destruct l as [|x l]; [reflexivity |]. simpl.
  pose proof (insert_not_nil x (sort cmp l)).
  destruct (insert cmp x (sort cmp l)); [congruence | discriminate].
Qed.

(** The first element of the sorted array is an element of the array that
    the comparator puts before every other. *)
Lemma head_sort (l : list A) (h : A) :
  head (sort cmp l) = Some h ->
  In h l /\ forall y, In y l -> cmp h y <> Gt.
Proof.
  revert h. induction l as [|x l IH]; intros h; simpl; [discriminate |].
  intros H. apply head_insert in H as [[-> Hx] | [Hh Hgt]].
  - split; [now left |]. intros y [<- | Hy]; [apply cmp_refl |].
    destruct (head (sort cmp l)) as [m|] eqn:Em.
    + destruct (IH m eq_refl) as [_ Hm].
      apply cmp_trans with m; [now apply Hx | now apply Hm].
    + apply head_sort_None in Em. subst l. destruct Hy.
  - destruct (IH h Hh) as [Hin Hmin]. split; [now right |].
    intros y [<- | Hy]; [now apply cmp_total | now apply Hmin].
Qed.

End Sorting.

Section Precedence.
Import Semver.

Lemma compareMain_precedes (a b : SemVer) :
  compareMain a b <> Gt <-> precedes a b.
Proof.
  unfold compareMain, precedes.
  destruct (N.compare_spec (major a) (major b)) as [H1|H1|H1];
    [ destruct (N.compare_spec (minor a) (minor b)) as [H2|H2|H2];
      [ destruct (N.compare_spec (patch a) (patch b)) as [H3|H3|H3] | | ]
    | | ];
    split; intros H; try congruence; try lia; try (intros _; lia).
Qed.

Lemma rcompare_total (a b : SemVer) : rcompare a b = Gt -> rcompare b a <> Gt.
Proof.
  unfold rcompare. intros H. apply compareMain_precedes.
  assert (Hn : ~ precedes b a) by (rewrite <- compareMain_precedes; tauto).
  unfold precedes in *. lia.
Qed.

Lemma rcompare_trans (a b c : SemVer) :
  rcompare a b <> Gt -> rcompare b c <> Gt -> rcompare a c <> Gt.
Proof.
  unfold rcompare. rewrite !compareMain_precedes. unfold precedes. lia.
Qed.

End Precedence.

Section VersionFileNames.
Import Semver ChangelogManager.

Lemma append_length (a b : string) :
  String.length (a +:+ b) = (String.length a + String.length b)%nat.
Proof. induction a as [|c a IH]; simpl; [reflexivity | now rewrite IH]. Qed.

Lemma append_cancel_r (a b t : string) : a +:+ t = b +:+ t -> a = b.
Proof.
  revert b. induction a as [|c a IH]; intros [|d b] H.
  - reflexivity.
  - apply (f_equal String.length) in H. simpl in H.
    rewrite append_length in H. lia.
  - apply (f_equal String.length) in H. simpl in H.
    rewrite append_length in H. lia.
  - simpl in H. injection H as -> H. f_equal. now apply IH.
Qed.

Lemma digit_not (c d : ascii) : isDigit d = false -> isDigit c = true -> Ascii.eqb d c = false.
Proof.
  intros Hd Hc. destruct (Ascii.eqb d c) eqn:E; [|reflexivity].
  apply Ascii.eqb_eq in E. congruence.
Qed.

Lemma digits_inv (s : string) :
  digits s = true ->
  exists c s', s = String c s' /\ isDigit c = true /\ allChars isDigit s' = true.
Proof.
  unfold digits. destruct s as [|c s']; [discriminate |].
  cbn [String.eqb negb andb allChars]. intros H.
  apply andb_true_iff in H as [Hc Hs]. now exists c, s'.
Qed.

Lemma digits_allChars (s : string) : digits s = true -> allChars isDigit s = true.
Proof. unfold digits. intros H. now apply andb_true_iff in H as [_ H]. Qed.

(** A digit is not where [.md] starts. *)
Lemma cut_md_digit (c : ascii) (r : string) :
  isDigit c = true ->
  cut ".md" (String c r)
  = match cut ".md" r with
    | Some (x, y) => Some (String c x, y)
    | None => None
    end.
Proof.
  intros Hc. cbn [cut startsWith].
  now rewrite (digit_not c "."%char eq_refl Hc).
Qed.

Lemma cut_md_digits (a r : string) :
  allChars isDigit a = true ->
  cut ".md" (a +:+ r)
  = match cut ".md" r with
    | Some (x, y) => Some (a +:+ x, y)
    | None => None
    end.
Proof.
  induction a as [|c a IH]; intros H.
  - simpl. now destruct (cut ".md" r) as [[x y]|].
  - cbn [allChars] in H. apply andb_true_iff in H as [Hc Ha].
    change (String c a +:+ r) with (String c (a +:+ r)).
    rewrite cut_md_digit by assumption. rewrite (IH Ha).
    now destruct (cut ".md" r) as [[x y]|].
Qed.

(** Nor is a dot that a digit follows. *)
Lemma cut_md_dot (b r : string) :
  digits b = true ->
  cut ".md" ("." +:+ b +:+ r)
  = match cut ".md" r with
    | Some (x, y) => Some ("." +:+ b +:+ x, y)
    | None => None
    end.
Proof.
  intros Hb. destruct (digits_inv b Hb) as (c & b' & -> & Hc & Hb').
  change ("." +:+ String c b' +:+ r) with (String "." (String c (b' +:+ r))).
  cbn [cut startsWith].
  rewrite (digit_not c "m"%char eq_refl Hc). cbn [andb].
  rewrite (digit_not c "."%char eq_refl Hc). cbn [andb].
  rewrite cut_md_digits by assumption.
  now destruct (cut ".md" r) as [[x y]|].
Qed.

Lemma isVersionFileName_inv (f : string) :
  isVersionFileName f = true ->
  exists a b c,
    digits a = true /\ digits b = true /\ digits c = true
    /\ f = a +:+ "." +:+ b +:+ "." +:+ c +:+ ".md".
Proof.
  unfold isVersionFileName. intros H.
  pose proof (join_split_sep "."%char f) as Hj.
  destruct (split "." f) as [|a [|b [|c [|ext [|]]]]]; try discriminate.
  apply andb_true_iff in H as [H He]. apply andb_true_iff in H as [H Hc].
  apply andb_true_iff in H as [Ha Hb]. apply String.eqb_eq in He. subst ext.
  exists a, b, c. repeat split; try assumption.
  rewrite <- Hj. reflexivity.
Qed.

(** On a version file name, removing the first [.md] removes the extension. *)
Lemma version_of_name (f : string) :
  isVersionFileName f = true ->
  f = replaceFirst ".md" "" f +:+ ".md".
Proof.
  intros H. destruct (isVersionFileName_inv f H) as (a & b & c & Ha & Hb & Hc & ->).
  unfold replaceFirst.
  rewrite cut_md_digits by now apply digits_allChars.
  rewrite cut_md_dot by assumption.
  rewrite cut_md_dot by assumption.
  change (cut ".md" ".md") with (Some ("", "")).
  cbn iota. rewrite !append_nil_r. rewrite !append_assoc. reflexivity.
Qed.

End VersionFileNames.

Section HighestVersion.
Import Semver ChangelogManager.

Lemma readdir_spec (dir : gmap string fsnode) (f : string) :
  In f (readdir dir) <-> is_Some (dir !! f).
Proof.
  unfold readdir. rewrite in_map_iff. split.
  - intros [[g n] [<- Hin]]. apply list_elem_of_In, elem_of_map_to_list in Hin.
    now exists n.
  - intros [n Hn]. exists (f, n). split; [reflexivity |].
    now apply list_elem_of_In, elem_of_map_to_list.
Qed.

Lemma versionOfFile_Some (f : string) (vf : VersionFile) :
  versionOfFile f = Some vf ->
  file vf = f /\ version vf = replaceFirst ".md" "" f
  /\ parse (version vf) = Some (semver vf).
Proof.
  unfold versionOfFile. destruct (parse (replaceFirst ".md" "" f)) eqn:E;
    [|discriminate].
  intros [= <-]. simpl. now repeat split.
Qed.

(** The array [versions] of [getHighestVersion] holds the version documents
    of the directory, and nothing else. *)
Lemma versions_spec (dir : gmap string fsnode) (vf : VersionFile) :
  In vf (omap versionOfFile (List.filter isVersionFileName (readdir dir)))
  <-> versionDocument dir vf.
Proof.
  rewrite <- list_elem_of_In, list_elem_of_omap. unfold versionDocument. split.
  - intros (f & Hf & Hvf). apply list_elem_of_In, filter_In in Hf as [Hdir Hname].
    apply versionOfFile_Some in Hvf as (Hfile & Hver & Hparse).
    rewrite Hfile, Hver. repeat split; try assumption.
    + now apply readdir_spec.
    + now apply version_of_name.
    + now rewrite <- Hver.
  - intros (Hdir & Hname & Hfile & Hparse). exists (file vf). split.
    + apply list_elem_of_In, filter_In. split; [now apply readdir_spec | assumption].
    + unfold versionOfFile.
      assert (Hv : replaceFirst ".md" "" (file vf) = version vf).
      { apply append_cancel_r with ".md". rewrite <- Hfile.
        symmetry. now apply version_of_name. }
      rewrite Hv, Hparse. now destruct vf.
Qed.

Lemma getHighestVersion_head (dir : gmap string fsnode) :
  getHighestVersion dir
  = head (sort (fun a b => rcompare (semver a) (semver b))
            (omap versionOfFile (List.filter isVersionFileName (readdir dir)))).
Proof.
  unfold getHighestVersion.
  now destruct (List.filter isVersionFileName (readdir dir)).
Qed.

(** What [getHighestVersion] answers is a highest version document. *)
Lemma getHighestVersion_Some (dir : gmap string fsnode) (vf : VersionFile) :
  getHighestVersion dir = Some vf -> highestVersion dir vf.
Proof.
  rewrite getHighestVersion_head. intros H.
  apply head_sort in H as [Hin Hmax].
  - split; [now apply versions_spec |].
    intros vf' Hvf'. apply compareMain_precedes.
    apply (Hmax vf'). now apply versions_spec.
  - intros x y. apply rcompare_total.
  - intros x y z. apply rcompare_trans.
Qed.

(** It answers [null] only when the directory has no version document. *)
Lemma getHighestVersion_None (dir : gmap string fsnode) :
  getHighestVersion dir = None <-> forall vf, ~ versionDocument dir vf.
Proof.
  rewrite getHighestVersion_head. split.
  - intros H vf Hvf. apply head_sort_None in H.
    apply versions_spec in Hvf. rewrite H in Hvf. destruct Hvf.
  - intros H.
    destruct (omap versionOfFile (List.filter isVersionFileName (readdir dir)))
      as [|vf l] eqn:E; [reflexivity |].
    exfalso. apply (H vf). apply versions_spec. rewrite E. now left.
Qed.

End HighestVersion.

(** ** Versions read off file names carry no prerelease tag *)

Section ReleaseVersions.
Import Semver ChangelogManager.

Lemma allChars_app (p : ascii -> bool) (a b : string) :
  allChars p (a +:+ b) = allChars p a && allChars p b.
Proof.
  induction a as [|c a IH]; simpl; [reflexivity |].
  now rewrite IH, andb_assoc.
Qed.

Lemma allChars_weaken (p q : ascii -> bool) (s : string) :
  (forall c, p c = true -> q c = true) ->
  allChars p s = true -> allChars q s = true.
Proof.
  intros Hpq. induction s as [|c s IH]; simpl; [reflexivity |].
  intros H. apply andb_true_iff in H as [Hc Hs].
  now rewrite (Hpq c Hc), (IH Hs).
Qed.

Lemma allChars_drop (p : ascii -> bool) (n : nat) (s : string) :
  allChars p s = true -> allChars p (drop n s) = true.
Proof.
  revert s. induction n as [|n IH]; intros [|c s]; simpl; try tauto.
  intros H. apply andb_true_iff in H as [_ Hs]. now apply IH.
Qed.

Lemma allChars_take (p : ascii -> bool) (n : nat) (s : string) :
  allChars p s = true -> allChars p (take n s) = true.
Proof.
  revert s. induction n as [|n IH]; intros [|c s]; simpl; try tauto.
  intros H. apply andb_true_iff in H as [Hc Hs]. now rewrite Hc, IH.
Qed.

Lemma trim_allChars (p : ascii -> bool) (s : string) :
  allChars p s = true -> allChars p (trim s) = true.
Proof.
  assert (Hstart : forall fuel t,
             allChars p t = true -> allChars p (trimStart_fuel fuel t) = true).
  { induction fuel as [|fuel IH]; intros t Ht; simpl; [assumption |].
    destruct (leadingSpace t); [|assumption]. now apply IH, allChars_drop. }
  assert (Hend : forall fuel t,
             allChars p t = true -> allChars p (trimEnd_fuel fuel t) = true).
  { induction fuel as [|fuel IH]; intros t Ht; simpl; [assumption |].
    destruct (trailingSpace t); [|assumption]. now apply IH, allChars_take. }
  intros H. unfold trim, trimEnd, trimStart. now apply Hend, Hstart.
Qed.

(** A text none of whose characters is [ch] does not hold [ch]. *)
Lemma cut_None_allChars (p : ascii -> bool) (ch : ascii) (s : string) :
  p ch = false -> allChars p s = true -> cut (String ch "") s = None.
Proof.
  intros Hch. induction s as [|c s IH]; [reflexivity |].
  cbn [allChars]. intros H. apply andb_true_iff in H as [Hc Hs].
  cbn [cut startsWith].
  destruct (Ascii.eqb ch c) eqn:E.
  - apply Ascii.eqb_eq in E. congruence.
  - cbn [andb]. now rewrite (IH Hs).
Qed.

Lemma parseCore_prerelease (core : string) (pre : list string) (v : SemVer) :
  parseCore core pre = Some v -> prerelease v = pre.
Proof.
  unfold parseCore.
  destruct (split "." core) as [|a [|b [|c [|]]]]; try discriminate.
  destruct (numericIdentifier a), (numericIdentifier b), (numericIdentifier c);
    try discriminate.
  destruct (_ && _); [|discriminate]. now intros [= <-].
Qed.

Lemma parse_release (s : string) (v : SemVer) :
  allChars digitOrDot s = true -> parse s = Some v -> prerelease v = [].
Proof.
  intros Hs. unfold parse. destruct (MAX_LENGTH <? utf16Length s)%N; [discriminate |].
  set (t := if startsWith (trim s) "v" then drop 1 (trim s) else trim s).
  assert (Ht : allChars digitOrDot t = true).
  { unfold t. destruct (startsWith (trim s) "v");
      [apply allChars_drop |]; now apply trim_allChars. }
  rewrite (cut_None_allChars digitOrDot "+"%char t eq_refl Ht).
  unfold parseMain.
  rewrite (cut_None_allChars digitOrDot "-"%char t eq_refl Ht).
  apply parseCore_prerelease.
Qed.

Lemma isDigit_digitOrDot (c : ascii) : isDigit c = true -> digitOrDot c = true.
Proof. unfold digitOrDot. now intros ->. Qed.

(** The version of a version document is a plain [MAJOR.MINOR.PATCH]. *)
Lemma versionDocument_release (dir : gmap string fsnode) (vf : VersionFile) :
  versionDocument dir vf -> prerelease (semver vf) = [].
Proof.
  intros (_ & Hname & Hfile & Hparse).
  apply (parse_release (version vf)); [|assumption].
  destruct (isVersionFileName_inv _ Hname) as (a & b & c & Ha & Hb & Hc & Hf).
  assert (Hv : version vf = a +:+ "." +:+ b +:+ "." +:+ c).
  { apply append_cancel_r with ".md". rewrite <- Hfile, Hf.
    now rewrite !append_assoc. }
  rewrite Hv, !allChars_app.
  assert (Hd : forall s, digits s = true -> allChars digitOrDot s = true).
  { intros s Hs. apply (allChars_weaken isDigit); [apply isDigit_digitOrDot |].
    now apply digits_allChars. }
  now rewrite (Hd a Ha), (Hd b Hb), (Hd c Hc).
Qed.

(** On such a version [semver.inc] is the standard increment. *)
Lemma format_incSemVer (v : SemVer) (bump : ReleaseType) :
  prerelease v = [] -> format (incSemVer v bump) = increment v bump.
Proof.
  intros H. unfold incSemVer, hasPrerelease, increment, format.
  rewrite H. destruct bump; cbn [major minor patch negb];
    rewrite ?orb_true_r; reflexivity.
Qed.

End ReleaseVersions.

(** ** Decimal numerals *)

Section Numerals.
Import Semver.
Local Open Scope N_scope.

Lemma pow10_S (n : nat) : pow10 (S n) = 10 * pow10 n.
Proof. unfold pow10. now rewrite Nat2N.inj_succ, N.pow_succ_r'. Qed.

Lemma pow10_pos (n : nat) : 0 < pow10 n.
Proof. unfold pow10. apply N.neq_0_lt_0, N.pow_nonzero. lia. Qed.

Lemma pow10_mono (n m : nat) : (n <= m)%nat -> pow10 n <= pow10 m.
Proof. intros H. unfold pow10. apply N.pow_le_mono_r; lia. Qed.

Lemma decimal_acc (acc : N) (s : string) :
  decimal acc s = acc * pow10 (String.length s) + decimal 0 s.
Proof.
  revert acc. induction s as [|c s IH]; intros acc.
  - simpl. unfold pow10. simpl. lia.
  - cbn [decimal String.length]. rewrite (IH (10 * acc + _)), (IH (10 * 0 + _)).
    rewrite pow10_S. ring.
Qed.

Lemma isDigit_value (c : ascii) :
  isDigit c = true -> 48 <= N_of_ascii c <= 57.
Proof.
  unfold isDigit. intros H. apply andb_true_iff in H as [H1 H2].
  apply N.leb_le in H1, H2. lia.
Qed.

Lemma decimal_cons (c : ascii) (s : string) :
  decimal 0 (String c s) = (N_of_ascii c - 48) * pow10 (String.length s) + decimal 0 s.
Proof.
  cbn [decimal]. rewrite decimal_acc.
  replace (10 * 0 + (N_of_ascii c - 48)) with (N_of_ascii c - 48) by lia.
  reflexivity.
Qed.

Lemma decimal_upper (s : string) :
  allChars isDigit s = true -> decimal 0 s < pow10 (String.length s).
Proof.
  induction s as [|c s IH]; intros H.
  - simpl. unfold pow10. simpl. lia.
  - cbn [allChars] in H. apply andb_true_iff in H as [Hc Hs].
    rewrite decimal_cons. cbn [String.length]. rewrite pow10_S.
    pose proof (isDigit_value c Hc). pose proof (IH Hs).
    pose proof (pow10_pos (String.length s)). nia.
Qed.

Lemma decimal_lower (c : ascii) (s : string) :
  isDigit c = true -> c <> "0"%char ->
  pow10 (String.length s) <= decimal 0 (String c s).
Proof.
  intros Hc Hz. rewrite decimal_cons.
  pose proof (isDigit_value c Hc).
  assert (N_of_ascii c <> 48).
  { intros E. apply Hz. rewrite <- (ascii_N_embedding c), E. reflexivity. }
  pose proof (pow10_pos (String.length s)). nia.
Qed.

Lemma decimal_inj_length (s s' : string) :
  String.length s = String.length s' ->
  allChars isDigit s = true -> allChars isDigit s' = true ->
  decimal 0 s = decimal 0 s' -> s = s'.
Proof.
  revert s'. induction s as [|c s IH]; intros [|c' s'] Hlen Hs Hs' Heq;
    try discriminate; [reflexivity |].
  cbn [allChars] in Hs, Hs'.
  apply andb_true_iff in Hs as [Hc Hs]. apply andb_true_iff in Hs' as [Hc' Hs'].
  injection Hlen as Hlen. rewrite !decimal_cons, <- Hlen in Heq.
  pose proof (decimal_upper s Hs) as Hu.
  pose proof (decimal_upper s' Hs') as Hu'. rewrite <- Hlen in Hu'.
  pose proof (isDigit_value c Hc). pose proof (isDigit_value c' Hc').
  assert (Hq : N_of_ascii c - 48 = N_of_ascii c' - 48 /\ decimal 0 s = decimal 0 s').
  { apply (N.div_mod_unique (pow10 (String.length s))); try assumption. lia. }
  destruct Hq as [Hq Hr]. f_equal.
  - rewrite <- (ascii_N_embedding c), <- (ascii_N_embedding c'). f_equal. lia.
  - now apply IH.
Qed.

(** A numeric identifier without leading zero: either [0] or a numeral
    whose first digit is not [0]. *)
Lemma numericIdentifier_inv (s : string) (n : N) :
  numericIdentifier s = Some n ->
  n = decimal 0 s /\ allChars isDigit s = true
  /\ (s = "0" \/ exists c s', s = String c s' /\ isDigit c = true /\ c <> "0"%char).
Proof.
  unfold numericIdentifier. destruct (digits s) eqn:Hd; [|discriminate].
  cbn [andb]. destruct (negb (startsWith s "0") || String.eqb s "0") eqn:Hz;
    [|discriminate].
  intros [= <-]. split; [reflexivity |]. split; [now apply digits_allChars |].
  destruct (digits_inv s Hd) as (c & s' & -> & Hc & Hs').
  apply orb_true_iff in Hz as [Hz | Hz].
  - right. exists c, s'. repeat split; try assumption.
    intros ->. discriminate.
  - left. now apply String.eqb_eq.
Qed.

Lemma numericIdentifier_inj (s s' : string) (n : N) :
  numericIdentifier s = Some n -> numericIdentifier s' = Some n -> s = s'.
Proof.
  intros H H'.
  apply numericIdentifier_inv in H as (Hn & Hs & Hc).
  apply numericIdentifier_inv in H' as (Hn' & Hs' & Hc').
  assert (Hlen : String.length s = String.length s').
  { destruct Hc as [-> | (c & r & -> & Hd & Hz)];
      destruct Hc' as [-> | (c' & r' & -> & Hd' & Hz')]; [reflexivity | | |].
    - pose proof (decimal_lower c' r' Hd' Hz'). pose proof (pow10_pos (String.length r')).
      rewrite <- Hn', Hn in H. cbn in H. lia.
    - pose proof (decimal_lower c r Hd Hz). pose proof (pow10_pos (String.length r)).
      rewrite <- Hn, Hn' in H. cbn in H. lia.
    - pose proof (decimal_lower c r Hd Hz) as Hl.
      pose proof (decimal_lower c' r' Hd' Hz') as Hl'.
      pose proof (decimal_upper _ Hs) as Hu. pose proof (decimal_upper _ Hs') as Hu'.
      rewrite <- Hn in Hl, Hu. rewrite <- Hn' in Hl', Hu'.
      cbn [String.length] in *.
      destruct (Nat.lt_trichotomy (String.length r) (String.length r')) as [Hlt|[->|Hlt]];
        [|reflexivity|].
      + pose proof (pow10_mono (S (String.length r)) (String.length r') Hlt). lia.
      + pose proof (pow10_mono (S (String.length r')) (String.length r) Hlt). lia. }
  apply decimal_inj_length; try assumption. congruence.
Qed.

End Numerals.

(** ** One version, one file name *)

Section UniqueVersion.
Import Semver ChangelogManager.

Lemma reverseString_snoc (x : string) (d : ascii) :
  reverseString (x +:+ String d "") = String d (reverseString x).
Proof.
  induction x as [|c x IH]; [reflexivity |].
  change (String c x +:+ String d "") with (String c (x +:+ String d "")).
  cbn [reverseString]. now rewrite IH.
Qed.

Lemma startsWith_heads (s w : string) :
  headIs isDigit s = true -> headIs notDigit w = true -> startsWith s w = false.
Proof.
  destruct s as [|c s], w as [|d w]; try discriminate.
  cbn [headIs startsWith]. unfold notDigit. intros Hc Hd.
  destruct (Ascii.eqb d c) eqn:E; [|reflexivity].
  apply Ascii.eqb_eq in E. subst d. now rewrite Hc in Hd.
Qed.

Lemma find_none {A} (f : A -> bool) (l : list A) :
  (forall x, In x l -> f x = false) -> find f l = None.
Proof.
  induction l as [|x l IH]; intros H; [reflexivity |].
  cbn [find]. rewrite (H x) by now left.
  apply IH. intros y Hy. apply H. now right.
Qed.

Lemma whitespace_heads :
  forall w, In w whitespace ->
    headIs notDigit w = true /\ headIs notDigit (reverseString w) = true.
Proof.
  assert (H : forallb (fun w => headIs notDigit w
                                && headIs notDigit (reverseString w))
                whitespace = true) by (vm_compute; reflexivity).
  intros w Hw. rewrite forallb_forall in H.
  now apply andb_true_iff, H.
Qed.

(** Nothing to trim off a text that starts and ends with a digit. *)
Lemma trim_digits (s : string) :
  headIs isDigit s = true -> headIs isDigit (reverseString s) = true ->
  trim s = s.
Proof.
  intros Hh Ht.
  assert (Hlead : leadingSpace s = None).
  { apply find_none. intros w Hw. apply startsWith_heads; [assumption |].
    now apply whitespace_heads. }
  assert (Htrail : trailingSpace s = None).
  { apply find_none. intros w Hw. apply startsWith_heads; [assumption |].
    now apply whitespace_heads. }
  unfold trim, trimStart, trimEnd.
  destruct s as [|c s]; [discriminate |].
  cbn [String.length trimStart_fuel]. rewrite Hlead.
  cbn [String.length trimEnd_fuel]. now rewrite Htrail.
Qed.

Lemma digits_last (c : string) :
  digits c = true -> exists r d, c = r +:+ String d "" /\ isDigit d = true.
Proof.
  intros H. destruct (digits_inv c H) as (x & c' & -> & Hx & Hc'). clear H.
  revert x Hx. induction c' as [|y c' IH]; intros x Hx.
  - now exists "", x.
  - cbn [allChars] in Hc'. apply andb_true_iff in Hc' as [Hy Hc'].
    destruct (IH Hc' y Hy) as (r & d & Hr & Hd).
    exists (String x r), d. split; [|assumption].
    change (String x r +:+ String d "") with (String x (r +:+ String d "")).
    now rewrite <- Hr.
Qed.

Lemma plainVersion_chars (s : string) :
  plainVersion s ->
  allChars digitOrDot s = true /\ headIs isDigit s = true
  /\ headIs isDigit (reverseString s) = true.
Proof.
  intros (a & b & c & Ha & Hb & Hc & ->).
  assert (Hd : forall s, digits s = true -> allChars digitOrDot s = true).
  { intros s Hs. apply (allChars_weaken isDigit); [apply isDigit_digitOrDot |].
    now apply digits_allChars. }
  split; [|split].
  - rewrite !allChars_app. now rewrite (Hd a Ha), (Hd b Hb), (Hd c Hc).
  - destruct (digits_inv a Ha) as (x & a' & -> & Hx & _). exact Hx.
  - destruct (digits_last c Hc) as (r & d & -> & Hdig).
    replace (a +:+ "." +:+ b +:+ "." +:+ r +:+ String d "")
      with ((a +:+ "." +:+ b +:+ "." +:+ r) +:+ String d "")
      by now rewrite !append_assoc.
    now rewrite reverseString_snoc.
Qed.

(** On a plain version [parse] checks the length and reads three numbers. *)
Lemma parse_plainVersion (s : string) :
  plainVersion s ->
  parse s = if (MAX_LENGTH <? utf16Length s)%N then None else parseCore s [].
Proof.
  intros H. destruct (plainVersion_chars s H) as (Hall & Hhead & Hlast).
  unfold parse. destruct (MAX_LENGTH <? utf16Length s)%N; [reflexivity |].
  rewrite (trim_digits s Hhead Hlast).
  assert (Hv : startsWith s "v" = false).
  { now apply startsWith_heads. }
  rewrite Hv.
  rewrite (cut_None_allChars digitOrDot "+"%char s eq_refl Hall).
  unfold parseMain.
  now rewrite (cut_None_allChars digitOrDot "-"%char s eq_refl Hall).
Qed.

Lemma parseCore_inv (core : string) (pre : list string) (v : SemVer) :
  parseCore core pre = Some v ->
  exists x y z,
    core = x +:+ "." +:+ y +:+ "." +:+ z
    /\ numericIdentifier x = Some (major v)
    /\ numericIdentifier y = Some (minor v)
    /\ numericIdentifier z = Some (patch v).
Proof.
  unfold parseCore. pose proof (join_split_sep "."%char core) as Hj.
  destruct (split "." core) as [|x [|y [|z [|]]]]; try discriminate.
  destruct (numericIdentifier x) as [nx|] eqn:Ex; [|discriminate].
  destruct (numericIdentifier y) as [ny|] eqn:Ey; [|discriminate].
  destruct (numericIdentifier z) as [nz|] eqn:Ez; [|discriminate].
  destruct (_ && _); [|discriminate]. intros [= <-].
  exists x, y, z. now rewrite <- Hj.
Qed.

(** Two plain versions with the same three numbers are the same text. *)
Lemma plainVersion_inj (s s' : string) (v v' : SemVer) :
  plainVersion s -> plainVersion s' ->
  parse s = Some v -> parse s' = Some v' ->
  major v = major v' -> minor v = minor v' -> patch v = patch v' ->
  s = s'.
Proof.
  intros Hs Hs' Hp Hp' Hmaj Hmin Hpat.
  rewrite parse_plainVersion in Hp, Hp' by assumption.
  destruct (_ <? utf16Length s)%N; [discriminate |].
  destruct (_ <? utf16Length s')%N; [discriminate |].
  apply parseCore_inv in Hp as (x & y & z & -> & Hx & Hy & Hz).
  apply parseCore_inv in Hp' as (x' & y' & z' & -> & Hx' & Hy' & Hz').
  rewrite Hmaj in Hx. rewrite Hmin in Hy. rewrite Hpat in Hz.
  now rewrite (numericIdentifier_inj x x' _ Hx Hx'),
    (numericIdentifier_inj y y' _ Hy Hy'), (numericIdentifier_inj z z' _ Hz Hz').
Qed.

Lemma versionDocument_plain (dir : gmap string fsnode) (vf : VersionFile) :
  versionDocument dir vf -> plainVersion (version vf).
Proof.
  intros (_ & Hname & Hfile & _).
  destruct (isVersionFileName_inv _ Hname) as (a & b & c & Ha & Hb & Hc & Hf).
  exists a, b, c. repeat split; try assumption.
  apply append_cancel_r with ".md". rewrite <- Hfile, Hf.
  now rewrite !append_assoc.
Qed.

(** The directory has at most one highest version document. *)
Lemma highestVersion_unique (dir : gmap string fsnode) (vf vf' : VersionFile) :
  highestVersion dir vf -> highestVersion dir vf' -> vf = vf'.
Proof.
  intros [Hd Hmax] [Hd' Hmax'].
  pose proof (Hmax vf' Hd') as H1. pose proof (Hmax' vf Hd) as H2.
  pose proof (versionDocument_plain dir vf Hd) as Hp.
  pose proof (versionDocument_plain dir vf' Hd') as Hp'.
  destruct Hd as (_ & _ & Hfile & Hparse), Hd' as (_ & _ & Hfile' & Hparse').
  assert (Hv : version vf = version vf').
  { apply (plainVersion_inj _ _ (semver vf) (semver vf')); try assumption;
      unfold precedes in *; lia. }
  destruct vf as [ver f sv], vf' as [ver' f' sv']. simpl in *. subst ver'.
  rewrite Hparse in Hparse'. injection Hparse' as <-. now subst.
Qed.

End UniqueVersion.

(** ** The open document and the next version *)

Section Resolver.
Import Semver ChangelogManager.

Lemma highestVersion_getHighestVersion
  (dir : gmap string fsnode) (vf : VersionFile) :
  highestVersion dir vf -> getHighestVersion dir = Some vf.
Proof.
  intros H. destruct (getHighestVersion dir) as [h|] eqn:E.
  - f_equal. apply (highestVersion_unique dir); [|assumption].
    now apply getHighestVersion_Some.
  - exfalso. destruct H as [Hd _].
    now apply (proj1 (getHighestVersion_None dir) E vf).
Qed.

Lemma access_None (dir : gmap string fsnode) (path : string) :
  dir !! path = None -> access dir path = false.
Proof. unfold access. now intros ->. Qed.

(** C3. [detectOpenReleaseFile] implements the resolver policy for every
    state of the directory.  When the draft exists it is the answer,
    whatever it holds.  When it does not exist: if the highest version
    document can be read and its decoded frontmatter has no [tag] or an empty
    one, that version file is the answer; if the highest version document is
    tagged (or cannot be read), or if there is no version document at all,
    the answer is the path of the draft, which does not exist yet. *)
Theorem C3_detectOpenReleaseFile (cfg : Config) (dir : gmap string fsnode) :
  let draft := draftFileName cfg in
  let answer := detectOpenReleaseFile cfg dir in
  (is_Some (dir !! draft) -> answer = draft)
  /\ (dir !! draft = None ->
      (forall vf content,
          highestVersion dir vf -> readFile dir (file vf) = Some content ->
          untagged content -> answer = file vf)
      /\ (forall vf,
          highestVersion dir vf ->
          (forall content, readFile dir (file vf) = Some content ->
                           ~ untagged content) ->
          answer = draft /\ dir !! answer = None)
      /\ ((forall vf, ~ versionDocument dir vf) ->
          answer = draft /\ dir !! answer = None)).
Proof.
  cbv zeta. unfold detectOpenReleaseFile. split.
  - intros [n Hn]. unfold access. now rewrite Hn.
  - intros Hdraft. rewrite (access_None _ _ Hdraft). split; [|split].
    + intros vf content Hhigh Hread Htag.
      rewrite (highestVersion_getHighestVersion dir vf Hhigh), Hread.
      unfold untagged in Htag. now rewrite Htag.
    + intros vf Hhigh Htagged.
      rewrite (highestVersion_getHighestVersion dir vf Hhigh).
      destruct (readFile dir (file vf)) as [content|] eqn:Hread; [|now split].
      specialize (Htagged content eq_refl). unfold untagged in Htagged.
      now destruct (truthy (parseFrontmatter content !! "tag")).
    + intros Hnone. now rewrite (proj2 (getHighestVersion_None dir) Hnone).
Qed.

Lemma getNextVersion_highest
  (dir : gmap string fsnode) (vf : VersionFile) (bump : ReleaseType) :
  highestVersion dir vf -> getNextVersion dir bump = increment (semver vf) bump.
Proof.
  intros H. unfold getNextVersion.
  rewrite (highestVersion_getHighestVersion dir vf H).
  destruct H as [Hd _]. pose proof (versionDocument_release dir vf Hd) as Hrel.
  destruct Hd as (_ & _ & _ & Hparse).
  unfold inc. rewrite Hparse. cbn [render]. now apply format_incSemVer.
Qed.

(** C4, as the code has it.  [getNextVersion] answers [0.1.0] for every
    bump type when the directory has no version document, that is no file
    that both matches the strict pattern and parses as a semantic version;
    otherwise the directory has a highest version document, by numeric
    comparison of major, then minor, then patch, and the answer is the
    standard increment of its version. *)
Theorem C4_getNextVersion (dir : gmap string fsnode) (bump : ReleaseType) :
  ((forall vf, ~ versionDocument dir vf) -> getNextVersion dir bump = "0.1.0")
  /\ (forall vf0, versionDocument dir vf0 ->
      exists vf, highestVersion dir vf
                 /\ getNextVersion dir bump = increment (semver vf) bump).
Proof.
  split.
  - intros H. unfold getNextVersion.
    now rewrite (proj2 (getHighestVersion_None dir) H).
  - intros vf0 H0. destruct (getHighestVersion dir) as [vf|] eqn:E.
    + apply getHighestVersion_Some in E. exists vf. split; [assumption |].
      now apply getNextVersion_highest.
    + exfalso. now apply (proj1 (getHighestVersion_None dir) E vf0).
Qed.

(** C4, counterexample.  The only file of the directory is [01.0.0.md]: it
    matches the strict pattern, and for a minor bump the reading that takes
    it for an existing version asks for [1.1.0]; the code answers [0.1.0],
    because [semver.parse] refuses the leading zero. *)
Lemma C4_counterexample :
  ~ nextVersionOverMatchingFiles leadingZeroDir Minor
      (getNextVersion leadingZeroDir Minor).
Proof.
  unfold nextVersionOverMatchingFiles.
  assert (Hnames : List.filter isVersionFileName (readdir leadingZeroDir)
                   = ["01.0.0.md"]) by (vm_compute; reflexivity).
  assert (Hnext : getNextVersion leadingZeroDir Minor = "0.1.0")
    by (vm_compute; reflexivity).
  rewrite Hnames, Hnext. cbv zeta iota.
  intros (f & t & Hin & Hnum & _ & Hanswer).
  destruct Hin as [<- | []].
  vm_compute in Hnum. injection Hnum as <-.
  vm_compute in Hanswer. discriminate.
Qed.

End Resolver.

(** ** Where the new entries go *)

Section MergeClaims.
Import ChangelogManager.

(** C2. In a document that has a line containing the marker
    [**Unreleased**], the new entry lines are inserted right after the first
    such line, in the order of the new sequence, and everything that was
    below the header stays below them: merging [A, B] above [C] gives
    [A, B, C] directly under the header. *)
Theorem C2_merge_under_header
  (w : World) (dir : gmap string fsnode) (filePath content : string)
  (pre post : list string) (header : string) (newEntries : list Entry) :
  readFile dir filePath = Some content ->
  split LF content = pre ++ header :: post ->
  Forall noUnreleased pre ->
  includes header "**Unreleased**" = true ->
  exists content',
    updateChangelogFile w dir filePath newEntries
    = Returned (<[filePath := Readable content']> dir)
    /\ readFile (dirOf (updateChangelogFile w dir filePath newEntries)) filePath
       = Some content'
    /\ content' = join nl (pre ++ header :: map entryLine newEntries ++ post)
    /\ (Forall oneLine (map entryLine newEntries) ->
        split LF content' = pre ++ header :: map entryLine newEntries ++ post).
Proof.
  intros Hread Hsplit Hpre Hhdr.
  exists (mergeEntries content newEntries).
  rewrite (updateChangelogFile_readable w dir filePath content newEntries Hread).
  split; [reflexivity |]. split; [|split].
  - apply readFile_writeFile.
  - now apply mergeEntries_header.
  - intros Hnew. rewrite (mergeEntries_header content pre post header) by assumption.
    pose proof (split_lines_oneLine content) as Hlines. rewrite Hsplit in Hlines.
    apply Forall_app in Hlines as [Hp Hrest]. inversion Hrest; subst.
    apply split_join.
    + now destruct pre.
    + apply Forall_app. split; [assumption |]. constructor; [assumption |].
      apply Forall_app. now split.
Qed.

(** A draft whose Unreleased section holds [C] receives [A, B]. *)
Lemma C2_witness :
  exists content',
    readFile
      (dirOf
         (updateChangelogFile (sampleWorld None) {[ "draft.md" := Readable draftWithC ]}
            "draft.md" [rawEntry "A"; rawEntry "B"]))
      "draft.md" = Some content'
    /\ split LF content'
       = sampleTop
         ++ [ "## **Unreleased**"; entryLine (rawEntry "A"); entryLine (rawEntry "B");
              entryLine (rawEntry "C") ]
         ++ sampleBottom.
Proof.
  destruct (C2_merge_under_header (sampleWorld None)
              {[ "draft.md" := Readable draftWithC ]} "draft.md" draftWithC
              sampleTop (entryLine (rawEntry "C") :: sampleBottom)
              "## **Unreleased**" [rawEntry "A"; rawEntry "B"])
    as (content' & _ & Hread & _ & Hlines).
  - vm_compute; reflexivity.
  - vm_compute; reflexivity.
  - repeat constructor.
  - vm_compute; reflexivity.
  - exists content'. split; [exact Hread |].
    apply Hlines. repeat (constructor; [vm_compute; reflexivity |]). constructor.
Defined.

(** C9, as the code has it.  In a document without any line containing
    [**Unreleased**]: when a line starts with [# Release], the first such
    line is followed by a blank line, the [## **Unreleased**] header, the new
    entry lines right under the header, and then a blank line; when no line
    starts with [# Release], a blank line, the header, a blank line and the
    entries are appended to the end of the document. *)
Theorem C9_merge_without_header
  (w : World) (dir : gmap string fsnode) (filePath content : string)
  (newEntries : list Entry) :
  readFile dir filePath = Some content ->
  Forall noUnreleased (split LF content) ->
  exists content',
    updateChangelogFile w dir filePath newEntries
    = Returned (<[filePath := Readable content']> dir)
    /\ readFile (dirOf (updateChangelogFile w dir filePath newEntries)) filePath
       = Some content'
    /\ (forall pre title post,
          split LF content = pre ++ title :: post ->
          Forall noTitle pre -> startsWith title "# Release" = true ->
          content' = join nl (pre ++ title :: "" :: "## **Unreleased**"
                                :: map entryLine newEntries ++ "" :: post))
    /\ (Forall noTitle (split LF content) ->
        content' = join nl (split LF content ++ [""; "## **Unreleased**"; ""]
                              ++ map entryLine newEntries)).
Proof.
  intros Hread Hno.
  exists (mergeEntries content newEntries).
  rewrite (updateChangelogFile_readable w dir filePath content newEntries Hread).
  split; [reflexivity |]. split; [|split].
  - apply readFile_writeFile.
  - intros pre title post Hsplit Hpre Htitle.
    apply mergeEntries_title; try assumption. now rewrite <- Hsplit.
  - intros Hti. now apply mergeEntries_append.
Qed.

(** A released document, title first, receives one entry. *)
Lemma C9_witness :
  exists content',
    readFile
      (dirOf
         (updateChangelogFile (sampleWorld None) {[ "1.0.0.md" := Readable releasedText ]}
            "1.0.0.md" [rawEntry "Fix login"]))
      "1.0.0.md" = Some content'
    /\ content'
       = join nl [ "# Release 1.0.0"; ""; "## **Unreleased**";
                   entryLine (rawEntry "Fix login"); ""; "- old" ].
Proof.
  destruct (C9_merge_without_header (sampleWorld None)
              {[ "1.0.0.md" := Readable releasedText ]} "1.0.0.md" releasedText
              [rawEntry "Fix login"])
    as (content' & _ & Hread & Htitle & _).
  - vm_compute; reflexivity.
  - repeat constructor.
  - exists content'. split; [exact Hread |].
    apply (Htitle [] "# Release 1.0.0" ["- old"]).
    + reflexivity.
    + constructor.
    + reflexivity.
Defined.

(** C9, counterexample.  After the merge into the released document the
    entry stands right under the header and the blank line comes after it:
    the order title, blank, header, blank, entry occurs nowhere. *)
Lemma C9_counterexample :
  ~ blankBetweenHeaderAndEntries "# Release 1.0.0"
      [entryLine (rawEntry "Fix login")]
      (split LF (mergeEntries releasedText [rawEntry "Fix login"])).
Proof.
  assert (Hlines : split LF (mergeEntries releasedText [rawEntry "Fix login"])
                   = [ "# Release 1.0.0"; ""; "## **Unreleased**";
                       "- Fix login <!-- hash:" +:+ createMessageHash "Fix login" +:+ " -->";
                       ""; "- old" ]) by (vm_compute; reflexivity).
  assert (Hline : entryLine (rawEntry "Fix login")
                  = "- Fix login <!-- hash:" +:+ createMessageHash "Fix login" +:+ " -->")
    by (vm_compute; reflexivity).
  intros (pre & post & H). rewrite Hlines, Hline in H. clear Hlines Hline.
  destruct pre as [|p0 pre]; [discriminate H |].
  do 5 (destruct pre as [|? pre]; [discriminate H |]).
  apply (f_equal (@List.length string)) in H.
  cbn [List.length] in H. rewrite !length_app in H. cbn [List.length] in H. lia.
Qed.

End MergeClaims.

(** ** Deduplication and polishing *)

Section Ingestion.
Import ChangelogManager.

(** C6. [isMessageAlreadyInChangelog] answers [true] exactly when the file
    can be read and the literal marker occurs somewhere in its text, and it
    answers [false], without throwing, when the file is missing or cannot
    be read. *)
Theorem C6_isMessageAlreadyInChangelog
  (dir : gmap string fsnode) (releaseFile messageHash : string) :
  (isMessageAlreadyInChangelog dir releaseFile messageHash = true
   <-> exists content before after,
         readFile dir releaseFile = Some content
         /\ content = before +:+ hashMarker messageHash +:+ after)
  /\ (readFile dir releaseFile = None ->
      isMessageAlreadyInChangelog dir releaseFile messageHash = false)
  /\ hashMarker messageHash = "<!-- hash:" +:+ messageHash +:+ " -->".
Proof.
  unfold isMessageAlreadyInChangelog. split; [|split].
  - destruct (readFile dir releaseFile) as [content|].
    + rewrite includes_iff. split.
      * intros (a & b & ->). now exists (a +:+ hashMarker messageHash +:+ b), a, b.
      * intros (c & a & b & [= <-] & ->). now exists a, b.
    + split; [discriminate |]. now intros (c & a & b & [=] & _).
  - now intros ->.
  - reflexivity.
Qed.

(** C7. Without an API key, or when the call to the provider throws, a
    non-empty list of messages is answered by the raw bullets, one per
    message and in the same order. *)
Theorem C7_polish_fallback (cfg : Config) (w : World) (messages : list string) :
  messages <> [] ->
  truthy (aiApiKey cfg) = false
  \/ provider w (aiApiType cfg) (useEmojis cfg) (join nl messages) = None ->
  polishCommitMessages cfg w messages = map (fun msg => "- " +:+ msg) messages
  /\ List.length (polishCommitMessages cfg w messages) = List.length messages
  /\ forall i msg, nth_error messages i = Some msg ->
       nth_error (polishCommitMessages cfg w messages) i = Some ("- " +:+ msg).
Proof.
  intros Hne Hfail.
  assert (H : polishCommitMessages cfg w messages
              = map (fun msg => "- " +:+ msg) messages).
  { unfold polishCommitMessages. destruct Hfail as [Hkey | Hcall].
    - now rewrite Hkey.
    - rewrite Hcall. now destruct (negb _ || _). }
  rewrite H. split; [reflexivity |]. split; [apply length_map |].
  intros i msg Hi. now apply map_nth_error.
Qed.

(** A key is configured and the provider fails on two messages. *)
Lemma C7_witness :
  polishCommitMessages keyedConfig (sampleWorld None)
    ["fix: auth bug"; "feat: user dashboard"]
  = map (fun msg => "- " +:+ msg) ["fix: auth bug"; "feat: user dashboard"]
  /\ List.length (polishCommitMessages keyedConfig (sampleWorld None)
                    ["fix: auth bug"; "feat: user dashboard"])
     = List.length ["fix: auth bug"; "feat: user dashboard"]
  /\ forall i msg,
       nth_error ["fix: auth bug"; "feat: user dashboard"] i = Some msg ->
       nth_error (polishCommitMessages keyedConfig (sampleWorld None)
                    ["fix: auth bug"; "feat: user dashboard"]) i
       = Some ("- " +:+ msg).
Proof.
  apply (C7_polish_fallback keyedConfig (sampleWorld None)
           ["fix: auth bug"; "feat: user dashboard"]).
  - discriminate.
  - right. reflexivity.
Defined.

(** A custom message whose hash the open document already holds changes
    nothing. *)
Lemma addToChangelog_known_message
  (cfg : Config) (w : World) (msg : string) (dir : gmap string fsnode) :
  msg <> "" ->
  isMessageAlreadyInChangelog dir (detectOpenReleaseFile cfg dir)
    (createMessageHash msg) = true ->
  addToChangelog cfg w (Some msg) dir = Returned dir.
Proof.
  intros Hmsg H. unfold addToChangelog.
  destruct msg as [|c msg]; [congruence |].
  cbn [truthy default]. unfold id. now rewrite H.
Qed.

(** Commits whose hashes the open document already holds change nothing. *)
Lemma addToChangelog_known_commits
  (cfg : Config) (w : World) (dir : gmap string fsnode) :
  Forall (fun c => isMessageAlreadyInChangelog dir (detectOpenReleaseFile cfg dir)
                     (createMessageHash (message c)) = true)
    (getNewCommits w) ->
  addToChangelog cfg w None dir = Returned dir.
Proof.
  intros H. unfold addToChangelog. cbn [truthy].
  assert (Hnone : List.filter
                    (fun c => negb (isMessageAlreadyInChangelog dir
                                      (detectOpenReleaseFile cfg dir)
                                      (createMessageHash (message c))))
                    (getNewCommits w) = []).
  { induction H as [|c cs Hc _ IH]; [reflexivity |].
    cbn [List.filter]. now rewrite Hc. }
  now rewrite Hnone.
Qed.

(** C1, at the failing input.  [git log] reports two commits with the
    subject [Fix typo] and the draft is fresh.  Neither hash is in the
    document when the batch is filtered, so both commits pass, and the
    document ends up with two entry lines that carry the same marker. *)
Theorem C1_same_hash_twice_in_one_batch :
  let after :=
    dirOf (addToChangelog sampleConfig (sampleWorld (Some twiceTheSameSubject)) None
             freshDraftDir) in
  let marker := hashMarker (createMessageHash "Fix typo") in
  exists text,
    readFile after "draft.md" = Some text
    /\ List.filter (fun line => includes line marker) (split LF text)
       = [ "- Fix typo " +:+ marker; "- Fix typo " +:+ marker ].
Proof.
  cbv zeta. eexists. split; vm_compute; reflexivity.
Qed.

End Ingestion.

(** ** The release cut *)

Section ReleaseCut.
Import Semver ReleaseManager.

Lemma createGithubRelease_accepts
  (cfg : Config) (w : World) (version : string) (dir : gmap string fsnode) :
  hostAccepts cfg w -> createGithubRelease cfg w version dir = true.
Proof.
  unfold createGithubRelease. intros [H | [H | H]].
  - now rewrite H.
  - rewrite H. now rewrite orb_true_r.
  - destruct (negb _ || negb _); [reflexivity |].
    destruct (readFile dir (version +:+ ".md")); [|reflexivity].
    now rewrite H.
Qed.

Lemma renameDraftFile_readable
  (cfg : Config) (w : World) (newVersion : string) (dir : gmap string fsnode)
  (content : string) :
  readFile dir (draftFileName cfg) = Some content ->
  noObstacle dir (newVersion +:+ ".md") ->
  renameDraftFile cfg w newVersion dir
  = Returned
      (delete (draftFileName cfg)
         (<[newVersion +:+ ".md" := Readable (releaseContent (today w) newVersion content)]>
            dir)).
Proof.
  intros Hread Hfree. unfold renameDraftFile. rewrite Hread.
  rewrite writeFile_noObstacle by assumption. unfold unlink.
  destruct (decide (newVersion +:+ ".md" = draftFileName cfg)) as [E | Hne].
  - rewrite E. now rewrite lookup_insert_eq.
  - rewrite lookup_insert_ne by assumption.
    unfold readFile in Hread.
    destruct (dir !! draftFileName cfg) as [[t|why]|]; try discriminate Hread.
    reflexivity.
Qed.

Lemma renameDraftFile_unreadable
  (cfg : Config) (w : World) (newVersion : string) (dir : gmap string fsnode) :
  readFile dir (draftFileName cfg) = None ->
  renameDraftFile cfg w newVersion dir
  = writeFile dir (newVersion +:+ ".md") (basicContent (today w) newVersion).
Proof. intros Hread. unfold renameDraftFile. now rewrite Hread. Qed.

Lemma startNewDraft_noObstacle
  (cfg : Config) (w : World) (dir : gmap string fsnode) :
  noObstacle dir (draftFileName cfg) ->
  startNewDraft cfg w dir
  = Returned
      (<[draftFileName cfg :=
           Readable (ChangelogManager.draftTemplate
                       (ChangelogManager.getNextVersion dir Patch) (today w))]> dir).
Proof. intros H. unfold startNewDraft. now apply writeFile_noObstacle. Qed.

(** The cut leaves no obstacle at the name of the draft when there was
    none before. *)
Lemma renameDraftFile_noObstacle
  (cfg : Config) (w : World) (newVersion : string) (dir : gmap string fsnode) :
  noObstacle dir (draftFileName cfg) ->
  noObstacle dir (newVersion +:+ ".md") ->
  exists cut,
    renameDraftFile cfg w newVersion dir = Returned cut
    /\ noObstacle cut (draftFileName cfg).
Proof.
  intros Hd Hv. destruct (readFile dir (draftFileName cfg)) as [content|] eqn:Hread.
  - eexists. split; [now apply (renameDraftFile_readable cfg w newVersion dir content) |].
    intros why. now rewrite lookup_delete_eq.
  - eexists. split.
    + rewrite renameDraftFile_unreadable by assumption.
      now apply writeFile_noObstacle.
    + now apply written_noObstacle.
Qed.

(** A release that meets no obstacle and whose host is not asked or
    accepts runs to its end: the cut, then the new draft for the next patch
    version over the directory as the cut left it. *)
Lemma release_completes
  (cfg : Config) (w : World) (bumpType : ReleaseType) (st : State)
  (newVersion : string) :
  versionFiles cfg = false ->
  bumpVersion (getCurrentVersion (manifest st)) bumpType = Some newVersion ->
  noObstacle (changelog st) (draftFileName cfg) ->
  noObstacle (changelog st) (newVersion +:+ ".md") ->
  hostAccepts cfg w ->
  exists cut,
    renameDraftFile cfg w newVersion (changelog st) = Returned cut
    /\ release cfg w bumpType st
       = Released (Some newVersion)
           {| manifest := updatePackageJson (manifest st) (Some newVersion);
              changelog :=
                <[draftFileName cfg :=
                    Readable (ChangelogManager.draftTemplate
                                (ChangelogManager.getNextVersion cut Patch) (today w))]>
                  cut |}.
Proof.
  intros Hvf Hinc Hd Hv Hhost.
  destruct (renameDraftFile_noObstacle cfg w newVersion (changelog st) Hd Hv)
    as (cut & Hcut & Hfree).
  exists cut. split; [exact Hcut |].
  unfold release, updateAdditionalFiles. rewrite Hvf, Hinc.
  cbn [ChangelogManager.render manifest changelog]. rewrite Hcut.
  rewrite (createGithubRelease_accepts cfg w _ _ Hhost).
  now rewrite (startNewDraft_noObstacle cfg w cut Hfree).
Qed.

(** C5, at the failing input.  The draft displays [0.2.0], the manifest
    says [1.0.0], the bump is minor.  Without credentials of a release host
    everything the claim says happens: [1.1.0.md] is written from the draft,
    and the new draft displays [1.1.1].  With credentials and a host that
    answers with an error, the promise that [createGithubRelease] returns is
    rejected past its [catch], [release] throws, and [startNewDraft] never
    runs: [1.1.0.md] is written, the draft is deleted, and there is no new
    draft. *)
Theorem C5_no_new_draft_when_host_rejects :
  (exists st' text,
     release sampleReleaseConfig sampleReleaseWorld Minor sampleState
     = Released (Some "1.1.0") st'
     /\ manifest st' = PackageJson (VersionText "1.1.0") true
     /\ readFile (changelog st') "1.1.0.md"
        = Some (releaseContent "2024-07-04" "1.1.0" sampleDraft)
     /\ readFile (changelog st') "draft.md" = Some text
     /\ split LF text
        = [ "---"; "version: 1.1.1"; "date: 2024-07-04"; "tag: "; "---"; "";
            "# Release 1.1.1"; ""; "## **Unreleased**"; "";
            "<!-- New entries will be added here -->"; ""; "" ])
  /\ (exists st',
        release hostedReleaseConfig sampleReleaseWorld Minor sampleState = Thrown st'
        /\ manifest st' = PackageJson (VersionText "1.1.0") true
        /\ readFile (changelog st') "1.1.0.md"
           = Some (releaseContent "2024-07-04" "1.1.0" sampleDraft)
        /\ changelog st' !! "draft.md" = None).
Proof.
  split.
  - eexists _, _. split; [vm_compute; reflexivity |].
    repeat split; vm_compute; reflexivity.
  - eexists. split; [vm_compute; reflexivity |].
    repeat split; vm_compute; reflexivity.
Qed.

(** The directory of the scenario after the cut holds [1.1.0.md] only, so
    the next patch version is [1.1.1]. *)
Example release_scenario_next_draft :
  ChangelogManager.getNextVersion
    (dirOf (renameDraftFile sampleReleaseConfig sampleReleaseWorld "1.1.0"
              (changelog sampleState))) Patch
  = "1.1.1".
Proof. vm_compute; reflexivity. Qed.

(** A text that does not hold the header followed by a blank line is left
    as it is by the second replacement of [renameDraftFile]. *)
Lemma removeUnreleasedHeader_unchanged (content : string) :
  includes content unreleasedHeader = false ->
  removeUnreleasedHeader content = content.
Proof.
  intros H. unfold removeUnreleasedHeader, replaceFirst.
  apply cut_None_includes in H. now rewrite H.
Qed.

(** On a fresh draft the header line goes away. *)
Example releaseContent_fresh_draft :
  split LF (releaseContent "2024-07-04" "1.1.0" sampleDraft)
  = [ "---"; "version: 1.1.0"; "date: 2024-07-04"; "tag: v1.1.0"; ""; "---"; "";
      "# Release 0.2.0"; ""; "<!-- New entries will be added here -->"; ""; "" ].
Proof. vm_compute; reflexivity. Qed.

(** C8, at the failing input.  The draft holds one entry, added by
    [updateChangelogFile] right under the header.  The release cut sets the
    version, the date and the empty tag of the frontmatter, but the header
    is no longer followed by a blank line, the pattern of the second
    replacement does not match, and the [## **Unreleased**] line stays in
    the released document. *)
Theorem C8_header_survives_release_cut :
  split LF (releaseContent "2024-07-04" "1.1.0" draftWithC)
  = [ "---"; "version: 1.1.0"; "date: 2024-07-04"; "tag: v1.1.0"; ""; "---"; "";
      "# Release 0.2.0"; ""; "## **Unreleased**";
      ChangelogManager.entryLine (rawEntry "C"); "";
      "<!-- New entries will be added here -->"; ""; "" ].
Proof. vm_compute; reflexivity. Qed.

End ReleaseCut.

(** ** The configuration object of the release command *)

Section CliConfig.
Import Cli.

(** C10. When a config file is given by [--config] and loads, every key
    of the file carries its value from the file in the configuration
    object, whatever the command line and the environment say. *)
Theorem C10_file_config_wins
  (o : Options) (e : Env) (files : Files) (path : string)
  (fileConfig : gmap string value) (key : string) (v : value) :
  optConfig o = Some path -> path <> "" ->
  files path = Some fileConfig ->
  fileConfig !! key = Some v ->
  exists cfg, config o e files = Some cfg /\ cfg !! key = Some v.
Proof.
  intros Hopt Hpath Hfile Hkey. exists (spreadConfig o e fileConfig). split.
  - unfold config, loadFileConfig. rewrite Hopt.
    destruct path; [congruence |]. cbn [truthy default]. unfold id.
    now rewrite Hfile.
  - unfold spreadConfig. now apply lookup_union_Some_l.
Qed.

(** [changelogDir] from the file wins over [--dir]. *)
Lemma C10_witness :
  exists cfg,
    config sampleOptions sampleEnv sampleFiles = Some cfg
    /\ cfg !! "changelogDir" = Some (VString "docs/releases").
Proof.
  apply (C10_file_config_wins sampleOptions sampleEnv sampleFiles
           "release.config.json" sampleFileConfig).
  - reflexivity.
  - discriminate.
  - reflexivity.
  - vm_compute; reflexivity.
Defined.

(** A key the file does not have keeps the value written from the options. *)
Lemma spreadConfig_option_kept
  (o : Options) (e : Env) (fileConfig : gmap string value) (key : string) :
  fileConfig !! key = None ->
  spreadConfig o e fileConfig !! key = optionConfig o e !! key.
Proof.
  intros H. unfold spreadConfig. now apply lookup_union_r.
Qed.

(** The token of the file wins over [--github-token] and [GITHUB_TOKEN],
    the directory of the file over [--dir]; the draft file name, which the
    file does not set, is the one of [--file]. *)
Example file_values_win :
  exists cfg,
    config sampleOptions sampleEnv sampleFiles = Some cfg
    /\ cfg !! "githubToken" = Some (VString "token-from-file")
    /\ optionConfig sampleOptions sampleEnv !! "githubToken"
       = Some (VString "token-from-flag")
    /\ cfg !! "changelogDir" = Some (VString "docs/releases")
    /\ cfg !! "draftFileName" = Some (VString "draft.md")
    /\ cfg !! "githubRepository" = Some (VString "owner/from-env").
Proof. eexists. repeat split; vm_compute; reflexivity. Qed.

End CliConfig.

(** ** The model on known values *)

Section KnownValues.
Import Semver ChangelogManager.

(** The test vectors of FIPS 180-4 for one block, no byte and two blocks. *)
Example sha256_abc :
  Sha256.hex "abc"
  = "ba7816bf8f01cfea414140de5dae2223b00361a396177a9cb410ff61f20015ad".
Proof. vm_compute; reflexivity. Qed.

Example sha256_empty :
  Sha256.hex ""
  = "e3b0c44298fc1c149afbf4c8996fb92427ae41e4649b934ca495991b7852b855".
Proof. vm_compute; reflexivity. Qed.

Example sha256_two_blocks :
  Sha256.hex "abcdbcdecdefdefgefghfghighijhijkijkljklmklmnlmnomnopnopq"
  = "248d6a61d20638b8e5c026930c3e6039a33ce45964ff2167f6ecedd419db06c1".
Proof. vm_compute; reflexivity. Qed.

Example createMessageHash_hello : createMessageHash "hello" = "2cf24dba".
Proof. vm_compute; reflexivity. Qed.

Example parse_examples :
  parse "1.2.3" = Some {| major := 1; minor := 2; patch := 3; prerelease := [] |}
  /\ parse "01.2.3" = None
  /\ parse "1.2" = None
  /\ parse "9007199254740992.0.0" = None
  /\ parse " v1.2.3-beta.1+build.5 "
     = Some {| major := 1; minor := 2; patch := 3; prerelease := ["beta"; "1"] |}.
Proof. repeat split; vm_compute; reflexivity. Qed.

Example inc_examples :
  inc "1.0.0" Minor = Some "1.1.0"
  /\ inc "1.2.3" Major = Some "2.0.0"
  /\ inc "1.2.3" Patch = Some "1.2.4"
  /\ inc "1.2.0-beta" Minor = Some "1.2.0"
  /\ inc "not a version" Patch = None.
Proof. repeat split; vm_compute; reflexivity. Qed.

(** With the versions 1.2.3 and 1.3.0 the next patch version is 1.3.1; the
    comparison is numeric: 1.10.0 is above 1.9.0. *)
Example getNextVersion_examples :
  getNextVersion releasedDir Patch = "1.3.1"
  /\ getNextVersion pendingDir Patch = "1.10.1"
  /\ getNextVersion pendingDir Major = "2.0.0"
  /\ getNextVersion ∅ Minor = "0.1.0".
Proof. repeat split; vm_compute; reflexivity. Qed.

(** The four situations of the resolver. *)
Example detectOpenReleaseFile_examples :
  detectOpenReleaseFile sampleConfig ∅ = "draft.md"
  /\ detectOpenReleaseFile sampleConfig
       (<["draft.md" := Readable taggedText]> pendingDir) = "draft.md"
  /\ detectOpenReleaseFile sampleConfig pendingDir = "1.10.0.md"
  /\ detectOpenReleaseFile sampleConfig releasedDir = "draft.md".
Proof. repeat split; vm_compute; reflexivity. Qed.

(** Running the add workflow a second time on the same commits changes
    nothing. *)
Example addToChangelog_twice :
  let w := sampleWorld (Some ("a1b2c3|Fix typo" +:+ nl +:+ "d4e5f6|Add search")) in
  let once := dirOf (addToChangelog sampleConfig w None freshDraftDir) in
  readFile (dirOf (addToChangelog sampleConfig w None once)) "draft.md"
  = readFile once "draft.md"
  /\ readFile once "draft.md" <> readFile freshDraftDir "draft.md".
Proof.
  cbv zeta. split; [vm_compute; reflexivity |].
  intros H. vm_compute in H. discriminate H.
Qed.

End KnownValues.

(** ** The shape of a message hash *)

Section HashShape.
Import Semver ChangelogManager.
Local Open Scope N_scope.

Lemma round_length (st : list N) (kw : N * N) :
  List.length (Sha256.round st kw) = List.length st.
Proof.
  destruct st as [|a [|b [|c [|d [|e [|f [|g [|h [|]]]]]]]]]; reflexivity.
Qed.

Lemma fold_round_length (kws : list (N * N)) (st : list N) :
  List.length (fold_left Sha256.round kws st) = List.length st.
Proof.
  revert st. induction kws as [|kw kws IH]; intros st; [reflexivity |].
  cbn [fold_left]. now rewrite IH, round_length.
Qed.

Lemma compress_length (h block : list N) :
  List.length (Sha256.compress h block) = List.length h.
Proof.
  unfold Sha256.compress. rewrite length_map, length_combine, fold_round_length.
  lia.
Qed.

Lemma digest_length (s : string) : List.length (Sha256.digest s) = 8%nat.
Proof.
  unfold Sha256.digest.
  generalize (Sha256.blocks
                (List.length (Sha256.words (List.length (Sha256.pad (Sha256.bytesOf s)))
                                (Sha256.pad (Sha256.bytesOf s))))
                (Sha256.words (List.length (Sha256.pad (Sha256.bytesOf s)))
                   (Sha256.pad (Sha256.bytesOf s)))).
  intros bl. change 8%nat with (List.length Sha256.H0).
  generalize Sha256.H0. induction bl as [|b bl IH]; intros h; [reflexivity |].
  cbn [fold_left]. now rewrite IH, compress_length.
Qed.

Lemma be_length (n : nat) (x : N) : List.length (Sha256.be n x) = n.
Proof.
  revert x. induction n as [|n IH]; intros x; [reflexivity |].
  cbn [Sha256.be]. rewrite length_app, IH. simpl. lia.
Qed.

Lemma be_bytes (n : nat) (x : N) : Forall (fun b => b < 256) (Sha256.be n x).
Proof.
  revert x. induction n as [|n IH]; intros x; [constructor |].
  cbn [Sha256.be]. apply Forall_app. split; [apply IH |].
  constructor; [|constructor].
  change 255 with (N.ones 8). rewrite N.land_ones. now apply N.mod_lt.
Qed.

Lemma hexDigit_hex (n : N) : n < 16 -> isLowerHex (Sha256.hexDigit n) = true.
Proof.
  intros H.
  assert (Hall : forallb (fun k => isLowerHex (Sha256.hexDigit k))
                   (map N.of_nat (seq 0 16)) = true) by (vm_compute; reflexivity).
  rewrite forallb_forall in Hall. apply Hall.
  apply in_map_iff. exists (N.to_nat n). split; [lia |].
  apply in_seq. lia.
Qed.

Lemma hexByte_hex (b : N) :
  b < 256 -> allChars isLowerHex (Sha256.hexByte b) = true.
Proof.
  intros H. unfold Sha256.hexByte. cbn [allChars].
  rewrite !hexDigit_hex; [reflexivity | |].
  - change 15 with (N.ones 4). rewrite N.land_ones. now apply N.mod_lt.
  - rewrite N.shiftr_div_pow2. change (2 ^ 4) with 16.
    apply N.Div0.div_lt_upper_bound. lia.
Qed.

Lemma concat_hexBytes (bs : list N) :
  Forall (fun b => b < 256) bs ->
  String.length (String.concat "" (map Sha256.hexByte bs)) = (2 * List.length bs)%nat
  /\ allChars isLowerHex (String.concat "" (map Sha256.hexByte bs)) = true.
Proof.
  induction 1 as [|b bs Hb _ [IHlen IHhex]]; [now split |].
  assert (E : String.concat "" (map Sha256.hexByte (b :: bs))
              = Sha256.hexByte b +:+ String.concat "" (map Sha256.hexByte bs)).
  { cbn [map String.concat]. destruct (map Sha256.hexByte bs); [|reflexivity].
    cbn [String.concat]. now rewrite append_nil_r. }
  rewrite E. split.
  - rewrite append_length, IHlen. cbn [List.length]. unfold Sha256.hexByte.
    cbn [String.length]. lia.
  - now rewrite allChars_app, hexByte_hex, IHhex.
Qed.

Lemma flat_map_be_length (ws : list N) :
  List.length (flat_map (Sha256.be 4) ws) = (4 * List.length ws)%nat
  /\ Forall (fun b => b < 256) (flat_map (Sha256.be 4) ws).
Proof.
  induction ws as [|w ws [IHlen IHb]]; [split; [reflexivity | constructor] |].
  cbn [flat_map]. split.
  - rewrite length_app, be_length, IHlen. cbn [List.length]. lia.
  - apply Forall_app. split; [apply be_bytes | assumption].
Qed.

(** [.digest('hex')] is 64 lower-case hexadecimal digits. *)
Lemma hex_shape (s : string) :
  String.length (Sha256.hex s) = 64%nat
  /\ allChars isLowerHex (Sha256.hex s) = true.
Proof.
  unfold Sha256.hex.
  destruct (flat_map_be_length (Sha256.digest s)) as [Hlen Hb].
  destruct (concat_hexBytes _ Hb) as [Hl Hh].
  split; [|assumption]. rewrite Hl, Hlen, digest_length. reflexivity.
Qed.

Lemma take_length (n : nat) (s : string) :
  String.length (take n s) = Nat.min n (String.length s).
Proof.
  revert s. induction n as [|n IH]; intros [|c s]; simpl; try reflexivity.
  now rewrite IH.
Qed.

(* The shape of a message hash. *)
Lemma createMessageHash_hex (message : string) :
  String.length (createMessageHash message) = 8%nat
  /\ allChars isLowerHex (createMessageHash message) = true.
Proof.
  unfold createMessageHash. destruct (hex_shape message) as [Hlen Hhex]. split.
  - rewrite take_length, Hlen. reflexivity.
  - now apply allChars_take.
Qed.

(** X1. Whatever the message, its hash is exactly eight characters, each a
    lower-case hexadecimal digit. *)
Theorem createMessageHash_shape (message : string) :
  String.length (createMessageHash message) = 8%nat
  /\ allChars isLowerHex (createMessageHash message) = true.
Proof. exact (createMessageHash_hex message). Qed.

End HashShape.

(** ** What a merge keeps and what it adds *)

Section MergeKeeps.
Import Semver ChangelogManager.

Lemma mergeEntries_mergedLines (content : string) (newEntries : list Entry) :
  mergeEntries content newEntries = join nl (mergedLines content newEntries).
Proof.
  unfold mergeEntries, mergedLines.
  now destruct (locateUnreleased (split LF content)).
Qed.

Lemma in_splice {A} (i : nat) (items l : list A) (x : A) :
  In x (splice i items l) <-> In x items \/ In x l.
Proof.
  unfold splice. rewrite !in_app_iff.
  rewrite <- (firstn_skipn i l) at 3. rewrite in_app_iff. tauto.
Qed.

Lemma locateUnreleased_keeps (lines : list string) (x : string) :
  In x lines -> In x (fst (locateUnreleased lines)).
Proof.
  intros H. unfold locateUnreleased.
  destruct (findIndex _ lines); [exact H |].
  destruct (findIndex _ lines); cbn [fst].
  - apply in_splice. now right.
  - apply in_app_iff. now left.
Qed.

Lemma in_mergedLines (content : string) (newEntries : list Entry) (x : string) :
  In x (map entryLine newEntries) \/ In x (split LF content) ->
  In x (mergedLines content newEntries).
Proof.
  unfold mergedLines. pose proof (locateUnreleased_keeps (split LF content) x) as Hk.
  destruct (locateUnreleased (split LF content)) as [lines i]. cbn [fst] in Hk.
  intros [H | H]; apply in_splice; [now left | right; now apply Hk].
Qed.

Lemma join_member (lines : list string) (line : string) :
  In line lines -> exists x y, join nl lines = x +:+ line +:+ y.
Proof.
  induction lines as [|l ls IH]; [intros [] |].
  intros [<- | H].
  - destruct ls as [|l' ls].
    + exists "", "". cbn. now rewrite append_nil_r.
    + exists "", (nl +:+ join nl (l' :: ls)). reflexivity.
  - destruct (IH H) as (x & y & E). destruct ls as [|l' ls]; [destruct H |].
    exists (l +:+ nl +:+ x), y.
    change (join nl (l :: l' :: ls)) with (l +:+ nl +:+ join nl (l' :: ls)).
    rewrite E. now rewrite !append_assoc.
Qed.

(** What one of the lines holds, the joined text holds. *)
Lemma includes_join (lines : list string) (line m : string) :
  In line lines -> includes line m = true -> includes (join nl lines) m = true.
Proof.
  intros Hin Hm. apply includes_iff in Hm as (a & b & ->).
  destruct (join_member lines _ Hin) as (x & y & E).
  apply includes_iff. exists (x +:+ a), (b +:+ y).
  rewrite E. now rewrite !append_assoc.
Qed.

Lemma startsWith_first_line (s m : string) :
  oneLine m -> startsWith s m = true ->
  exists l ls, split LF s = l :: ls /\ startsWith l m = true.
Proof.
  revert s. induction m as [|d m IH]; intros s Hone Hs.
  - pose proof (split_nonempty LF s). destruct (split LF s) as [|l ls]; [congruence |].
    now exists l, ls.
  - destruct s as [|c s]; [discriminate |].
    cbn [startsWith] in Hs. apply andb_true_iff in Hs as [Hc Hs].
    apply Ascii.eqb_eq in Hc. subst c.
    apply oneLine_cons in Hone as [Hd Hm].
    destruct (IH s Hm Hs) as (l & ls & E & Hl).
    rewrite split_cons_other, E by assumption.
    exists (String d l), ls. split; [reflexivity |].
    cbn [startsWith]. now rewrite Ascii.eqb_refl.
Qed.

(** What the text holds on one line, one of its lines holds. *)
Lemma includes_some_line (content m : string) :
  oneLine m -> includes content m = true ->
  exists line, In line (split LF content) /\ includes line m = true.
Proof.
  intros Hone. induction content as [|c s IH]; intros H.
  - exists "". split; [now left | exact H].
  - cbn [includes] in H. apply orb_true_iff in H as [H | H].
    + destruct (startsWith_first_line _ _ Hone H) as (l & ls & E & Hl).
      exists l. rewrite E. split; [now left | now apply includes_prefix].
    + destruct (IH H) as (line & Hin & Hline).
      cbn [split]. destruct (Ascii.eqb c LF).
      * exists line. split; [now right | assumption].
      * destruct (split LF s) as [|l ls]; [destruct Hin |].
        destruct Hin as [<- | Hin].
        -- exists (String c l). split; [now left |].
           cbn [includes]. rewrite Hline. apply orb_true_r.
        -- exists line. split; [now right | assumption].
Qed.

(** A text on one line that the document holds is still there after a
    merge. *)
Lemma mergeEntries_keeps (content m : string) (newEntries : list Entry) :
  oneLine m -> includes content m = true ->
  includes (mergeEntries content newEntries) m = true.
Proof.
  intros Hone H. destruct (includes_some_line content m Hone H) as (line & Hin & Hl).
  rewrite mergeEntries_mergedLines. apply (includes_join _ line); [|assumption].
  apply in_mergedLines. now right.
Qed.

Lemma entryLine_marker (e : Entry) :
  includes (entryLine e) (hashMarker (createMessageHash (entryMessage e))) = true.
Proof.
  apply includes_iff. exists (polished e +:+ " "), "". unfold entryLine.
  now rewrite append_nil_r, append_assoc.
Qed.

Lemma mergeEntries_adds (content : string) (newEntries : list Entry) (e : Entry) :
  In e newEntries ->
  includes (mergeEntries content newEntries)
    (hashMarker (createMessageHash (entryMessage e))) = true.
Proof.
  intros Hin. rewrite mergeEntries_mergedLines.
  apply (includes_join _ (entryLine e)); [|apply entryLine_marker].
  apply in_mergedLines. left. now apply in_map.
Qed.

Lemma allChars_oneLine (s : string) : allChars notLF s = true -> oneLine s.
Proof.
  intros H. unfold oneLine, nl. apply cut_None_includes.
  now apply (cut_None_allChars notLF).
Qed.

(** The marker of a message hash holds no line feed. *)
Lemma hashMarker_oneLine (message : string) :
  oneLine (hashMarker (createMessageHash message)).
Proof.
  apply allChars_oneLine. unfold hashMarker. rewrite !allChars_app.
  destruct (createMessageHash_hex message) as [_ Hhex].
  assert (Hh : allChars notLF (createMessageHash message) = true).
  { apply (allChars_weaken isLowerHex); [|exact Hhex].
    intros c Hc. unfold notLF. destruct (Ascii.eqb c LF) eqn:E; [|reflexivity].
    apply Ascii.eqb_eq in E. subst c. discriminate Hc. }
  now rewrite Hh.
Qed.

(** On a name without obstacle [updateChangelogFile] writes the merge into
    the starting text; on an obstacle it throws and leaves the directory as
    it is. *)
Lemma updateChangelogFile_result
  (w : World) (dir : gmap string fsnode) (filePath : string) (newEntries : list Entry) :
  noObstacle dir filePath ->
  updateChangelogFile w dir filePath newEntries
  = Returned
      (<[filePath := Readable (mergeEntries (startingText w dir filePath) newEntries)]> dir).
Proof.
  intros Hfree. unfold updateChangelogFile, startingText.
  destruct (readFile dir filePath) as [content|] eqn:Hread.
  - rewrite Hread. now apply writeFile_noObstacle.
  - unfold createUnreleasedFile. rewrite writeFile_noObstacle by assumption.
    rewrite readFile_writeFile. rewrite writeFile_noObstacle.
    + now rewrite insert_insert_eq.
    + now apply written_noObstacle.
Qed.

Lemma updateChangelogFile_obstacle
  (w : World) (dir : gmap string fsnode) (filePath : string) (newEntries : list Entry)
  (why : Obstacle) :
  dir !! filePath = Some (Unreadable why) ->
  updateChangelogFile w dir filePath newEntries = Threw dir.
Proof.
  intros H. unfold updateChangelogFile, createUnreleasedFile, writeFile, readFile.
  rewrite H. destruct why; try reflexivity. now rewrite H.
Qed.

Lemma obstacle_or_not (dir : gmap string fsnode) (path : string) :
  noObstacle dir path \/ exists why, dir !! path = Some (Unreadable why).
Proof.
  unfold noObstacle. destruct (dir !! path) as [[t|why]|].
  - left. discriminate.
  - right. now exists why.
  - left. discriminate.
Qed.

End MergeKeeps.

(** ** Adding twice, and what is pending *)

Section Ledger.
Import Semver ChangelogManager.

(* The entries just written are found by their hash. *)
Lemma written_entries_known
  (w : World) (dir dir' : gmap string fsnode) (filePath : string)
  (newEntries : list Entry) :
  updateChangelogFile w dir filePath newEntries = Returned dir' ->
  Forall
    (fun e =>
       isMessageAlreadyInChangelog dir' filePath (createMessageHash (entryMessage e))
       = true)
    newEntries.
Proof.
  intros Hrun. destruct (obstacle_or_not dir filePath) as [Hfree | [why Hwhy]].
  - rewrite updateChangelogFile_result in Hrun by assumption. injection Hrun as <-.
    apply List.Forall_forall. intros e He.
    unfold isMessageAlreadyInChangelog, readFile.
    rewrite lookup_insert_eq. now apply mergeEntries_adds.
  - rewrite (updateChangelogFile_obstacle _ _ _ _ why Hwhy) in Hrun. discriminate Hrun.
Qed.

(** X2. Insert, then look up: on a name that is free or a file that can be
    read and written, with or without section header, [updateChangelogFile]
    returns, and the hash of every entry it was given is then found in the
    file by [isMessageAlreadyInChangelog]. *)
Theorem updateChangelogFile_then_known
  (w : World) (dir : gmap string fsnode) (filePath : string) (newEntries : list Entry) :
  noObstacle dir filePath ->
  exists dir',
    updateChangelogFile w dir filePath newEntries = Returned dir'
    /\ Forall
         (fun e =>
            isMessageAlreadyInChangelog dir' filePath
              (createMessageHash (entryMessage e)) = true)
         newEntries.
Proof.
  intros Hfree. eexists. split.
  - now apply updateChangelogFile_result.
  - apply (written_entries_known w dir _ filePath).
    now apply updateChangelogFile_result.
Qed.

(** Two entries go into a directory that has no draft yet. *)
Lemma updateChangelogFile_then_known_witness :
  exists dir',
    updateChangelogFile (sampleWorld None) releasedDir "draft.md"
      [rawEntry "A"; rawEntry "B"] = Returned dir'
    /\ Forall
         (fun e =>
            isMessageAlreadyInChangelog dir' "draft.md"
              (createMessageHash (entryMessage e)) = true)
         [rawEntry "A"; rawEntry "B"].
Proof.
  apply (updateChangelogFile_then_known (sampleWorld None) releasedDir "draft.md"
           [rawEntry "A"; rawEntry "B"]).
  intros why H. vm_compute in H. discriminate H.
Defined.

(** What [addToChangelog] does: nothing, or one [updateChangelogFile] on
    the open release file. *)
Lemma addToChangelog_shape
  (cfg : Config) (w : World) (customMessage : option string) (dir : gmap string fsnode) :
  addToChangelog cfg w customMessage dir = Returned dir
  \/ exists es, addToChangelog cfg w customMessage dir
                = updateChangelogFile w dir (detectOpenReleaseFile cfg dir) es.
Proof.
  unfold addToChangelog. destruct (truthy customMessage).
  - destruct (isMessageAlreadyInChangelog _ _ _); [now left | right; eauto].
  - destruct (List.filter _ _); [now left | right; eauto].
Qed.

(** X3. [addToChangelog] writes to the open release file and to nothing
    else: every other name of the directory keeps its file, and no name is
    removed. *)
Theorem addToChangelog_frame
  (cfg : Config) (w : World) (customMessage : option string)
  (dir : gmap string fsnode) (path : string) :
  path <> detectOpenReleaseFile cfg dir ->
  dirOf (addToChangelog cfg w customMessage dir) !! path = dir !! path
  /\ forall p, is_Some (dir !! p) ->
       is_Some (dirOf (addToChangelog cfg w customMessage dir) !! p).
Proof.
  intros Hpath.
  destruct (addToChangelog_shape cfg w customMessage dir) as [-> | [es ->]];
    [now split |].
  destruct (obstacle_or_not dir (detectOpenReleaseFile cfg dir))
    as [Hfree | [why Hwhy]].
  - rewrite updateChangelogFile_result by assumption. cbn [dirOf]. split.
    + now rewrite lookup_insert_ne by congruence.
    + intros p Hp.
      destruct (decide (detectOpenReleaseFile cfg dir = p)) as [<- | Hne].
      * rewrite lookup_insert_eq. eauto.
      * now rewrite lookup_insert_ne.
  - rewrite (updateChangelogFile_obstacle _ _ _ _ why Hwhy). now split.
Qed.

(** The tagged release next to the open version file stays as it is. *)
Lemma addToChangelog_frame_witness :
  dirOf (addToChangelog sampleConfig (sampleWorld None) (Some "hello") pendingDir)
    !! "1.9.0.md"
  = pendingDir !! "1.9.0.md"
  /\ forall p, is_Some (pendingDir !! p) ->
       is_Some (dirOf (addToChangelog sampleConfig (sampleWorld None) (Some "hello")
                         pendingDir) !! p).
Proof.
  apply (addToChangelog_frame sampleConfig (sampleWorld None) (Some "hello")
           pendingDir "1.9.0.md").
  intros H; vm_compute in H; discriminate H.
Defined.

Lemma entriesOf_messages (polishedLines : list string) (index : nat) (commits : list Commit) :
  map entryMessage (entriesOf polishedLines index commits) = map message commits.
Proof.
  revert index. induction commits as [|c cs IH]; intros index; [reflexivity |].
  cbn [entriesOf map entryMessage]. now rewrite IH.
Qed.

Lemma access_written (dir : gmap string fsnode) (path text : string) :
  access (<[path := Readable text]> dir) path = true.
Proof. unfold access. now rewrite lookup_insert_eq. Qed.

Lemma detect_after_update
  (cfg : Config) (w : World) (dir dir' : gmap string fsnode) (es : list Entry) :
  updateChangelogFile w dir (draftFileName cfg) es = Returned dir' ->
  detectOpenReleaseFile cfg dir' = draftFileName cfg.
Proof.
  intros Hrun.
  destruct (obstacle_or_not dir (draftFileName cfg)) as [Hfree | [why Hwhy]].
  - rewrite updateChangelogFile_result in Hrun by assumption. injection Hrun as <-.
    unfold detectOpenReleaseFile. now rewrite access_written.
  - rewrite (updateChangelogFile_obstacle _ _ _ _ why Hwhy) in Hrun. discriminate Hrun.
Qed.

Lemma known_after_update
  (w : World) (dir dir' : gmap string fsnode) (filePath : string) (es : list Entry)
  (msg : string) :
  updateChangelogFile w dir filePath es = Returned dir' ->
  isMessageAlreadyInChangelog dir filePath (createMessageHash msg) = true ->
  isMessageAlreadyInChangelog dir' filePath (createMessageHash msg) = true.
Proof.
  intros Hrun.
  destruct (obstacle_or_not dir filePath) as [Hfree | [why Hwhy]].
  - rewrite updateChangelogFile_result in Hrun by assumption. injection Hrun as <-.
    unfold isMessageAlreadyInChangelog, startingText, readFile at 2.
    rewrite lookup_insert_eq.
    destruct (readFile dir filePath) as [content|]; [|discriminate].
    apply mergeEntries_keeps, hashMarker_oneLine.
  - rewrite (updateChangelogFile_obstacle _ _ _ _ why Hwhy) in Hrun. discriminate Hrun.
Qed.

(** After an add that returned, on the draft as open document, the custom
    message, or every commit of the log, is known to the draft, which is
    the open document still. *)
Lemma recorded_after_add
  (cfg : Config) (w : World) (customMessage : option string)
  (dir dir' : gmap string fsnode) :
  addToChangelog cfg w customMessage dir = Returned dir' ->
  let releaseFile := detectOpenReleaseFile cfg dir in
  if truthy customMessage
  then isMessageAlreadyInChangelog dir' releaseFile
         (createMessageHash (default "" customMessage)) = true
  else Forall
         (fun c => isMessageAlreadyInChangelog dir' releaseFile
                     (createMessageHash (message c)) = true)
         (getNewCommits w).
Proof.
  cbv zeta. unfold addToChangelog.
  destruct (truthy customMessage) eqn:Hcustom.
  - destruct (isMessageAlreadyInChangelog dir (detectOpenReleaseFile cfg dir) _)
      eqn:Hknown.
    + intros [= <-]. exact Hknown.
    + intros Hrun. pose proof (written_entries_known _ _ _ _ _ Hrun) as H.
      now inversion H.
  - set (releaseFile := detectOpenReleaseFile cfg dir).
    set (fresh := List.filter
                    (fun c => negb (isMessageAlreadyInChangelog dir releaseFile
                                      (createMessageHash (message c))))
                    (getNewCommits w)).
    intros Hrun. apply List.Forall_forall. intros c Hc.
    destruct (isMessageAlreadyInChangelog dir releaseFile
                (createMessageHash (message c))) eqn:E.
    + destruct fresh; [now injection Hrun as <- |].
      now apply (known_after_update _ _ _ _ _ _ Hrun).
    + assert (Hin : In c fresh) by (apply filter_In; now rewrite E).
      destruct fresh as [|c0 cs] eqn:Hfresh; [destruct Hin |].
      rewrite <- Hfresh in *.
      set (es := entriesOf _ 0 fresh) in Hrun.
      assert (He : exists e, In e es /\ entryMessage e = message c).
      { apply (in_map message) in Hin. unfold es.
        rewrite <- (entriesOf_messages
                      (polishCommitMessages cfg w (map message fresh)) 0 fresh) in Hin.
        apply in_map_iff in Hin as (e & He & Hine). now exists e. }
      destruct He as (e & Hine & <-).
      pose proof (written_entries_known _ _ _ _ _ Hrun) as H.
      rewrite List.Forall_forall in H. now apply H.
Qed.

Lemma open_after_add
  (cfg : Config) (w : World) (customMessage : option string)
  (dir dir' : gmap string fsnode) :
  detectOpenReleaseFile cfg dir = draftFileName cfg ->
  addToChangelog cfg w customMessage dir = Returned dir' ->
  detectOpenReleaseFile cfg dir' = draftFileName cfg.
Proof.
  intros Hopen Hrun.
  destruct (addToChangelog_shape cfg w customMessage dir) as [E | [es E]];
    rewrite E in Hrun.
  - now injection Hrun as <-.
  - rewrite Hopen in Hrun. now apply (detect_after_update cfg w dir dir' es).
Qed.

(** An add that throws leaves the directory as it is. *)
Lemma addToChangelog_threw
  (cfg : Config) (w : World) (customMessage : option string)
  (dir dir' : gmap string fsnode) :
  addToChangelog cfg w customMessage dir = Threw dir' ->
  dir' = dir /\ ~ noObstacle dir (detectOpenReleaseFile cfg dir).
Proof.
  intros Hrun.
  destruct (addToChangelog_shape cfg w customMessage dir) as [E | [es E]];
    rewrite E in Hrun; [discriminate Hrun |].
  destruct (obstacle_or_not dir (detectOpenReleaseFile cfg dir))
    as [Hfree | [why Hwhy]].
  - rewrite updateChangelogFile_result in Hrun by assumption. discriminate Hrun.
  - rewrite (updateChangelogFile_obstacle _ _ _ _ why Hwhy) in Hrun.
    injection Hrun as <-. split; [reflexivity |]. intros H. now apply (H why).
Qed.

(* A second run on the draft finds every message. *)
Lemma addToChangelog_again
  (cfg : Config) (w : World) (customMessage : option string) (dir : gmap string fsnode) :
  detectOpenReleaseFile cfg dir = draftFileName cfg ->
  addToChangelog cfg w customMessage (dirOf (addToChangelog cfg w customMessage dir))
  = addToChangelog cfg w customMessage dir.
Proof.
  intros Hopen.
  destruct (addToChangelog cfg w customMessage dir) as [dir'|dir'] eqn:Hrun.
  - cbn [dirOf].
    pose proof (recorded_after_add cfg w customMessage dir dir' Hrun) as Hrec.
    cbv zeta in Hrec. rewrite Hopen in Hrec.
    pose proof (open_after_add cfg w customMessage dir dir' Hopen Hrun) as Hopen'.
    destruct (truthy customMessage) eqn:Hcustom.
    + destruct customMessage as [[|c msg]|]; try discriminate Hcustom.
      apply addToChangelog_known_message; [discriminate |]. now rewrite Hopen'.
    + assert (Hsame : addToChangelog cfg w customMessage dir'
                      = addToChangelog cfg w None dir')
        by (destruct customMessage as [[|]|]; try discriminate Hcustom; reflexivity).
      rewrite Hsame. apply addToChangelog_known_commits. now rewrite Hopen'.
  - cbn [dirOf]. apply addToChangelog_threw in Hrun as Hsame.
    destruct Hsame as [-> _]. exact Hrun.
Qed.

(** X4. Idempotent ingestion.  When the open document is the draft, running
    [addToChangelog] a second time with the same commits (or the same custom
    message) changes nothing: whatever the provider answered the first time,
    every message is then found by its hash. *)
Theorem addToChangelog_idempotent
  (cfg : Config) (w : World) (customMessage : option string) (dir : gmap string fsnode) :
  detectOpenReleaseFile cfg dir = draftFileName cfg ->
  addToChangelog cfg w customMessage (dirOf (addToChangelog cfg w customMessage dir))
  = addToChangelog cfg w customMessage dir.
Proof. exact (addToChangelog_again cfg w customMessage dir). Qed.

(** Two commits are added to a fresh draft, twice. *)
Lemma addToChangelog_idempotent_witness :
  addToChangelog sampleConfig (sampleWorld (Some twoCommitsLog)) None
    (dirOf (addToChangelog sampleConfig (sampleWorld (Some twoCommitsLog)) None
              freshDraftDir))
  = addToChangelog sampleConfig (sampleWorld (Some twoCommitsLog)) None freshDraftDir.
Proof.
  apply (addToChangelog_idempotent sampleConfig (sampleWorld (Some twoCommitsLog))
           None freshDraftDir).
  vm_compute; reflexivity.
Defined.

End Ledger.

Section Pending.
Import Semver ChangelogManager.

Lemma weight_cons (l : string) (ls : list string) :
  weight (l :: ls) = S (String.length l + weight ls).
Proof. reflexivity. Qed.

Lemma weight_app (a b : list string) : weight (a ++ b) = (weight a + weight b)%nat.
Proof.
  induction a as [|l a IH]; [reflexivity |].
  change ((l :: a) ++ b) with (l :: (a ++ b)). rewrite !weight_cons, IH. lia.
Qed.

Lemma weight_join (lines : list string) :
  lines <> [] -> S (String.length (join nl lines)) = weight lines.
Proof.
  induction lines as [|l ls IH]; [congruence |]. intros _.
  destruct ls as [|l' ls].
  - cbn. lia.
  - change (join nl (l :: l' :: ls)) with (l +:+ nl +:+ join nl (l' :: ls)).
    rewrite !append_length. rewrite (weight_cons l).
    rewrite <- IH by discriminate. change (String.length nl) with 1%nat. lia.
Qed.

Lemma weight_splice (i : nat) (items l : list string) :
  weight (splice i items l) = (weight items + weight l)%nat.
Proof.
  unfold splice. rewrite !weight_app.
  rewrite <- (firstn_skipn i l) at 3. rewrite weight_app. lia.
Qed.

Lemma weight_locate (lines : list string) :
  (weight lines <= weight (fst (locateUnreleased lines)))%nat
  /\ (lines <> [] -> fst (locateUnreleased lines) <> []).
Proof.
  unfold locateUnreleased.
  destruct (findIndex _ lines); [now split |].
  destruct (findIndex _ lines); cbn [fst].
  - split; [rewrite weight_splice; lia |].
    intros Hne E. apply (f_equal weight) in E. rewrite weight_splice in E.
    destruct lines; [congruence | cbn in E; lia].
  - split; [rewrite weight_app; lia |].
    intros _ E. now destruct lines.
Qed.

(** A merge of at least one entry makes the text longer. *)
Lemma mergeEntries_longer (content : string) (e : Entry) (es : list Entry) :
  (String.length content < String.length (mergeEntries content (e :: es)))%nat.
Proof.
  rewrite mergeEntries_mergedLines.
  pose proof (split_nonempty LF content) as Hne.
  pose proof (weight_join (split LF content) Hne) as Hw. rewrite join_split in Hw.
  assert (Hm : mergedLines content (e :: es) <> []
               /\ (weight (split LF content) < weight (mergedLines content (e :: es)))%nat).
  { unfold mergedLines. destruct (weight_locate (split LF content)) as [Hle Hnn].
    destruct (locateUnreleased (split LF content)) as [lines i]. cbn [fst] in *.
    split.
    - intros E. apply (f_equal weight) in E. rewrite weight_splice in E.
      cbn in E. lia.
    - rewrite weight_splice. cbn [map weight fold_right]. lia. }
  destruct Hm as [Hnn Hlt]. pose proof (weight_join _ Hnn). lia.
Qed.

Lemma updateChangelogFile_changes
  (w : World) (dir : gmap string fsnode) (filePath : string) (e : Entry) (es : list Entry) :
  updateChangelogFile w dir filePath (e :: es) <> Returned dir.
Proof.
  destruct (obstacle_or_not dir filePath) as [Hfree | [why Hwhy]].
  - rewrite updateChangelogFile_result by assumption. intros E. injection E as E.
    apply (f_equal (fun d => readFile d filePath)) in E.
    unfold readFile at 1 in E. rewrite lookup_insert_eq in E.
    unfold startingText in E.
    destruct (readFile dir filePath) as [content|]; [|discriminate].
    injection E as E. pose proof (mergeEntries_longer content e es) as H.
    rewrite E in H. lia.
  - now rewrite (updateChangelogFile_obstacle _ _ _ _ why Hwhy).
Qed.

(* Nothing pending means nothing to add. *)
Lemma hasPendingCommits_false_iff
  (cfg : Config) (w : World) (dir : gmap string fsnode) :
  hasPendingCommits cfg w dir = false <-> addToChangelog cfg w None dir = Returned dir.
Proof.
  unfold hasPendingCommits, addToChangelog. cbn [truthy].
  set (unknown := fun c => negb (isMessageAlreadyInChangelog dir
                                  (detectOpenReleaseFile cfg dir)
                                  (createMessageHash (message c)))).
  assert (Hfilter : existsb unknown (getNewCommits w) = false
                    <-> List.filter unknown (getNewCommits w) = []).
  { induction (getNewCommits w) as [|c cs IH]; [now split |].
    cbn [existsb List.filter]. destruct (unknown c); cbn [orb].
    - split; discriminate.
    - exact IH. }
  assert (Hex : match getNewCommits w with
                | [] => false
                | _ :: _ => existsb unknown (getNewCommits w)
                end = existsb unknown (getNewCommits w))
    by now destruct (getNewCommits w).
  rewrite Hex, Hfilter. clear Hex Hfilter.
  destruct (List.filter unknown (getNewCommits w)) as [|c cs] eqn:E.
  - now split.
  - split; [discriminate |]. intros H. exfalso.
    cbn [entriesOf] in H. now apply updateChangelogFile_changes in H.
Qed.


(* After an add that returned on the draft, nothing is pending. *)
Lemma settled_after_add
  (cfg : Config) (w : World) (dir dir' : gmap string fsnode) :
  detectOpenReleaseFile cfg dir = draftFileName cfg ->
  addToChangelog cfg w None dir = Returned dir' ->
  hasPendingCommits cfg w dir' = false.
Proof.
  intros Hopen Hrun. apply hasPendingCommits_false_iff.
  pose proof (addToChangelog_again cfg w None dir Hopen) as H.
  rewrite Hrun in H. exact H.
Qed.

(* On a draft without obstacle the add returns. *)
Lemma addToChangelog_returns
  (cfg : Config) (w : World) (customMessage : option string) (dir : gmap string fsnode) :
  noObstacle dir (detectOpenReleaseFile cfg dir) ->
  exists dir', addToChangelog cfg w customMessage dir = Returned dir'.
Proof.
  intros Hfree.
  destruct (addToChangelog_shape cfg w customMessage dir) as [-> | [es ->]];
    [now exists dir |].
  rewrite updateChangelogFile_result by assumption. eauto.
Qed.

(** X6. With the draft as open document, free or a file that can be read
    and written, [addToChangelog] on the commits returns, and no commit is
    pending afterwards. *)
Theorem nothing_pending_after_add
  (cfg : Config) (w : World) (dir : gmap string fsnode) :
  detectOpenReleaseFile cfg dir = draftFileName cfg ->
  noObstacle dir (draftFileName cfg) ->
  exists dir',
    addToChangelog cfg w None dir = Returned dir'
    /\ hasPendingCommits cfg w dir' = false.
Proof.
  intros Hopen Hfree.
  destruct (addToChangelog_returns cfg w None dir) as [dir' Hrun];
    [now rewrite Hopen |].
  exists dir'. split; [exact Hrun |].
  now apply (settled_after_add cfg w dir dir').
Qed.

(** Two commits are pending on a fresh draft, none after the add. *)
Lemma nothing_pending_after_add_witness :
  exists dir',
    addToChangelog sampleConfig (sampleWorld (Some twoCommitsLog)) None freshDraftDir
    = Returned dir'
    /\ hasPendingCommits sampleConfig (sampleWorld (Some twoCommitsLog)) dir' = false.
Proof.
  apply (nothing_pending_after_add sampleConfig (sampleWorld (Some twoCommitsLog))
           freshDraftDir).
  - vm_compute; reflexivity.
  - intros why H. vm_compute in H. discriminate H.
Defined.

End Pending.

(** ** The structure of a merged document *)

Section MergeStructure.
Import Semver ChangelogManager.

Lemma splice_sublist {A} (i : nat) (items l : list A) :
  l `sublist_of` splice i items l /\ items `sublist_of` splice i items l.
Proof.
  unfold splice. split.
  - rewrite <- (firstn_skipn i l) at 1.
    apply sublist_app; [reflexivity |]. now apply sublist_inserts_l.
  - apply sublist_inserts_l. now apply sublist_inserts_r.
Qed.

Lemma locateUnreleased_shape (lines : list string) :
  lines `sublist_of` fst (locateUnreleased lines)
  /\ (List.length (fst (locateUnreleased lines)) <= List.length lines + 3)%nat
  /\ (Forall oneLine lines -> Forall oneLine (fst (locateUnreleased lines))).
Proof.
  assert (Hhdr : Forall oneLine [""; "## **Unreleased**"; ""])
    by (repeat constructor).
  unfold locateUnreleased.
  destruct (findIndex _ lines); [cbn [fst]; split; [reflexivity | split; [lia | tauto]] |].
  destruct (findIndex _ lines) as [j|]; cbn [fst].
  - split; [apply splice_sublist |]. split.
    + unfold splice. rewrite !length_app, length_firstn, length_skipn.
      cbn [List.length]. lia.
    + intros Hl. unfold splice. apply Forall_app. split.
      * now apply Forall_take.
      * apply Forall_app. split; [assumption | now apply Forall_drop].
  - split; [now apply sublist_inserts_r |]. split.
    + rewrite length_app. cbn [List.length]. lia.
    + intros Hl. apply Forall_app. now split.
Qed.

(** X7. A merge never drops or reorders what the document held: the merged
    text is the join of a list of lines of which the lines of the document
    are a sublist, in their order, and so are the new entry lines; at most
    three other lines (the section header and its blank lines) are added.
    When no entry line holds a line feed, these are exactly the lines of the
    merged text. *)
Theorem mergeEntries_keeps_every_line (content : string) (newEntries : list Entry) :
  exists lines',
    mergeEntries content newEntries = join nl lines'
    /\ split LF content `sublist_of` lines'
    /\ map entryLine newEntries `sublist_of` lines'
    /\ (List.length lines'
        <= List.length (split LF content) + List.length newEntries + 3)%nat
    /\ (Forall oneLine (map entryLine newEntries) ->
        split LF (mergeEntries content newEntries) = lines').
Proof.
  exists (mergedLines content newEntries).
  split; [apply mergeEntries_mergedLines |].
  rewrite mergeEntries_mergedLines. unfold mergedLines.
  destruct (locateUnreleased_shape (split LF content)) as (Hsub & Hlen & Hone).
  destruct (locateUnreleased (split LF content)) as [lines i]. cbn [fst] in *.
  destruct (splice_sublist (i + 1) (map entryLine newEntries) lines) as [Hl Hi].
  split; [now transitivity lines |]. split; [assumption |]. split.
  - unfold splice. rewrite !length_app, length_firstn, length_skipn, length_map. lia.
  - intros Hnew. apply split_join.
    + intros E. apply sublist_length in Hl. rewrite E in Hl.
      apply sublist_length in Hsub.
      pose proof (split_nonempty LF content). destruct (split LF content);
        [congruence | cbn in *; lia].
    + unfold splice. apply Forall_app. split.
      * apply Forall_take, Hone, split_lines_oneLine.
      * apply Forall_app. split; [assumption |].
        apply Forall_drop, Hone, split_lines_oneLine.
Qed.

Lemma findIndex_Some {A} (p : A -> bool) (l : list A) (i : nat) :
  findIndex p l = Some i ->
  exists pre x post,
    l = pre ++ x :: post /\ List.length pre = i
    /\ Forall (fun y => p y = false) pre /\ p x = true.
Proof.
  revert i. induction l as [|y l IH]; intros i; [discriminate |].
  cbn [findIndex]. destruct (p y) eqn:Hy.
  - intros [= <-]. exists [], y, l. repeat split; [constructor | assumption].
  - destruct (findIndex p l) as [j|]; [|discriminate].
    intros [= <-]. destruct (IH j eq_refl) as (pre & x & post & -> & <- & Hpre & Hx).
    exists (y :: pre), x, post. repeat split; [now constructor | assumption].
Qed.

Lemma findIndex_exists {A} (p : A -> bool) (l : list A) (x : A) :
  In x l -> p x = true -> exists i, findIndex p l = Some i.
Proof.
  induction l as [|y l IH]; [intros [] |].
  intros Hin Hx. cbn [findIndex]. destruct (p y) eqn:Hy; [eauto |].
  destruct Hin as [-> | Hin]; [congruence |].
  destruct (IH Hin Hx) as [i ->]. eauto.
Qed.

(** X8. Two merges in a row are one merge of both batches, the later batch
    on top, when the document has a section header or a title line and the
    lines of the first batch hold no line feed. *)
Theorem mergeEntries_twice (content : string) (first second : list Entry) :
  (exists line, In line (split LF content)
                /\ (includes line "**Unreleased**" = true
                    \/ startsWith line "# Release" = true)) ->
  Forall oneLine (map entryLine first) ->
  mergeEntries (mergeEntries content first) second
  = mergeEntries content (second ++ first).
Proof.
  intros (line & Hin & Hline) Hfirst.
  pose proof (split_lines_oneLine content) as Hlines.
  destruct (findIndex (fun l => includes l "**Unreleased**") (split LF content))
    as [i|] eqn:Ehdr.
  - apply findIndex_Some in Ehdr as (pre & header & post & Hsplit & _ & Hpre & Hhdr).
    rewrite (mergeEntries_header content pre post header first Hsplit Hpre Hhdr).
    rewrite (mergeEntries_header content pre post header (second ++ first)
               Hsplit Hpre Hhdr).
    rewrite Hsplit in Hlines. apply Forall_app in Hlines as [Hp Hrest].
    inversion Hrest; subst.
    rewrite (mergeEntries_header _ pre (map entryLine first ++ post) header second);
      try assumption.
    + now rewrite map_app, <- app_assoc.
    + apply split_join; [now destruct pre |].
      apply Forall_app. split; [assumption |]. constructor; [assumption |].
      apply Forall_app. now split.
  - destruct Hline as [Hline | Hline].
    { destruct (findIndex_exists (fun l => includes l "**Unreleased**") _ line
                  Hin Hline) as [i Hi]. congruence. }
    assert (Hno : Forall noUnreleased (split LF content)).
    { clear -Ehdr. induction (split LF content) as [|l ls IH]; [constructor |].
      cbn [findIndex] in Ehdr. destruct (includes l "**Unreleased**") eqn:E;
        [discriminate |].
      constructor; [exact E |]. apply IH.
      now destruct (findIndex _ ls). }
    destruct (findIndex_exists (fun l => startsWith l "# Release") _ line Hin Hline)
      as [j Hj].
    apply findIndex_Some in Hj as (pre & title & post & Hsplit & _ & Hpre & Htitle).
    rewrite Hsplit in Hno.
    rewrite (mergeEntries_title content pre post title first Hsplit Hno Hpre Htitle).
    rewrite (mergeEntries_title content pre post title (second ++ first)
               Hsplit Hno Hpre Htitle).
    rewrite Hsplit in Hlines. apply Forall_app in Hlines as [Hp Hrest].
    inversion Hrest; subst.
    apply Forall_app in Hno as [Hnopre Hnorest]. inversion Hnorest; subst.
    rewrite (mergeEntries_header _ (pre ++ [title; ""])
               (map entryLine first ++ "" :: post) "## **Unreleased**" second).
    + rewrite map_app, <- !app_assoc. reflexivity.
    + rewrite <- app_assoc. apply split_join; [now destruct pre |].
      apply Forall_app. split; [assumption |].
      repeat (constructor; [assumption || reflexivity |]).
      apply Forall_app. split; [assumption |]. now constructor.
    + apply Forall_app. split; [assumption |].
      constructor; [assumption |]. constructor; [reflexivity | constructor].
    + reflexivity.
Qed.

(** The fresh draft receives [C], then [A, B]. *)
Lemma mergeEntries_twice_witness :
  mergeEntries (mergeEntries sampleDraft [rawEntry "C"])
    [rawEntry "A"; rawEntry "B"]
  = mergeEntries sampleDraft ([rawEntry "A"; rawEntry "B"] ++ [rawEntry "C"]).
Proof.
  apply (mergeEntries_twice sampleDraft [rawEntry "C"] [rawEntry "A"; rawEntry "B"]).
  - exists "## **Unreleased**". split; [|left; reflexivity].
    vm_compute. tauto.
  - constructor; [vm_compute; reflexivity | constructor].
Defined.

End MergeStructure.

(** ** Decoding what the program writes *)

Section Decoding.
Import Semver ChangelogManager.

Lemma split_app_sep (sep : ascii) (l rest : string) :
  allChars (notChar sep) l = true ->
  split sep (l +:+ String sep rest) = l :: split sep rest.
Proof.
  induction l as [|c l IH]; intros H.
  - cbn [String.append split]. now rewrite Ascii.eqb_refl.
  - cbn [allChars] in H. apply andb_true_iff in H as [Hc Hl].
    change (String c l +:+ String sep rest) with (String c (l +:+ String sep rest)).
    unfold notChar in Hc. apply negb_true_iff in Hc.
    rewrite split_cons_other by assumption. now rewrite (IH Hl).
Qed.

(** One [key: value] line of the frontmatter. *)
Lemma frontmatterLines_field
  (key val : string) (rest : list string) (fm : gmap string string) :
  allChars (notChar ":"%char) key = true ->
  key <> "" -> trim key <> "__proto__" -> key +:+ ":" +:+ val <> "---" ->
  frontmatterLines ((key +:+ ":" +:+ val) :: rest) fm
  = frontmatterLines rest (<[trim key := trim val]> fm).
Proof.
  intros Hkey Hne Hproto Hfence. cbn [frontmatterLines].
  apply String.eqb_neq in Hfence. rewrite Hfence.
  change (key +:+ ":" +:+ val) with (key +:+ String ":" val).
  rewrite split_app_sep by assumption.
  pose proof (join_split_sep ":"%char val) as Hj.
  pose proof (split_nonempty ":"%char val) as Hnn.
  destruct (split ":" val) as [|p ps]; [congruence |].
  apply String.eqb_neq in Hne, Hproto. rewrite Hne, Hproto. cbn [negb andb].
  change (join ":" (p :: ps)) with (join (String ":" "") (p :: ps)).
  now rewrite Hj.
Qed.

Lemma allChars_reverseString (p : ascii -> bool) (s : string) :
  allChars p (reverseString s) = allChars p s.
Proof.
  induction s as [|c s IH]; [reflexivity |].
  cbn [reverseString allChars]. rewrite allChars_app, IH. cbn [allChars].
  rewrite andb_true_r. apply andb_comm.
Qed.

Lemma allChars_headIs (p : ascii -> bool) (s : string) :
  allChars p s = true -> s <> "" -> headIs p s = true.
Proof.
  destruct s as [|c s]; [congruence |]. cbn [allChars headIs].
  intros H _. now apply andb_true_iff in H as [H _].
Qed.

Lemma reverseString_nonempty (s : string) : s <> "" -> reverseString s <> "".
Proof.
  destruct s as [|c s]; [congruence |]. intros _. cbn [reverseString].
  destruct (reverseString s); discriminate.
Qed.

Lemma startsWith_plain_head (s w : string) :
  headIs isPlainChar s = true -> headIs isPlainChar w = false -> w <> "" ->
  startsWith s w = false.
Proof.
  destruct s as [|c s], w as [|d w]; try discriminate; try congruence.
  cbn [headIs startsWith]. intros Hc Hd _.
  destruct (Ascii.eqb d c) eqn:E; [|reflexivity].
  apply Ascii.eqb_eq in E. subst d. congruence.
Qed.

Lemma whitespace_not_plain :
  forall w, In w whitespace ->
    w <> "" /\ headIs isPlainChar w = false
    /\ headIs isPlainChar (reverseString w) = false.
Proof.
  assert (H : forallb (fun w => negb (String.eqb w "")
                                && negb (headIs isPlainChar w)
                                && negb (headIs isPlainChar (reverseString w)))
                whitespace = true) by (vm_compute; reflexivity).
  intros w Hw. rewrite forallb_forall in H. specialize (H w Hw).
  apply andb_true_iff in H as [H H3]. apply andb_true_iff in H as [H1 H2].
  apply negb_true_iff in H1, H2, H3. apply String.eqb_neq in H1. now repeat split.
Qed.

(** A text of plain characters has no white space at either end. *)
Lemma plain_no_space (s : string) :
  allChars isPlainChar s = true ->
  leadingSpace s = None /\ trailingSpace s = None.
Proof.
  intros H. destruct (String.eqb s "") eqn:E.
  - apply String.eqb_eq in E. subst s. split; vm_compute; reflexivity.
  - apply String.eqb_neq in E. split; apply find_none; intros w Hw;
      destruct (whitespace_not_plain w Hw) as (Hne & Hh & Ht).
    + apply startsWith_plain_head; try assumption. now apply allChars_headIs.
    + unfold endsWith. apply startsWith_plain_head; try assumption.
      * apply allChars_headIs; [now rewrite allChars_reverseString |].
        now apply reverseString_nonempty.
      * now apply reverseString_nonempty.
Qed.

Lemma trimEnd_clean (s : string) : trailingSpace s = None -> trimEnd s = s.
Proof.
  intros H. unfold trimEnd. destruct s as [|c s]; [reflexivity |].
  cbn [String.length trimEnd_fuel]. now rewrite H.
Qed.

Lemma trimStart_clean (s : string) : leadingSpace s = None -> trimStart s = s.
Proof.
  intros H. unfold trimStart. destruct s as [|c s]; [reflexivity |].
  cbn [String.length trimStart_fuel]. now rewrite H.
Qed.

(** [trim] removes the blank before a plain text and nothing else. *)
Lemma trim_plain (s : string) :
  allChars isPlainChar s = true -> trim (" " +:+ s) = s /\ trim s = s.
Proof.
  intros H. destruct (plain_no_space s H) as [Hl Ht]. split.
  - unfold trim. assert (E : trimStart (" " +:+ s) = s).
    { unfold trimStart. change (" " +:+ s) with (String " " s).
      cbn [String.length trimStart_fuel].
      change (leadingSpace (String " " s)) with (Some " ").
      cbn [String.length drop]. fold (trimStart s). now apply trimStart_clean. }
    rewrite E. now apply trimEnd_clean.
  - unfold trim. rewrite trimStart_clean by assumption. now apply trimEnd_clean.
Qed.

Lemma plain_oneLine (s prefix : string) :
  allChars notLF prefix = true -> allChars isPlainChar s = true ->
  oneLine (prefix +:+ s).
Proof.
  intros Hp Hs. apply allChars_oneLine. rewrite allChars_app, Hp.
  apply (allChars_weaken isPlainChar); [|assumption].
  intros c Hc. unfold notLF. destruct (Ascii.eqb c LF) eqn:E; [|reflexivity].
  apply Ascii.eqb_eq in E. subst c. discriminate Hc.
Qed.

Lemma not_fence (prefix s : string) (c : ascii) :
  c <> "-"%char -> String c prefix +:+ s <> "---".
Proof. intros Hc E. injection E as E _. congruence. Qed.

(** The three fields a frontmatter written by the program decodes to. *)
Lemma parse_three_fields (v d t : string) (body : list string) :
  allChars isPlainChar v = true -> allChars isPlainChar d = true ->
  allChars isPlainChar t = true ->
  let fm :=
    parseFrontmatter
      (join nl ("---" :: ("version: " +:+ v) :: ("date: " +:+ d)
                  :: ("tag: " +:+ t) :: "---" :: body)) in
  fm !! "version" = Some v /\ fm !! "date" = Some d /\ fm !! "tag" = Some t.
Proof.
  intros Hv Hd Ht. cbv zeta. unfold parseFrontmatter.
  change (join nl ("---" :: ("version: " +:+ v) :: ("date: " +:+ d)
                     :: ("tag: " +:+ t) :: "---" :: body))
    with ("---" +:+ nl +:+ ("version: " +:+ v) +:+ nl +:+ ("date: " +:+ d) +:+ nl
            +:+ ("tag: " +:+ t) +:+ nl
            +:+ join nl ("---" :: body)).
  rewrite split_app_nl by reflexivity.
  rewrite split_app_nl by (now apply plain_oneLine).
  rewrite split_app_nl by (now apply plain_oneLine).
  rewrite split_app_nl by (now apply plain_oneLine).
  assert (Hfence : exists rest, split LF (join nl ("---" :: body)) = "---" :: rest).
  { destruct body as [|b body]; [now exists [] |].
    change (join nl ("---" :: b :: body)) with ("---" +:+ nl +:+ join nl (b :: body)).
    rewrite split_app_nl by reflexivity. eauto. }
  destruct Hfence as [rest ->]. cbn [String.eqb Ascii.eqb Bool.eqb].
  change ("version: " +:+ v) with ("version" +:+ ":" +:+ (" " +:+ v)).
  change ("date: " +:+ d) with ("date" +:+ ":" +:+ (" " +:+ d)).
  change ("tag: " +:+ t) with ("tag" +:+ ":" +:+ (" " +:+ t)).
  rewrite !frontmatterLines_field;
    try reflexivity; try (vm_compute; discriminate);
    try (apply (not_fence _ _ _); discriminate).
  cbn [frontmatterLines String.eqb Ascii.eqb Bool.eqb].
  destruct (trim_plain v Hv) as [-> _]. destruct (trim_plain d Hd) as [-> _].
  destruct (trim_plain t Ht) as [-> _].
  change (trim "version") with "version". change (trim "date") with "date".
  change (trim "tag") with "tag".
  rewrite lookup_insert_ne by discriminate.
  rewrite lookup_insert_ne by discriminate.
  rewrite lookup_insert_eq.
  rewrite (lookup_insert_ne _ "tag" "date") by discriminate.
  rewrite !lookup_insert_eq. now repeat split.
Qed.

End Decoding.

Section FreshDrafts.
Import Semver ChangelogManager.

Lemma string_of_uint_digits (u : Decimal.uint) :
  allChars isDigit (DecimalString.NilEmpty.string_of_uint u) = true.
Proof. induction u; cbn; auto. Qed.

Lemma showN_digits (n : N) : digits (showN n) = true.
Proof.
  unfold digits, showN, DecimalString.NilZero.string_of_uint.
  pose proof (string_of_uint_digits (N.to_uint n)) as H.
  destruct (N.to_uint n); cbn in H |- *; first [exact H | reflexivity].
Qed.

Lemma digitOrDot_plain (s : string) :
  allChars digitOrDot s = true -> allChars isPlainChar s = true.
Proof.
  apply allChars_weaken. intros c Hc. unfold digitOrDot in Hc. unfold isPlainChar.
  apply orb_true_iff in Hc as [Hc | Hc].
  - now rewrite Hc.
  - apply Ascii.eqb_eq in Hc. subst c. reflexivity.
Qed.

Lemma format_chars (v : SemVer) : allChars digitOrDot (format v) = true.
Proof.
  unfold format. rewrite !allChars_app.
  assert (H : forall n, allChars digitOrDot (showN n) = true).
  { intros n. apply (allChars_weaken isDigit); [apply isDigit_digitOrDot |].
    apply digits_allChars, showN_digits. }
  now rewrite !H.
Qed.

(** The next version is made of digits and dots. *)
Lemma getNextVersion_chars (dir : gmap string fsnode) (bump : ReleaseType) :
  allChars digitOrDot (getNextVersion dir bump) = true.
Proof.
  unfold getNextVersion. destruct (getHighestVersion dir) as [vf|] eqn:E;
    [|reflexivity].
  apply getHighestVersion_Some in E as [(_ & _ & _ & Hparse) _].
  unfold inc. rewrite Hparse. cbn [render]. apply format_chars.
Qed.

Lemma allChars_no_includes (ch : ascii) (rest s : string) :
  allChars (notChar ch) s = true -> includes s (String ch rest) = false.
Proof.
  induction s as [|c s IH]; [reflexivity |].
  cbn [allChars]. intros H. apply andb_true_iff in H as [Hc Hs].
  cbn [includes startsWith]. unfold notChar in Hc. apply negb_true_iff in Hc.
  rewrite Ascii.eqb_sym, Hc. cbn [andb orb]. now apply IH.
Qed.

Lemma plain_noUnreleased (prefix s : string) :
  allChars (notChar "*"%char) prefix = true -> allChars isPlainChar s = true ->
  noUnreleased (prefix +:+ s).
Proof.
  intros Hp Hs. unfold noUnreleased. apply allChars_no_includes.
  rewrite allChars_app, Hp. apply (allChars_weaken isPlainChar); [|assumption].
  intros c Hc. unfold notChar. destruct (Ascii.eqb c "*") eqn:E; [|reflexivity].
  apply Ascii.eqb_eq in E. subst c. discriminate Hc.
Qed.

Lemma draftTemplate_lines (v d : string) :
  allChars isPlainChar v = true -> allChars isPlainChar d = true ->
  split LF (draftTemplate v d)
  = templateTop v d ++ "## **Unreleased**" :: templateBottom
  /\ Forall noUnreleased (templateTop v d).
Proof.
  intros Hv Hd. split.
  - apply split_join; [discriminate |].
    repeat (constructor; [first [reflexivity | now apply plain_oneLine] |]).
    constructor.
  - repeat (constructor; [first [reflexivity | now apply plain_noUnreleased] |]).
    constructor.
Qed.

(** X9. On a name that is free or a file that can be read and written,
    [createUnreleasedFile] returns, and the draft it writes decodes to what
    was put into it: the version is the next patch version, the date is
    today, and the tag is empty, so the document counts as open. *)
Theorem createUnreleasedFile_decodes
  (w : World) (dir : gmap string fsnode) (filePath : string) :
  noObstacle dir filePath ->
  allChars isPlainChar (today w) = true ->
  exists dir' content,
    createUnreleasedFile w dir filePath = Returned dir'
    /\ readFile dir' filePath = Some content
    /\ parseFrontmatter content !! "version" = Some (getNextVersion dir Patch)
    /\ parseFrontmatter content !! "date" = Some (today w)
    /\ parseFrontmatter content !! "tag" = Some ""
    /\ untagged content.
Proof.
  intros Hfree Hd.
  exists (<[filePath := Readable (draftTemplate (getNextVersion dir Patch) (today w))]> dir),
    (draftTemplate (getNextVersion dir Patch) (today w)).
  split; [now apply writeFile_noObstacle |].
  split; [apply readFile_writeFile |].
  pose proof (digitOrDot_plain _ (getNextVersion_chars dir Patch)) as Hv.
  destruct (parse_three_fields (getNextVersion dir Patch) (today w) ""
              [ ""; "# Release " +:+ getNextVersion dir Patch; ""; "## **Unreleased**";
                ""; "<!-- New entries will be added here -->"; ""; "" ]
              Hv Hd eq_refl) as (H1 & H2 & H3).
  unfold untagged. repeat split; try assumption.
  change (parseFrontmatter (draftTemplate (getNextVersion dir Patch) (today w)) !! "tag")
    with (parseFrontmatter
            (join nl ("---" :: ("version: " +:+ getNextVersion dir Patch)
                        :: ("date: " +:+ today w) :: ("tag: " +:+ "") :: "---"
                        :: [ ""; "# Release " +:+ getNextVersion dir Patch; "";
                             "## **Unreleased**"; "";
                             "<!-- New entries will be added here -->"; ""; "" ]))
            !! "tag").
  now rewrite H3.
Qed.

Lemma createUnreleasedFile_decodes_witness :
  exists dir' content,
    createUnreleasedFile (sampleWorld None) releasedDir "draft.md" = Returned dir'
    /\ readFile dir' "draft.md" = Some content
    /\ parseFrontmatter content !! "version" = Some (getNextVersion releasedDir Patch)
    /\ parseFrontmatter content !! "date" = Some "2024-07-04"
    /\ parseFrontmatter content !! "tag" = Some ""
    /\ untagged content.
Proof.
  apply (createUnreleasedFile_decodes (sampleWorld None) releasedDir "draft.md").
  - intros why H. vm_compute in H. discriminate H.
  - vm_compute; reflexivity.
Defined.

(** X10. On a name that is free, [updateChangelogFile] first lays down the
    draft template for the next patch version and today's date, and the
    entries go right under its section header.  On a name that exists and
    cannot be read (a directory, a file without read permission) it throws,
    and the directory is as it was, but for the text of a file that can be
    written and not read, which no read shows. *)
Theorem updateChangelogFile_creates
  (w : World) (dir : gmap string fsnode) (filePath : string) (newEntries : list Entry) :
  allChars isPlainChar (today w) = true ->
  (dir !! filePath = None ->
   exists dir',
     updateChangelogFile w dir filePath newEntries = Returned dir'
     /\ readFile dir' filePath
        = Some (join nl (templateTop (getNextVersion dir Patch) (today w)
                           ++ "## **Unreleased**" :: map entryLine newEntries
                           ++ templateBottom))
     /\ forall other, other <> filePath -> dir' !! other = dir !! other)
  /\ (forall why, dir !! filePath = Some (Unreadable why) ->
                  updateChangelogFile w dir filePath newEntries = Threw dir).
Proof.
  intros Hd. split.
  - intros Hnone. eexists. split; [|split].
    + apply updateChangelogFile_result. now apply free_noObstacle.
    + rewrite readFile_writeFile. f_equal.
      unfold startingText, readFile. rewrite Hnone.
      pose proof (digitOrDot_plain _ (getNextVersion_chars dir Patch)) as Hv.
      destruct (draftTemplate_lines _ _ Hv Hd) as [Hsplit Hno].
      now apply mergeEntries_header.
    + intros other Hne. now rewrite lookup_insert_ne by congruence.
  - intros why Hwhy. now apply (updateChangelogFile_obstacle _ _ _ _ why).
Qed.

(** A directory without draft receives one entry; a directory where
    [draft.md] is itself a directory is left alone. *)
Lemma updateChangelogFile_creates_witness :
  (exists dir',
     updateChangelogFile (sampleWorld None) releasedDir "draft.md" [rawEntry "A"]
     = Returned dir'
     /\ readFile dir' "draft.md"
        = Some (join nl (templateTop (getNextVersion releasedDir Patch) "2024-07-04"
                           ++ "## **Unreleased**" :: map entryLine [rawEntry "A"]
                           ++ templateBottom))
     /\ forall other, other <> "draft.md" -> dir' !! other = releasedDir !! other)
  /\ updateChangelogFile (sampleWorld None) blockedDir "draft.md" [rawEntry "A"]
     = Threw blockedDir.
Proof.
  split.
  - destruct (updateChangelogFile_creates (sampleWorld None) releasedDir "draft.md"
                [rawEntry "A"]) as [Hfree _]; [vm_compute; reflexivity |].
    apply Hfree. reflexivity.
  - destruct (updateChangelogFile_creates (sampleWorld None) blockedDir "draft.md"
                [rawEntry "A"]) as [_ Hblocked]; [vm_compute; reflexivity |].
    apply (Hblocked Directory). reflexivity.
Defined.

End FreshDrafts.

(** ** More on the release cut *)

Section ReleaseMore.
Import Semver ReleaseManager.

Lemma includes_cons_false (c : ascii) (s p : string) :
  includes (String c s) p = false ->
  startsWith (String c s) p = false /\ includes s p = false.
Proof. cbn [includes]. intros H. now apply orb_false_iff in H. Qed.

(** The lazy group stops at the first [---] line feed: the closing fence,
    when the block holds none. *)
Lemma cut_fence_first (block rest : string) :
  includes block fence = false ->
  cut fence (block +:+ fence +:+ rest) = Some (block, rest).
Proof.
  induction block as [|c block IH]; intros H; [reflexivity |].
  apply includes_cons_false in H as [Hs Hi].
  change (String c block +:+ fence +:+ rest)
    with (String c (block +:+ fence +:+ rest)).
  assert (Hstart : startsWith (String c (block +:+ fence +:+ rest)) fence = false).
  { destruct block as [|c1 [|c2 [|c3 block]]]; [| | | exact Hs];
      unfold fence, nl; cbn [startsWith String.append];
      change (Ascii.eqb LF "-"%char) with false;
      now rewrite ?andb_false_r. }
  cbn [cut]. rewrite Hstart. now rewrite (IH Hi).
Qed.

(** X11. The frontmatter rewrite of the release cut touches the first
    block only.  In a text made of a fence, a block that holds no fence, the
    closing fence and a rest, every line of the block goes through the line
    rewrite, one line feed is added before the closing fence, and the rest
    is carried over byte for byte, whatever it holds. *)
Theorem updateFrontmatter_first_block
  (dateStr newVersion block rest : string) :
  includes block fence = false ->
  updateFrontmatter dateStr newVersion (fence +:+ block +:+ fence +:+ rest)
  = fence
    +:+ join nl (map (updateFrontmatterLine dateStr newVersion) (split LF block))
    +:+ nl +:+ fence +:+ rest.
Proof.
  intros H. unfold updateFrontmatter.
  rewrite startsWith_app.
  change (drop 4 (fence +:+ block +:+ fence +:+ rest))
    with (block +:+ fence +:+ rest).
  now rewrite cut_fence_first.
Qed.

(** The body of this draft has its own [version:] and [tag:] lines and a
    fence; none of them changes. *)
Lemma updateFrontmatter_first_block_witness :
  updateFrontmatter "2024-07-04" "1.1.0" draftWithRule
  = join nl [ "---"; "version: 1.1.0"; "date: 2024-07-04"; "tag: v1.1.0"; ""; "---"; "";
              "# Release 0.2.0"; ""; "version: see above"; "---"; "tag:"; "" ].
Proof.
  apply (updateFrontmatter_first_block "2024-07-04" "1.1.0"
           (join nl ["version: 0.2.0"; "date: 2024-07-01"; "tag: "; ""])
           (join nl [""; "# Release 0.2.0"; ""; "version: see above"; "---"; "tag:"; ""])).
  vm_compute; reflexivity.
Defined.






Lemma inc_plain (version newVersion : string) (bumpType : ReleaseType) :
  inc version bumpType = Some newVersion ->
  allChars isPlainChar newVersion = true /\ newVersion <> "".
Proof.
  unfold inc. destruct (parse version) as [v|]; [|discriminate].
  intros [= <-]. split.
  - apply digitOrDot_plain, format_chars.
  - unfold format. pose proof (showN_digits (major (incSemVer v bumpType))) as H.
    apply digits_inv in H as (c & s & -> & _). discriminate.
Qed.

Lemma bumpVersion_plain
  (version : option string) (newVersion : string) (bumpType : ReleaseType) :
  bumpVersion version bumpType = Some newVersion ->
  allChars isPlainChar newVersion = true /\ newVersion <> "".
Proof.
  destruct version as [v|]; [|discriminate]. apply inc_plain.
Qed.

(** X13. Without a draft, a release still completes when
    [config.versionFiles] is not set, nothing stands in the way of
    [<newVersion>.md] and the host is not asked or accepts: the version file
    is the fabricated minimal document, which decodes to the new version and
    to the tag [v<newVersion>], so it counts as released. *)
Theorem release_without_draft
  (cfg : Config) (w : World) (bumpType : ReleaseType) (st : State)
  (newVersion : string) :
  versionFiles cfg = false ->
  bumpVersion (getCurrentVersion (manifest st)) bumpType = Some newVersion ->
  changelog st !! draftFileName cfg = None ->
  noObstacle (changelog st) (newVersion +:+ ".md") ->
  draftFileName cfg <> newVersion +:+ ".md" ->
  hostAccepts cfg w ->
  allChars isPlainChar (today w) = true ->
  exists st' text,
    release cfg w bumpType st = Released (Some newVersion) st'
    /\ readFile (changelog st') (newVersion +:+ ".md") = Some text
    /\ text = basicContent (today w) newVersion
    /\ ChangelogManager.parseFrontmatter text !! "version" = Some newVersion
    /\ ChangelogManager.parseFrontmatter text !! "tag" = Some ("v" +:+ newVersion)
    /\ ~ untagged text.
Proof.
  intros Hvf Hinc Hnone Hfree Hne Hhost Hd.
  destruct (bumpVersion_plain _ _ _ Hinc) as [Hv Hnn].
  destruct (release_completes cfg w bumpType st newVersion Hvf Hinc
              (free_noObstacle _ _ Hnone) Hfree Hhost) as (cut & Hcut & Hrel).
  assert (Hread : readFile (changelog st) (draftFileName cfg) = None)
    by (unfold readFile; now rewrite Hnone).
  rewrite renameDraftFile_unreadable in Hcut by assumption.
  rewrite writeFile_noObstacle in Hcut by assumption. injection Hcut as <-.
  eexists _, (basicContent (today w) newVersion). split; [exact Hrel |].
  split; [|split].
  - cbn [changelog]. unfold readFile. rewrite lookup_insert_ne by assumption.
    now rewrite lookup_insert_eq.
  - reflexivity.
  - destruct (parse_three_fields newVersion (today w)
                ("v" +:+ newVersion)
                [ ""; "# Release " +:+ newVersion; ""; "- Release " +:+ newVersion; "" ]
                Hv Hd Hv) as (H1 & _ & H3).
    split; [exact H1 |]. split; [exact H3 |].
    unfold untagged.
    change (ChangelogManager.parseFrontmatter (basicContent (today w) newVersion) !! "tag")
      with (ChangelogManager.parseFrontmatter
              (join nl ("---" :: ("version: " +:+ newVersion) :: ("date: " +:+ today w)
                          :: ("tag: " +:+ ("v" +:+ newVersion)) :: "---"
                          :: [ ""; "# Release " +:+ newVersion; "";
                               "- Release " +:+ newVersion; "" ])) !! "tag").
    rewrite H3. discriminate.
Qed.

End ReleaseMore.

Section ReleaseThenOpen.
Import Semver ReleaseManager.

(** Only a tagged release is in the directory; the manifest says [1.3.0]. *)
Lemma release_without_draft_witness :
  exists st' text,
    release sampleReleaseConfig sampleReleaseWorld Minor stateWithoutDraft
    = Released (Some "1.4.0") st'
    /\ readFile (changelog st') ("1.4.0" +:+ ".md") = Some text
    /\ text = basicContent "2024-07-04" "1.4.0"
    /\ ChangelogManager.parseFrontmatter text !! "version" = Some "1.4.0"
    /\ ChangelogManager.parseFrontmatter text !! "tag" = Some ("v" +:+ "1.4.0")
    /\ ~ untagged text.
Proof.
  apply (release_without_draft sampleReleaseConfig sampleReleaseWorld Minor
           stateWithoutDraft "1.4.0").
  - reflexivity.
  - vm_compute; reflexivity.
  - vm_compute; reflexivity.
  - intros why H; vm_compute in H; discriminate H.
  - intros H; vm_compute in H; discriminate H.
  - left. reflexivity.
  - vm_compute; reflexivity.
Defined.

(* The draft template decodes to an empty tag. *)
Lemma draftTemplate_untagged (version dateStr : string) :
  allChars isPlainChar version = true ->
  allChars isPlainChar dateStr = true ->
  untagged (ChangelogManager.draftTemplate version dateStr).
Proof.
  intros Hv Hd.
  destruct (parse_three_fields version dateStr ""
              [ ""; "# Release " +:+ version; "";
                "## **Unreleased**"; "";
                "<!-- New entries will be added here -->"; ""; "" ]
              Hv Hd eq_refl) as (_ & _ & H3).
  unfold untagged.
  change (ChangelogManager.parseFrontmatter
            (ChangelogManager.draftTemplate version dateStr) !! "tag")
    with (ChangelogManager.parseFrontmatter
            (join nl ("---" :: ("version: " +:+ version)
                        :: ("date: " +:+ dateStr) :: ("tag: " +:+ "") :: "---"
                        :: [ ""; "# Release " +:+ version; "";
                             "## **Unreleased**"; "";
                             "<!-- New entries will be added here -->"; ""; "" ]))
            !! "tag").
  now rewrite H3.
Qed.

(** X14. After a release that completes ([config.versionFiles] not set,
    nothing in the way of the draft and of [<newVersion>.md], the host not
    asked or accepting), the open document is the new draft, which is
    untagged, and a [package.json] that parses to an object and can be
    written holds the new version, so that the next release bumps from it.
    This holds with or without a draft before the release. *)
Theorem release_then_open
  (cfg : Config) (ccfg : ChangelogManager.Config) (w : World)
  (bumpType : ReleaseType) (st : State) (newVersion : string) :
  versionFiles cfg = false ->
  bumpVersion (getCurrentVersion (manifest st)) bumpType = Some newVersion ->
  noObstacle (changelog st) (draftFileName cfg) ->
  noObstacle (changelog st) (newVersion +:+ ".md") ->
  hostAccepts cfg w ->
  ChangelogManager.draftFileName ccfg = draftFileName cfg ->
  allChars isPlainChar (today w) = true ->
  exists st' text,
    release cfg w bumpType st = Released (Some newVersion) st'
    /\ ChangelogManager.detectOpenReleaseFile ccfg (changelog st') = draftFileName cfg
    /\ readFile (changelog st') (draftFileName cfg) = Some text
    /\ untagged text
    /\ (forall version, manifest st = PackageJson version true ->
                        getCurrentVersion (manifest st') = Some newVersion).
Proof.
  intros Hvf Hinc Hdraft Hfree Hhost Hccfg Hd.
  destruct (bumpVersion_plain _ _ _ Hinc) as [_ Hnn].
  destruct (release_completes cfg w bumpType st newVersion Hvf Hinc Hdraft Hfree Hhost)
    as (cut & Hcut & Hrel).
  eexists _, _. split; [exact Hrel |]. cbn [changelog manifest].
  split; [|split; [|split]].
  - unfold ChangelogManager.detectOpenReleaseFile.
    rewrite Hccfg. now rewrite access_written.
  - apply readFile_writeFile.
  - apply draftTemplate_untagged; [|exact Hd].
    apply digitOrDot_plain, getNextVersion_chars.
  - intros version ->. cbn [updatePackageJson getCurrentVersion].
    destruct newVersion; [congruence | reflexivity].
Qed.

Lemma release_then_open_witness :
  exists st' text,
    release sampleReleaseConfig sampleReleaseWorld Minor sampleState
    = Released (Some "1.1.0") st'
    /\ ChangelogManager.detectOpenReleaseFile sampleConfig (changelog st') = "draft.md"
    /\ readFile (changelog st') "draft.md" = Some text
    /\ untagged text
    /\ (forall version, manifest sampleState = PackageJson version true ->
                        getCurrentVersion (manifest st') = Some "1.1.0").
Proof.
  apply (release_then_open sampleReleaseConfig sampleConfig sampleReleaseWorld Minor
           sampleState "1.1.0").
  - reflexivity.
  - vm_compute; reflexivity.
  - intros why H; vm_compute in H; discriminate H.
  - intros why H; vm_compute in H; discriminate H.
  - left. reflexivity.
  - reflexivity.
  - vm_compute; reflexivity.
Defined.

End ReleaseThenOpen.

(** ** The configuration objects *)

Section ConfigurationFacts.
Import Cli Configuration.

Lemma layered_some
  (config : gmap string value) (pf : ProjectFile) (key fallback : string) :
  fileConfigOf pf <> None ->
  is_Some (layered config pf key fallback).
Proof.
  intros Hfile. unfold layered, fileGet, orLazy.
  destruct (fileConfigOf pf); [|congruence].
  destruct (truthyValue (get config key)); eauto.
Qed.

Lemma layeredEmojis_some (config : gmap string value) (pf : ProjectFile) :
  fileConfigOf pf <> None -> is_Some (layeredEmojis config pf).
Proof.
  intros Hfile. unfold layeredEmojis, fileGet.
  destruct (fileConfigOf pf); [|congruence].
  destruct (negb (isUndefined (get config "useEmojis"))); eauto.
Qed.

Lemma layered_default
  (config : gmap string value) (pf : ProjectFile) (key fallback : string) (v : value) :
  layered config pf key fallback = Some v ->
  config !! key = None -> spread pf !! key = None -> v = VString fallback.
Proof.
  unfold layered, orLazy, fileGet, spread, get. intros H Hc Hp. rewrite Hc in H.
  cbn [default truthyValue] in H.
  destruct (fileConfigOf pf) as [props|]; [|discriminate H].
  cbn [default] in Hp. unfold id in Hp. rewrite Hp in H. now injection H as <-.
Qed.

Lemma layeredEmojis_default
  (config : gmap string value) (pf : ProjectFile) (v : value) :
  layeredEmojis config pf = Some v ->
  config !! "useEmojis" = None -> spread pf !! "useEmojis" = None -> v = VBool true.
Proof.
  unfold layeredEmojis, fileGet, spread, get. intros H Hc Hp. rewrite Hc in H.
  cbn [default isUndefined negb] in H.
  destruct (fileConfigOf pf) as [props|]; [|discriminate H].
  cbn [default] in Hp. unfold id in Hp. rewrite Hp in H. now injection H as <-.
Qed.

(** What the constructor leaves when it returns. *)
Lemma changelogManagerConfig_inv
  (env : ProcessEnv) (projectFile : value -> ProjectFile)
  (config cfg : gmap string value) :
  changelogManagerConfig env projectFile config = Some cfg ->
  let pf := projectFile (projectRootOf env config) in
  exists d f g e,
    layered config pf "changelogDir" "changelog/releases" = Some d
    /\ layered config pf "draftFileName" "draft.md" = Some f
    /\ layered config pf "gitTimeRange" "1 day ago" = Some g
    /\ layeredEmojis config pf = Some e
    /\ cfg = config
             ∪ (spread pf
                ∪ list_to_map
                    [ ("changelogDir", d); ("draftFileName", f);
                      ("aiApiKey", resolvedKey env config);
                      ("aiApiType", resolvedType env config);
                      ("gitTimeRange", g);
                      ("projectRoot", projectRootOf env config);
                      ("useEmojis", e) ])
    /\ arePaths cfg ["projectRoot"; "changelogDir"; "draftFileName"] = true.
Proof.
  unfold changelogManagerConfig, projectRootOf. cbv zeta.
  destruct (layered config _ "changelogDir" _) as [d|]; [|discriminate].
  destruct (layered config _ "draftFileName" _) as [f|]; [|discriminate].
  destruct (layered config _ "gitTimeRange" _) as [g|]; [|discriminate].
  destruct (layeredEmojis config _) as [e|]; [|discriminate].
  destruct (arePaths _ _) eqn:Hpaths; [|discriminate].
  intros [= <-]. now exists d, f, g, e.
Qed.

(** The constructor returns when the file does not hold [null] and every
    path it ends up with is a string. *)
Lemma changelogManagerConfig_returns
  (env : ProcessEnv) (projectFile : value -> ProjectFile) (config : gmap string value) :
  let pf := projectFile (projectRootOf env config) in
  fileConfigOf pf <> None ->
  givesPaths (config ∪ spread pf) ["projectRoot"; "changelogDir"; "draftFileName"] ->
  is_Some (changelogManagerConfig env projectFile config).
Proof.
  cbv zeta. intros Hfile Hpaths.
  unfold changelogManagerConfig. fold (projectRootOf env config).
  set (pf := projectFile (projectRootOf env config)) in *.
  destruct (layered_some config pf "changelogDir" "changelog/releases" Hfile) as [d Hd].
  destruct (layered_some config pf "draftFileName" "draft.md" Hfile) as [f Hf].
  destruct (layered_some config pf "gitTimeRange" "1 day ago" Hfile) as [g Hg].
  destruct (layeredEmojis_some config pf Hfile) as [e He].
  rewrite Hd, Hf, Hg, He.
  assert (Hkey : forall key computed,
             In key ["projectRoot"; "changelogDir"; "draftFileName"] ->
             (config !! key = None -> spread pf !! key = None ->
              isString computed = true) ->
             forall rest : gmap string value,
               rest !! key = Some computed ->
               isString (get (config ∪ (spread pf ∪ rest)) key) = true).
  { intros key computed Hin Hcomputed rest Hrest. unfold get.
    destruct (config !! key) as [v|] eqn:Hc.
    - rewrite (lookup_union_Some_l _ _ _ _ Hc). cbn [default]. unfold id.
      apply (Hpaths key v Hin). now apply lookup_union_Some_l.
    - rewrite lookup_union_r by assumption.
      destruct (spread pf !! key) as [v|] eqn:Hp.
      + rewrite (lookup_union_Some_l _ _ _ _ Hp). cbn [default]. unfold id.
        apply (Hpaths key v Hin). rewrite lookup_union_r by assumption. exact Hp.
      + rewrite lookup_union_r by assumption. rewrite Hrest. cbn [default]. unfold id.
        now apply Hcomputed. }
  assert (Hall : arePaths
                   (config
                    ∪ (spread pf
                       ∪ list_to_map
                           [ ("changelogDir", d); ("draftFileName", f);
                             ("aiApiKey", resolvedKey env config);
                             ("aiApiType", resolvedType env config);
                             ("gitTimeRange", g);
                             ("projectRoot", projectRootOf env config);
                             ("useEmojis", e) ]))
                   ["projectRoot"; "changelogDir"; "draftFileName"] = true).
  { unfold arePaths. cbn [forallb].
    rewrite (Hkey "projectRoot" (projectRootOf env config));
      [| now left | | reflexivity].
    - rewrite (Hkey "changelogDir" d); [| right; now left | | reflexivity].
      + rewrite (Hkey "draftFileName" f); [reflexivity | right; right; now left | | reflexivity].
        intros Hc Hp. now rewrite (layered_default _ _ _ _ _ Hf Hc Hp).
      + intros Hc Hp. now rewrite (layered_default _ _ _ _ _ Hd Hc Hp).
    - intros Hc _. unfold projectRootOf, or, get. now rewrite Hc. }
  rewrite Hall. eauto.
Qed.

(** X15. The configuration of [ChangelogManager] is layered.  Whenever the
    constructor returns, a property of the object passed to it is there
    with its value; else a property of [changelog.config.json] is there with
    its value; and the built-in defaults of the directory, the draft name,
    the time range and the emoji switch apply only when neither has the
    property.  The constructor returns when the file does not hold [null]
    and every root, directory and draft name that the object gives, or the
    file where the object gives none, is a string. *)
Theorem changelogManagerConfig_layers
  (env : ProcessEnv) (projectFile : value -> ProjectFile) (config : gmap string value) :
  let pf := projectFile (projectRootOf env config) in
  (forall cfg,
     changelogManagerConfig env projectFile config = Some cfg ->
     (forall key v, config !! key = Some v -> cfg !! key = Some v)
     /\ (forall key v, config !! key = None -> spread pf !! key = Some v ->
                       cfg !! key = Some v)
     /\ Forall
          (fun kd => config !! fst kd = None -> spread pf !! fst kd = None ->
                     cfg !! fst kd = Some (snd kd))
          configDefaults)
  /\ (fileConfigOf pf <> None ->
      givesPaths (config ∪ spread pf) ["projectRoot"; "changelogDir"; "draftFileName"] ->
      is_Some (changelogManagerConfig env projectFile config)).
Proof.
  cbv zeta. split; [| apply changelogManagerConfig_returns].
  intros cfg Hcfg.
  destruct (changelogManagerConfig_inv env projectFile config cfg Hcfg)
    as (d & f & g & e & Hd & Hf & Hg & He & -> & _).
  split; [|split].
  - intros key v Hc. now apply lookup_union_Some_l.
  - intros key v Hc Hp. rewrite lookup_union_r by assumption.
    now apply lookup_union_Some_l.
  - repeat constructor; cbn [fst snd]; intros Hc Hp;
      rewrite lookup_union_r by assumption; rewrite lookup_union_r by assumption.
    + now rewrite (layered_default _ _ _ _ _ Hd Hc Hp).
    + now rewrite (layered_default _ _ _ _ _ Hf Hc Hp).
    + now rewrite (layered_default _ _ _ _ _ Hg Hc Hp).
    + now rewrite (layeredEmojis_default _ _ _ He Hc Hp).
Qed.

(** The add command with its defaults, in a project whose file sets the
    directory: the constructor returns, the flag of the command line wins
    over the file, and the emoji switch takes its default. *)
Lemma changelogManagerConfig_layers_witness :
  exists cfg,
    changelogManagerConfig sampleProcessEnv sampleProjectFile (addConfig sampleAddOptions)
    = Some cfg
    /\ cfg !! "changelogDir" = Some (VString "changelog/releases")
    /\ cfg !! "useEmojis" = Some (VBool true).
Proof.
  destruct (changelogManagerConfig_layers sampleProcessEnv sampleProjectFile
              (addConfig sampleAddOptions)) as [Hlayers Hreturns].
  destruct Hreturns as [cfg Hcfg].
  - discriminate.
  - intros key v Hin Hv.
    destruct Hin as [<- | [<- | [<- | []]]]; vm_compute in Hv;
      injection Hv as <-; reflexivity.
  - exists cfg. split; [exact Hcfg |].
    destruct (Hlayers cfg Hcfg) as (Hdirect & _ & Hdefault). split.
    + apply Hdirect. vm_compute; reflexivity.
    + inversion Hdefault as [|? ? _ Hd1]; subst. inversion Hd1 as [|? ? _ Hd2]; subst.
      inversion Hd2 as [|? ? _ Hd3]; subst. inversion Hd3 as [|? ? He _]; subst.
      apply He; vm_compute; reflexivity.
Defined.

(** X16. Whenever the constructor of [ReleaseManager] returns, a property
    given to it is in its configuration unchanged and in the configuration
    of the [ChangelogManager] it creates, whatever the environment and
    [changelog.config.json] say.  It returns when the file does not hold
    [null] and every root, directory, draft name and manifest path given to
    it is a string. *)
Theorem managers_keep_given_properties
  (env : ProcessEnv) (projectFile : value -> ProjectFile)
  (config : gmap string value) (key : string) (v : value) :
  config !! key = Some v ->
  (forall own inner,
     releaseManager env projectFile config = Some (own, inner) ->
     own !! key = Some v /\ inner !! key = Some v)
  /\ (fileConfigOf
        (projectFile (projectRootOf env (releaseManagerConfig env config))) <> None ->
      givesPaths config
        ["projectRoot"; "changelogDir"; "draftFileName"; "packageJsonPath"] ->
      is_Some (releaseManager env projectFile config)).
Proof.
  intros Hkey.
  assert (Hown : forall k x, config !! k = Some x ->
                             releaseManagerConfig env config !! k = Some x)
    by (intros k x Hk; unfold releaseManagerConfig; now apply lookup_union_Some_l).
  split.
  - intros own inner. unfold releaseManager.
    destruct (changelogManagerConfig env projectFile (releaseManagerConfig env config))
      as [cfg|] eqn:Hcfg; [|discriminate].
    destruct (arePaths _ _); [|discriminate]. intros [= <- <-].
    split; [now apply Hown |].
    destruct (changelogManagerConfig_inv _ _ _ _ Hcfg)
      as (d & f & g & e & _ & _ & _ & _ & -> & _).
    apply lookup_union_Some_l. now apply Hown.
  - intros Hfile Hpaths.
    assert (Hstring : forall k,
               In k ["projectRoot"; "changelogDir"; "draftFileName"; "packageJsonPath"] ->
               isString (get (releaseManagerConfig env config) k) = true).
    { intros k Hin. unfold get.
      destruct (config !! k) as [x|] eqn:Hk.
      - rewrite (Hown k x Hk). cbn [default]. unfold id. now apply (Hpaths k x).
      - unfold releaseManagerConfig. rewrite lookup_union_r by assumption.
        unfold or, get.
        destruct Hin as [<- | [<- | [<- | [<- | []]]]]; rewrite Hk; reflexivity. }
    destruct (changelogManagerConfig_returns env projectFile
                (releaseManagerConfig env config) Hfile) as [inner Hinner].
    + intros k x Hin Hx.
      assert (Hin' : In k ["projectRoot"; "changelogDir"; "draftFileName";
                           "packageJsonPath"])
        by (destruct Hin as [<- | [<- | [<- | []]]]; cbn; tauto).
      specialize (Hstring k Hin'). unfold get in Hstring.
      destruct (releaseManagerConfig env config !! k) as [y|] eqn:Hy.
      * rewrite (lookup_union_Some_l _ _ _ _ Hy) in Hx. injection Hx as <-.
        exact Hstring.
      * discriminate Hstring.
    + unfold releaseManager. rewrite Hinner.
      unfold arePaths. cbn [forallb].
      rewrite !Hstring by (cbn; tauto). eauto.
Qed.

Lemma managers_keep_given_properties_witness :
  exists own inner,
    releaseManager sampleProcessEnv sampleProjectFile sampleFileConfig
    = Some (own, inner)
    /\ own !! "changelogDir" = Some (VString "docs/releases")
    /\ inner !! "changelogDir" = Some (VString "docs/releases").
Proof.
  destruct (managers_keep_given_properties sampleProcessEnv sampleProjectFile
              sampleFileConfig "changelogDir" (VString "docs/releases"))
    as [Hkeep Hreturns]; [vm_compute; reflexivity |].
  destruct Hreturns as [[own inner] Hrm].
  - discriminate.
  - intros key v Hin Hv.
    destruct Hin as [<- | [<- | [<- | [<- | []]]]]; vm_compute in Hv;
      try discriminate Hv; injection Hv as <-; reflexivity.
  - exists own, inner. split; [exact Hrm |]. now apply Hkeep.
Defined.

Lemma addConfig_base (o : AddOptions) :
  addConfig o !! "changelogDir" = Some (VString (addDir o))
  /\ addConfig o !! "draftFileName" = Some (VString (addFile o))
  /\ addConfig o !! "gitTimeRange" = Some (VString (addTime o))
  /\ addConfig o !! "projectRoot" = Some (VString (addRoot o)).
Proof.
  unfold addConfig.
  destruct (truthy (openaiKey o)), (truthy (claudeKey o)), (truthy (geminiKey o)),
    (addEmojis o); repeat split; reflexivity.
Qed.

Lemma addConfig_key (o : AddOptions) :
  addConfig o !! "aiApiKey"
  = (if truthy (openaiKey o) then Some (ofOption (openaiKey o))
     else if truthy (claudeKey o) then Some (ofOption (claudeKey o))
     else if truthy (geminiKey o) then Some (ofOption (geminiKey o))
     else None)
  /\ addConfig o !! "aiApiType"
     = (if truthy (openaiKey o) then Some (VString "openai")
        else if truthy (claudeKey o) then Some (VString "claude")
        else if truthy (geminiKey o) then Some (VString "gemini")
        else None).
Proof.
  unfold addConfig.
  destruct (truthy (openaiKey o)), (truthy (claudeKey o)), (truthy (geminiKey o)),
    (addEmojis o); split; reflexivity.
Qed.

(** The manager of the add command is built whenever the file of the
    project does not hold [null]: its paths are the strings of the command
    line. *)
Lemma add_command_returns
  (env : ProcessEnv) (projectFile : value -> ProjectFile) (o : AddOptions) :
  fileConfigOf (projectFile (projectRootOf env (addConfig o))) <> None ->
  is_Some (changelogManagerConfig env projectFile (addConfig o)).
Proof.
  intros Hfile. apply changelogManagerConfig_returns; [exact Hfile |].
  destruct (addConfig_base o) as (Hd & Hf & _ & Hr).
  intros key v Hin Hv.
  destruct Hin as [<- | [<- | [<- | []]]].
  - rewrite (lookup_union_Some_l _ _ _ _ Hr) in Hv. now injection Hv as <-.
  - rewrite (lookup_union_Some_l _ _ _ _ Hd) in Hv. now injection Hv as <-.
  - rewrite (lookup_union_Some_l _ _ _ _ Hf) in Hv. now injection Hv as <-.
Qed.

(** X17. For the add command the directory, the draft name, the time range
    and the project root of the manager are those of the command line (a
    flag or its default) whenever the manager is built:
    [changelog.config.json] cannot change them, whatever it holds.  The
    manager is built whenever the file does not hold [null]. *)
Theorem add_command_ignores_project_file
  (env : ProcessEnv) (projectFile : value -> ProjectFile) (o : AddOptions) :
  (forall cfg,
     changelogManagerConfig env projectFile (addConfig o) = Some cfg ->
     cfg !! "changelogDir" = Some (VString (addDir o))
     /\ cfg !! "draftFileName" = Some (VString (addFile o))
     /\ cfg !! "gitTimeRange" = Some (VString (addTime o))
     /\ cfg !! "projectRoot" = Some (VString (addRoot o)))
  /\ (fileConfigOf (projectFile (projectRootOf env (addConfig o))) <> None ->
      is_Some (changelogManagerConfig env projectFile (addConfig o))).
Proof.
  split; [| apply add_command_returns].
  intros cfg Hcfg.
  destruct (changelogManagerConfig_inv _ _ _ _ Hcfg)
    as (d & f & g & e & _ & _ & _ & _ & -> & _).
  destruct (addConfig_base o) as (Hd & Hf & Hg & Hr).
  repeat split; now apply lookup_union_Some_l.
Qed.

(** The file of the project sets another directory and another time range;
    the manager has those of the command line. *)
Lemma add_command_ignores_project_file_witness :
  exists cfg,
    changelogManagerConfig sampleProcessEnv sampleProjectFile (addConfig sampleAddOptions)
    = Some cfg
    /\ cfg !! "changelogDir" = Some (VString "changelog/releases")
    /\ cfg !! "draftFileName" = Some (VString "draft.md")
    /\ cfg !! "gitTimeRange" = Some (VString "1 day ago")
    /\ cfg !! "projectRoot" = Some (VString "/work/project").
Proof.
  destruct (add_command_ignores_project_file sampleProcessEnv sampleProjectFile
              sampleAddOptions) as [Hvalues Hreturns].
  destruct Hreturns as [cfg Hcfg]; [discriminate |].
  exists cfg. split; [exact Hcfg | now apply Hvalues].
Defined.

(** X18. When [changelog.config.json] sets neither [aiApiKey] nor
    [aiApiType] (a file that is missing or holds [null] sets neither), the
    manager of the add command, whenever it is built, pairs a provider only
    with a key that was given for that provider, by its flag or by its
    environment variable.  It is built whenever the file does not hold
    [null]. *)
Theorem add_command_provider_matches_key
  (env : ProcessEnv) (projectFile : value -> ProjectFile) (o : AddOptions) :
  let pf := projectFile (projectRootOf env (addConfig o)) in
  spread pf !! "aiApiKey" = None ->
  spread pf !! "aiApiType" = None ->
  (forall cfg,
     changelogManagerConfig env projectFile (addConfig o) = Some cfg ->
     exists t k,
       cfg !! "aiApiType" = Some (VString t)
       /\ cfg !! "aiApiKey" = Some k
       /\ keyOfProvider env o t k)
  /\ (fileConfigOf pf <> None ->
      is_Some (changelogManagerConfig env projectFile (addConfig o))).
Proof.
  cbv zeta. intros Hk Ht. split; [| apply add_command_returns].
  intros cfg Hcfg.
  destruct (changelogManagerConfig_inv _ _ _ _ Hcfg)
    as (d & f & g & e & _ & _ & _ & _ & -> & _).
  destruct (addConfig_key o) as (Hkey & Htype).
  unfold keyOfProvider.
  destruct (truthy (openaiKey o)) eqn:E1;
    [| destruct (truthy (claudeKey o)) eqn:E2;
       [| destruct (truthy (geminiKey o)) eqn:E3 ] ].
  - exists "openai", (ofOption (openaiKey o)).
    split; [apply lookup_union_Some_l; exact Htype |].
    split; [apply lookup_union_Some_l; exact Hkey |]. left. split; [reflexivity | now left].
  - exists "claude", (ofOption (claudeKey o)).
    split; [apply lookup_union_Some_l; exact Htype |].
    split; [apply lookup_union_Some_l; exact Hkey |].
    right; left. split; [reflexivity | now left].
  - exists "gemini", (ofOption (geminiKey o)).
    split; [apply lookup_union_Some_l; exact Htype |].
    split; [apply lookup_union_Some_l; exact Hkey |].
    right; right. split; [reflexivity | now left].
  - assert (Hrk : resolvedKey env (addConfig o)
                  = or (or (ofOption (OPENAI_API_KEY env)) (ofOption (CLAUDE_API_KEY env)))
                       (ofOption (GEMINI_API_KEY env)))
      by (unfold resolvedKey, get; now rewrite Hkey).
    assert (Hrt : resolvedType env (addConfig o)
                  = VString (if truthy (OPENAI_API_KEY env) then "openai"
                             else if truthy (CLAUDE_API_KEY env) then "claude"
                             else "gemini"))
      by (unfold resolvedType, get; now rewrite Htype).
    rewrite Hrk, Hrt.
    eexists _, _.
    split; [rewrite lookup_union_r by assumption;
            rewrite lookup_union_r by assumption; reflexivity |].
    split; [rewrite lookup_union_r by assumption;
            rewrite lookup_union_r by assumption; reflexivity |].
    destruct (OPENAI_API_KEY env) as [[|c1 s1]|];
      destruct (CLAUDE_API_KEY env) as [[|c2 s2]|]; cbn;
      first [ left; split; [reflexivity | now right]
            | right; left; split; [reflexivity | now right]
            | right; right; split; [reflexivity | now right] ].
Qed.

(** The Claude flag is given and the environment has an OpenAI key: the
    manager uses the provider of the flag with the key of the flag. *)
Lemma add_command_provider_matches_key_witness :
  exists cfg t k,
    changelogManagerConfig sampleProcessEnv sampleProjectFile (addConfig sampleAddOptions)
    = Some cfg
    /\ cfg !! "aiApiType" = Some (VString t)
    /\ cfg !! "aiApiKey" = Some k
    /\ keyOfProvider sampleProcessEnv sampleAddOptions t k.
Proof.
  destruct (add_command_provider_matches_key sampleProcessEnv sampleProjectFile
              sampleAddOptions eq_refl eq_refl) as [Hpair Hreturns].
  destruct Hreturns as [cfg Hcfg]; [discriminate |].
  destruct (Hpair cfg Hcfg) as (t & k & Ht & Hk & Hmatch).
  now exists cfg, t, k.
Defined.

End ConfigurationFacts.

(** ** The highest version, the ledger and the shape of the entries *)

Section MoreIngestion.
Import Semver ChangelogManager.

(** X19. [getHighestVersion] answers the one version document of the
    directory that no other exceeds, whatever the order in which the
    directory lists its files, and [null] exactly when the directory has
    no version document. *)
Theorem getHighestVersion_characterised (dir : gmap string fsnode) :
  (forall vf, getHighestVersion dir = Some vf <-> highestVersion dir vf)
  /\ (getHighestVersion dir = None <-> forall vf, ~ versionDocument dir vf).
Proof.
  split.
  - intros vf. split.
    + apply getHighestVersion_Some.
    + apply highestVersion_getHighestVersion.
  - apply getHighestVersion_None.
Qed.

(** X20. The ledger is complete.  When the open release file is free or
    a file that can be read and written, [addToChangelog] returns, and the
    file then holds the hash of the custom message, or of every commit that
    [getNewCommits] reports, whatever the provider answers. *)
Theorem addToChangelog_records
  (cfg : Config) (w : World) (customMessage : option string) (dir : gmap string fsnode) :
  let releaseFile := detectOpenReleaseFile cfg dir in
  noObstacle dir releaseFile ->
  exists after,
    addToChangelog cfg w customMessage dir = Returned after
    /\ if truthy customMessage
       then isMessageAlreadyInChangelog after releaseFile
              (createMessageHash (default "" customMessage)) = true
       else Forall
              (fun c => isMessageAlreadyInChangelog after releaseFile
                          (createMessageHash (message c)) = true)
              (getNewCommits w).
Proof.
  cbv zeta. intros Hfree.
  destruct (addToChangelog_returns cfg w customMessage dir Hfree) as [after Hrun].
  exists after. split; [exact Hrun |].
  exact (recorded_after_add cfg w customMessage dir after Hrun).
Qed.

(** Two commits are recorded in a fresh draft. *)
Lemma addToChangelog_records_witness :
  exists after,
    addToChangelog sampleConfig (sampleWorld (Some twoCommitsLog)) None freshDraftDir
    = Returned after
    /\ Forall
         (fun c => isMessageAlreadyInChangelog after "draft.md"
                     (createMessageHash (message c)) = true)
         (getNewCommits (sampleWorld (Some twoCommitsLog))).
Proof.
  apply (addToChangelog_records sampleConfig (sampleWorld (Some twoCommitsLog)) None
           freshDraftDir).
  intros why H. vm_compute in H. discriminate H.
Defined.

Lemma leadingSpace_hyphen (s : string) : leadingSpace (String "-" s) = None.
Proof.
  unfold leadingSpace. apply find_none. intros w Hw.
  assert (H : forallb noHyphenHead whitespace = true) by (vm_compute; reflexivity).
  rewrite forallb_forall in H. specialize (H w Hw).
  destruct w as [|c w]; [discriminate H |].
  cbn [noHyphenHead] in H. cbn [startsWith].
  apply negb_true_iff in H.
  destruct (Ascii.eqb c "-") eqn:E; [discriminate H |].
  destruct (Ascii.eqb "-" c) eqn:E'; [|reflexivity].
  apply Ascii.eqb_eq in E'. subst c. now rewrite Ascii.eqb_refl in E.
Qed.

Lemma rawBullet_bullet (msg : string) : bullet (rawBullet msg).
Proof.
  unfold bullet, rawBullet, trimStart.
  change ("- " +:+ msg) with (String "-" (String " " msg)).
  cbn [String.length trimStart_fuel]. rewrite leadingSpace_hyphen.
  cbn [startsWith]. now rewrite !Ascii.eqb_refl.
Qed.

Lemma startsWith_take (n : nat) (t p : string) :
  startsWith (take n t) p = true -> startsWith t p = true.
Proof.
  revert n t. induction p as [|c p IH]; intros n t H; [reflexivity |].
  destruct n as [|n], t as [|d t]; cbn [take startsWith] in *; try discriminate.
  apply andb_true_iff in H as [Hc Hp]. rewrite Hc. cbn [andb]. now apply (IH n).
Qed.

Lemma startsWith_trimEnd (t p : string) :
  startsWith (trimEnd t) p = true -> startsWith t p = true.
Proof.
  unfold trimEnd. generalize (String.length t) as fuel.
  intros fuel. revert t. induction fuel as [|fuel IH]; intros t H; [exact H |].
  cbn [trimEnd_fuel] in H. destruct (trailingSpace t); [|exact H].
  apply IH in H. now apply startsWith_take in H.
Qed.

(** X21. Every entry text is a bullet: whether it is a line the provider
    answered or the fallback, and whatever the message, after its leading
    white space it starts with a hyphen and a space. *)
Theorem entry_texts_are_bullets
  (cfg : Config) (w : World) (messages : list string) (index : nat) (msg : string) :
  bullet (polishedOr (polishCommitMessages cfg w messages) index msg).
Proof.
  unfold polishedOr.
  destruct (nth_error (polishCommitMessages cfg w messages) index) as [line|] eqn:E;
    [| apply rawBullet_bullet].
  destruct (truthy (Some line)); [| apply rawBullet_bullet].
  cbn [default]. unfold id.
  apply nth_error_In in E. unfold polishCommitMessages in E.
  assert (Hraw : In line (map rawBullet messages) -> bullet line).
  { intros H. apply in_map_iff in H as (m & <- & _). apply rawBullet_bullet. }
  destruct (negb (truthy (aiApiKey cfg)) || (List.length messages =? 0)%nat);
    [now apply Hraw |].
  destruct (provider w (aiApiType cfg) (useEmojis cfg) (join nl messages));
    [| now apply Hraw].
  apply filter_In in E as [_ H]. unfold bullet. now apply startsWith_trimEnd.
Qed.

End MoreIngestion.

(** ** The ledger after a release *)

Section AfterRelease.
Import Semver ReleaseManager.

Lemma includes_skip (ch : ascii) (p a b : string) :
  allChars (notChar ch) a = true ->
  includes (a +:+ b) (String ch p) = includes b (String ch p).
Proof.
  induction a as [|c a IH]; [reflexivity |].
  cbn [allChars]. intros H. apply andb_true_iff in H as [Hc Ha].
  unfold notChar in Hc. apply negb_true_iff in Hc.
  change (String c a +:+ b) with (String c (a +:+ b)).
  cbn [includes startsWith]. rewrite Ascii.eqb_sym, Hc. cbn [andb orb].
  now apply IH.
Qed.

Lemma includes_shorter (s p q : string) :
  includes s (p +:+ q) = true -> includes s p = true.
Proof.
  intros H. apply includes_iff in H as (a & b & ->).
  apply includes_iff. exists a, (q +:+ b). now rewrite append_assoc.
Qed.

Lemma plain_no_angle (s : string) :
  allChars isPlainChar s = true -> allChars (notChar "<"%char) s = true.
Proof.
  apply allChars_weaken. intros c Hc. unfold notChar.
  destruct (Ascii.eqb c "<") eqn:E; [|reflexivity].
  apply Ascii.eqb_eq in E. subst c. discriminate Hc.
Qed.

(** The draft template holds no hash marker. *)
Lemma draftTemplate_no_marker (version dateStr messageHash : string) :
  allChars isPlainChar version = true ->
  allChars isPlainChar dateStr = true ->
  includes (ChangelogManager.draftTemplate version dateStr)
    (ChangelogManager.hashMarker messageHash) = false.
Proof.
  intros Hv Hd. apply plain_no_angle in Hv, Hd.
  destruct (includes _ (ChangelogManager.hashMarker messageHash)) eqn:E;
    [|reflexivity].
  exfalso.
  change (ChangelogManager.hashMarker messageHash)
    with ("<!-- h" +:+ ("ash:" +:+ messageHash +:+ " -->")) in E.
  apply includes_shorter in E.
  change (ChangelogManager.draftTemplate version dateStr)
    with (("---" +:+ nl +:+ "version: ")
          +:+ version
          +:+ (nl +:+ "date: ")
          +:+ dateStr
          +:+ (nl +:+ "tag: " +:+ nl +:+ "---" +:+ nl +:+ nl +:+ "# Release ")
          +:+ version
          +:+ (nl +:+ nl +:+ "## **Unreleased**" +:+ nl +:+ nl
               +:+ "<!-- New entries will be added here -->" +:+ nl +:+ nl)) in E.
  rewrite includes_skip in E by reflexivity.
  rewrite includes_skip in E by exact Hv.
  rewrite includes_skip in E by reflexivity.
  rewrite includes_skip in E by exact Hd.
  rewrite includes_skip in E by reflexivity.
  rewrite includes_skip in E by exact Hv.
  vm_compute in E. discriminate E.
Qed.

(** X22. The ledger does not outlive a release.  After a release that
    completes ([config.versionFiles] not set, nothing in the way of the
    draft and of [<newVersion>.md], the host not asked or accepting), the
    new draft holds no hash at all: no message is known to the new open
    document, and every commit that [git log] still reports is pending
    again. *)
Theorem release_resets_ledger
  (cfg : Config) (ccfg : ChangelogManager.Config) (w : World)
  (cw : ChangelogManager.World)
  (bumpType : ReleaseType) (st : State) (newVersion : string) :
  versionFiles cfg = false ->
  bumpVersion (getCurrentVersion (manifest st)) bumpType = Some newVersion ->
  noObstacle (changelog st) (draftFileName cfg) ->
  noObstacle (changelog st) (newVersion +:+ ".md") ->
  hostAccepts cfg w ->
  ChangelogManager.draftFileName ccfg = draftFileName cfg ->
  allChars isPlainChar (today w) = true ->
  exists st',
    release cfg w bumpType st = Released (Some newVersion) st'
    /\ (forall msg,
          ChangelogManager.isMessageAlreadyInChangelog (changelog st')
            (ChangelogManager.detectOpenReleaseFile ccfg (changelog st'))
            (ChangelogManager.createMessageHash msg) = false)
    /\ (ChangelogManager.hasPendingCommits ccfg cw (changelog st') = true
        <-> ChangelogManager.getNewCommits cw <> []).
Proof.
  intros Hvf Hinc Hdraft Hfree Hhost Hccfg Hd.
  destruct (release_completes cfg w bumpType st newVersion Hvf Hinc Hdraft Hfree Hhost)
    as (cut & Hcut & Hrel).
  eexists. split; [exact Hrel |]. cbn [changelog].
  set (after := <[draftFileName cfg := _]> cut).
  assert (Hopen : ChangelogManager.detectOpenReleaseFile ccfg after = draftFileName cfg).
  { unfold ChangelogManager.detectOpenReleaseFile, after.
    rewrite Hccfg. now rewrite access_written. }
  assert (Hnone : forall msg,
             ChangelogManager.isMessageAlreadyInChangelog after
               (ChangelogManager.detectOpenReleaseFile ccfg after)
               (ChangelogManager.createMessageHash msg) = false).
  { intros msg. rewrite Hopen. unfold ChangelogManager.isMessageAlreadyInChangelog, after.
    rewrite readFile_writeFile.
    apply draftTemplate_no_marker; [|exact Hd].
    apply digitOrDot_plain, getNextVersion_chars. }
  split; [exact Hnone |].
  unfold ChangelogManager.hasPendingCommits.
  destruct (ChangelogManager.getNewCommits cw) as [|c cs].
  - split; [discriminate | congruence].
  - split; [discriminate |]. intros _.
    cbn [existsb]. now rewrite Hnone.
Qed.

(** The two commits of the log are pending again after the release. *)
Lemma release_resets_ledger_witness :
  exists st',
    release sampleReleaseConfig sampleReleaseWorld Minor sampleState
    = Released (Some "1.1.0") st'
    /\ (forall msg,
          ChangelogManager.isMessageAlreadyInChangelog (changelog st')
            (ChangelogManager.detectOpenReleaseFile sampleConfig (changelog st'))
            (ChangelogManager.createMessageHash msg) = false)
    /\ (ChangelogManager.hasPendingCommits sampleConfig
          (sampleWorld (Some twoCommitsLog)) (changelog st') = true
        <-> ChangelogManager.getNewCommits (sampleWorld (Some twoCommitsLog)) <> []).
Proof.
  apply (release_resets_ledger sampleReleaseConfig sampleConfig sampleReleaseWorld
           (sampleWorld (Some twoCommitsLog)) Minor sampleState "1.1.0").
  - reflexivity.
  - vm_compute; reflexivity.
  - intros why H; vm_compute in H; discriminate H.
  - intros why H; vm_compute in H; discriminate H.
  - left. reflexivity.
  - reflexivity.
  - vm_compute; reflexivity.
Defined.

End AfterRelease.

(** ** The release command *)

Section ReleaseCommandFacts.
Import Semver ChangelogManager ReleaseCommand.

(** X23. Answering [y] or [yes] to the question of the release command,
    in any letter case and with any white space around, when both managers
    are built and the open document is the draft: if the draft is free or a
    file that can be read and written, the add returns and no commit is
    pending in the directory the release starts with; and the command ends
    in its [catch] before the release only on commits that are pending and
    a draft that is neither, with the manifest and the directory as they
    were, but for the text of a draft that can be written and not read,
    which no read shows. *)
Theorem release_command_after_yes
  (type : string) (bumpType : ReleaseType)
  (ccfg : Config) (rcfg : ReleaseManager.Config)
  (cw : World) (rw : ReleaseManager.World) (typed : string)
  (st : ReleaseManager.State) :
  let dir := ReleaseManager.changelog st in
  bumpTypeOf type = Some bumpType ->
  detectOpenReleaseFile ccfg dir = draftFileName ccfg ->
  prompt typed = "y" \/ prompt typed = "yes" ->
  (noObstacle dir (draftFileName ccfg) ->
   exists dir',
     hasPendingCommits ccfg cw dir' = false
     /\ main type false (Some ccfg) (Some rcfg) cw rw typed st
        = Release
            (ReleaseManager.release rcfg rw bumpType
               {| ReleaseManager.manifest := ReleaseManager.manifest st;
                  ReleaseManager.changelog := dir' |}))
  /\ (forall ended,
        main type false (Some ccfg) (Some rcfg) cw rw typed st = Caught ended ->
        ended = st
        /\ hasPendingCommits ccfg cw dir = true
        /\ ~ noObstacle dir (draftFileName ccfg)).
Proof.
  cbv zeta. intros Htype Hopen Hyes.
  assert (Hanswer : String.eqb (prompt typed) "y" || String.eqb (prompt typed) "yes"
                    = true) by (destruct Hyes as [-> | ->]; reflexivity).
  unfold main, beforeRelease. rewrite Htype, Hanswer. cbn [negb].
  destruct (hasPendingCommits ccfg cw (ReleaseManager.changelog st)) eqn:E.
  - split.
    + intros Hfree.
      destruct (addToChangelog_returns ccfg cw None (ReleaseManager.changelog st))
        as [dir' Hrun]; [now rewrite Hopen |].
      rewrite Hrun. exists dir'. split; [|reflexivity].
      now apply (settled_after_add ccfg cw (ReleaseManager.changelog st) dir').
    + intros ended.
      destruct (addToChangelog ccfg cw None (ReleaseManager.changelog st))
        as [dir'|dir'] eqn:Hrun; [discriminate |].
      intros [= <-]. apply addToChangelog_threw in Hrun as [-> Hblocked].
      rewrite Hopen in Hblocked. split; [now destruct st |]. now split.
  - split.
    + intros _. exists (ReleaseManager.changelog st). split; [exact E |].
      now destruct st.
    + intros ended H. discriminate H.
Qed.

(** Two commits are pending on a fresh draft; after [ Yes ] the release
    starts with none pending. *)
Lemma release_command_after_yes_witness :
  exists dir',
    hasPendingCommits sampleConfig (sampleWorld (Some twoCommitsLog)) dir' = false
    /\ main "minor" false (Some sampleConfig) (Some sampleReleaseConfig)
         (sampleWorld (Some twoCommitsLog)) sampleReleaseWorld " Yes " sampleState
       = Release
           (ReleaseManager.release sampleReleaseConfig sampleReleaseWorld Minor
              {| ReleaseManager.manifest := ReleaseManager.manifest sampleState;
                 ReleaseManager.changelog := dir' |}).
Proof.
  destruct (release_command_after_yes "minor" Minor sampleConfig sampleReleaseConfig
              (sampleWorld (Some twoCommitsLog)) sampleReleaseWorld " Yes " sampleState)
    as [Hreturns _].
  - reflexivity.
  - vm_compute; reflexivity.
  - right. vm_compute; reflexivity.
  - apply Hreturns. intros why H. vm_compute in H. discriminate H.
Defined.

End ReleaseCommandFacts.

(** ** The hooks that add and remove the npm scripts *)

Section ScriptsFacts.
Import Cli Configuration Scripts.

Lemma field_setField_eq (key : string) (v : value) (fields : list (string * value)) :
  field key (setField key v fields) = v.
Proof.
  induction fields as [|[k old] rest IH]; cbn [setField field].
  - now rewrite String.eqb_refl.
  - destruct (String.eqb k key) eqn:E; cbn [field]; now rewrite E.
Qed.

Lemma field_setField_ne (key other : string) (v : value) (fields : list (string * value)) :
  key <> other -> field other (setField key v fields) = field other fields.
Proof.
  intros Hne. induction fields as [|[k old] rest IH]; cbn [setField field].
  - apply String.eqb_neq in Hne. now rewrite Hne.
  - destruct (String.eqb k key) eqn:E; cbn [field].
    + apply String.eqb_eq in E. subst k.
      apply String.eqb_neq in Hne. now rewrite Hne.
    + now rewrite IH.
Qed.

Lemma field_deleteField_ne (key other : string) (fields : list (string * value)) :
  key <> other -> field other (deleteField key fields) = field other fields.
Proof.
  intros Hne. unfold deleteField.
  induction fields as [|[k old] rest IH]; [reflexivity |].
  cbn [List.filter fst field]. destruct (String.eqb k key) eqn:E; cbn [negb field].
  - apply String.eqb_eq in E. subst k. apply String.eqb_neq in Hne. now rewrite Hne.
  - now rewrite IH.
Qed.

Lemma deleteField_fresh (key : string) (fields : list (string * value)) :
  ~ In key (map fst fields) -> deleteField key fields = fields.
Proof.
  unfold deleteField. induction fields as [|[k old] rest IH]; [reflexivity |].
  cbn [map fst In List.filter]. intros H.
  destruct (String.eqb k key) eqn:E.
  - apply String.eqb_eq in E. tauto.
  - cbn [negb]. rewrite IH by tauto. reflexivity.
Qed.

Lemma deleteField_setField (key : string) (v : value) (fields : list (string * value)) :
  ~ In key (map fst fields) -> deleteField key (setField key v fields) = fields.
Proof.
  unfold deleteField. induction fields as [|[k old] rest IH]; cbn [map fst In]; intros H.
  - cbn [setField List.filter fst]. now rewrite String.eqb_refl.
  - cbn [setField]. destruct (String.eqb k key) eqn:E.
    + apply String.eqb_eq in E. tauto.
    + cbn [List.filter fst]. rewrite E. cbn [negb]. rewrite IH by tauto. reflexivity.
Qed.

Lemma keys_setField (key other : string) (v : value) (fields : list (string * value)) :
  In other (map fst (setField key v fields)) <-> other = key \/ In other (map fst fields).
Proof.
  induction fields as [|[k old] rest IH]; cbn [setField map fst In].
  - intuition congruence.
  - destruct (String.eqb k key) eqn:E; cbn [map fst In].
    + apply String.eqb_eq in E. subst k. intuition congruence.
    + rewrite IH. tauto.
Qed.

Lemma field_absent (key : string) (fields : list (string * value)) :
  ~ In key (map fst fields) -> field key fields = VUndefined.
Proof.
  induction fields as [|[k old] rest IH]; [reflexivity |].
  cbn [map fst In field]. intros H. destruct (String.eqb k key) eqn:E.
  - apply String.eqb_eq in E. tauto.
  - apply IH. tauto.
Qed.

Lemma setField_same (key : string) (fields : list (string * value)) :
  field key fields <> VUndefined -> setField key (field key fields) fields = fields.
Proof.
  induction fields as [|[k old] rest IH]; cbn [field setField]; [congruence |].
  destruct (String.eqb k key) eqn:E; [reflexivity |].
  intros H. now rewrite IH.
Qed.

Lemma setField_setField (key : string) (v v' : value) (fields : list (string * value)) :
  setField key v (setField key v' fields) = setField key v fields.
Proof.
  induction fields as [|[k old] rest IH]; cbn [setField].
  - now rewrite String.eqb_refl.
  - destruct (String.eqb k key) eqn:E; cbn [setField]; rewrite E; [reflexivity |].
    now rewrite IH.
Qed.

(** The two rounds of the adding loop, written out. *)
Lemma addScripts_rounds (scripts : list (string * value)) :
  fold_left addScript changelogScripts (scripts, [])
  = let s1 := if truthyValue (field "changelog:add" scripts) then scripts
              else setField "changelog:add" (VString "changelog-add") scripts in
    let s2 := if truthyValue (field "changelog:release" s1) then s1
              else setField "changelog:release" (VString "changelog-release") s1 in
    (s2,
     (if truthyValue (field "changelog:add" scripts) then [] else ["changelog:add"])
     ++ (if truthyValue (field "changelog:release" s1) then []
         else ["changelog:release"])).
Proof.
  cbv zeta. unfold changelogScripts. cbn [fold_left]. unfold addScript.
  destruct (truthyValue (field "changelog:add" scripts)); cbv beta iota;
    match goal with
    | |- context [truthyValue (field "changelog:release" ?s)] =>
        destruct (truthyValue (field "changelog:release" s))
    end; reflexivity.
Qed.

(** After the loop both names hold a truthy value, and a name that held a
    truthy value holds it still. *)
Lemma addScripts_result (scripts : list (string * value)) :
  let s' := fst (fold_left addScript changelogScripts (scripts, [])) in
  truthyValue (field "changelog:add" s') = true
  /\ truthyValue (field "changelog:release" s') = true
  /\ (forall name, truthyValue (field name scripts) = true ->
                   field name s' = field name scripts)
  /\ (forall name, isHookScript name = false -> field name s' = field name scripts).
Proof.
  rewrite addScripts_rounds. cbv zeta. cbn [fst].
  set (s1 := if truthyValue (field "changelog:add" scripts) then scripts
             else setField "changelog:add" (VString "changelog-add") scripts).
  assert (H1 : truthyValue (field "changelog:add" s1) = true).
  { unfold s1. destruct (truthyValue (field "changelog:add" scripts)) eqn:E;
      [exact E | now rewrite field_setField_eq]. }
  assert (K1 : forall name, truthyValue (field name scripts) = true ->
                            field name s1 = field name scripts).
  { intros name Hn. unfold s1.
    destruct (truthyValue (field "changelog:add" scripts)) eqn:E; [reflexivity |].
    apply field_setField_ne. intros <-. congruence. }
  assert (O1 : forall name, isHookScript name = false ->
                            field name s1 = field name scripts).
  { intros name Hn. unfold s1.
    destruct (truthyValue (field "changelog:add" scripts)); [reflexivity |].
    apply field_setField_ne. intros <-. discriminate Hn. }
  destruct (truthyValue (field "changelog:release" s1)) eqn:E2.
  - repeat split; assumption.
  - split; [|split; [|split]].
    + rewrite field_setField_ne by discriminate. exact H1.
    + now rewrite field_setField_eq.
    + intros name Hn. rewrite field_setField_ne; [now apply K1 |].
      intros <-. rewrite (K1 _ Hn) in E2. congruence.
    + intros name Hn. rewrite field_setField_ne; [now apply O1 |].
      intros <-. unfold isHookScript in Hn. cbn in Hn. discriminate Hn.
Qed.

(** When both names hold a truthy value the loop adds nothing. *)
Lemma addScripts_nothing (scripts : list (string * value)) :
  truthyValue (field "changelog:add" scripts) = true ->
  truthyValue (field "changelog:release" scripts) = true ->
  fold_left addScript changelogScripts (scripts, []) = (scripts, []).
Proof.
  intros Ha Hr. rewrite addScripts_rounds. cbv zeta. rewrite Ha, Hr. reflexivity.
Qed.

(** The shape of what [addTo] leaves in a scriptable manifest. *)
Lemma addTo_scriptable (fields : list (string * value)) :
  scriptable (VObject fields) = true ->
  exists scripts,
    (field "scripts" fields = VObject scripts
     \/ (truthyValue (field "scripts" fields) = false /\ scripts = []))
    /\ contents (addTo (VObject fields)) (VObject fields)
       = VObject
           (setField "scripts"
              (VObject (fst (fold_left addScript changelogScripts (scripts, []))))
              fields).
Proof.
  unfold scriptable. intros Hs.
  assert (Hcase : (exists scripts, field "scripts" fields = VObject scripts)
                  \/ truthyValue (field "scripts" fields) = false).
  { destruct (field "scripts" fields);
      first [ left; eexists; reflexivity | right; now apply negb_true_iff in Hs ]. }
  destruct Hcase as [[scripts Hf] | Hf].
  - exists scripts. split; [now left |].
    unfold addTo. rewrite Hf. cbn [truthyValue]. rewrite Hf.
    destruct (fold_left addScript changelogScripts (scripts, [])) as [s' added] eqn:E.
    cbn [fst]. destruct (0 <? List.length added)%nat eqn:El; cbn [contents];
      [reflexivity |].
    assert (Hsame : s' = scripts).
    { rewrite addScripts_rounds in E. cbv zeta in E.
      destruct (truthyValue (field "changelog:add" scripts));
        [| injection E as _ <-; discriminate El].
      destruct (truthyValue (field "changelog:release" scripts));
        [| injection E as _ <-; discriminate El].
      now injection E as <- _. }
    subst s'. rewrite <- Hf. rewrite setField_same; [reflexivity |].
    rewrite Hf. discriminate.
  - exists []. split; [now right |].
    unfold addTo. rewrite Hf. rewrite field_setField_eq.
    change (fold_left addScript changelogScripts ([], []))
      with ([ ("changelog:add", VString "changelog-add");
              ("changelog:release", VString "changelog-release") ],
            [ "changelog:add"; "changelog:release" ]).
    cbn [List.length Nat.ltb Nat.leb contents fst]. now rewrite setField_setField.
Qed.

Lemma addTo_other (packageJson : value) :
  scriptable packageJson = false ->
  contents (addTo packageJson) packageJson = packageJson.
Proof.
  intros Hs. destruct packageJson as [| | | | | |fields]; try reflexivity.
  unfold scriptable in Hs. unfold addTo.
  destruct (field "scripts" fields) eqn:Hf; cbn [truthyValue] in *;
    try discriminate Hs; apply negb_false_iff in Hs; rewrite ?Hs;
    try rewrite Hf; reflexivity.
Qed.

(** In a scriptable manifest the hook defines both names, once. *)
Lemma addTo_settles (packageJson : value) :
  scriptable packageJson = true ->
  let after := contents (addTo packageJson) packageJson in
  truthyValue (field "changelog:add" (scriptsOf after)) = true
  /\ truthyValue (field "changelog:release" (scriptsOf after)) = true
  /\ addTo after = Nothing.
Proof.
  intros Hs. cbv zeta.
  destruct packageJson as [| | | | | |fields]; try discriminate Hs.
  destruct (addTo_scriptable fields Hs) as (scripts & _ & ->).
  pose proof (addScripts_result scripts) as (Ha & Hr & _).
  cbv zeta in Ha, Hr.
  set (s' := fst (fold_left addScript changelogScripts (scripts, []))) in *.
  unfold scriptsOf. rewrite field_setField_eq. repeat split; try assumption.
  unfold addTo. rewrite field_setField_eq. cbn [truthyValue].
  rewrite field_setField_eq. now rewrite (addScripts_nothing s' Ha Hr).
Qed.

(** X24. The install hook never overwrites: a script of the manifest that
    holds a truthy value holds the same value afterwards, whatever the
    manifest is, and so does every script under another name than the two
    of the hook. *)
Theorem install_keeps_scripts (packageJson : value) (name : string) :
  truthyValue (field name (scriptsOf packageJson)) = true
  \/ isHookScript name = false ->
  field name (scriptsOf (contents (addTo packageJson) packageJson))
  = field name (scriptsOf packageJson).
Proof.
  intros Hname.
  destruct (scriptable packageJson) eqn:Hs; [| now rewrite addTo_other].
  destruct packageJson as [| | | | | |fields]; try discriminate Hs.
  destruct (addTo_scriptable fields Hs) as (scripts & Hcase & ->).
  pose proof (addScripts_result scripts) as (_ & _ & Hkeep & Hother).
  cbv zeta in Hkeep, Hother.
  assert (Hof : scriptsOf (VObject fields) = scripts).
  { unfold scriptsOf. destruct Hcase as [-> | [Hf ->]]; [reflexivity |].
    destruct (field "scripts" fields); try reflexivity. discriminate Hf. }
  rewrite Hof in *. unfold scriptsOf. rewrite field_setField_eq.
  destruct Hname as [Ht | Hn]; [now apply Hkeep | now apply Hother].
Qed.

(** The project has its own release script; the hook leaves it alone. *)
Lemma install_keeps_scripts_witness :
  field "changelog:release"
    (scriptsOf (contents (addTo samplePackage) samplePackage))
  = VString "node tools/release.js".
Proof.
  apply (install_keeps_scripts samplePackage "changelog:release").
  left. reflexivity.
Defined.

(** X25. In a manifest that is an object, with a scripts object or without
    scripts, both script names are defined after the install hook, and a
    second run writes nothing. *)
Theorem install_defines_both (packageJson : value) :
  scriptable packageJson = true ->
  let after := contents (addTo packageJson) packageJson in
  truthyValue (field "changelog:add" (scriptsOf after)) = true
  /\ truthyValue (field "changelog:release" (scriptsOf after)) = true
  /\ addTo after = Nothing.
Proof. exact (addTo_settles packageJson). Qed.

Lemma install_defines_both_witness :
  let after := contents (addTo samplePackage) samplePackage in
  truthyValue (field "changelog:add" (scriptsOf after)) = true
  /\ truthyValue (field "changelog:release" (scriptsOf after)) = true
  /\ addTo after = Nothing.
Proof.
  apply (install_defines_both samplePackage). reflexivity.
Defined.

(** X26. Whatever the manifest holds (an object, an array, a number, a
    scripts property that is no object), a second run of the install hook
    leaves the contents of the file as the first run left them. *)
Theorem install_twice (packageJson : value) :
  let after := contents (addTo packageJson) packageJson in
  contents (addTo after) after = after.
Proof.
  cbv zeta. destruct (scriptable packageJson) eqn:Hs.
  - destruct (addTo_settles packageJson Hs) as (_ & _ & ->). reflexivity.
  - now rewrite !(addTo_other packageJson Hs).
Qed.

Lemma deleteField_setField_ne
  (key other : string) (v : value) (fields : list (string * value)) :
  key <> other ->
  deleteField key (setField other v fields) = setField other v (deleteField key fields).
Proof.
  intros Hne. unfold deleteField.
  induction fields as [|[k old] rest IH]; cbn [setField List.filter fst].
  - apply not_eq_sym, String.eqb_neq in Hne. now rewrite Hne.
  - destruct (String.eqb k other) eqn:E; cbn [List.filter fst].
    + apply String.eqb_eq in E. subst k.
      apply not_eq_sym, String.eqb_neq in Hne. rewrite Hne. cbn [negb setField].
      now rewrite String.eqb_refl.
    + destruct (String.eqb k key); cbn [negb setField]; rewrite ?E; now rewrite IH.
Qed.

(** X27. The uninstall hook undoes the install hook: in a manifest whose
    scripts object has neither of the two names, installing and then
    uninstalling writes the manifest back as it was, every property and
    every script in its place. *)
Theorem uninstall_undoes_install
  (fields scripts : list (string * value)) :
  field "scripts" fields = VObject scripts ->
  ~ In "changelog:add" (map fst scripts) ->
  ~ In "changelog:release" (map fst scripts) ->
  removeFrom (contents (addTo (VObject fields)) (VObject fields))
  = Wrote (VObject fields).
Proof.
  intros Hf Ha Hr.
  set (s1 := setField "changelog:add" (VString "changelog-add") scripts).
  set (s2 := setField "changelog:release" (VString "changelog-release") s1).
  assert (Hadd : contents (addTo (VObject fields)) (VObject fields)
                 = VObject (setField "scripts" (VObject s2) fields)).
  { unfold addTo. rewrite Hf. cbn [truthyValue]. rewrite Hf.
    rewrite addScripts_rounds. cbv zeta.
    rewrite (field_absent _ _ Ha). cbn [truthyValue].
    rewrite field_setField_ne by discriminate.
    rewrite (field_absent _ _ Hr). cbn [truthyValue]. reflexivity. }
  rewrite Hadd. unfold removeFrom. rewrite field_setField_eq.
  cbn [fold_left]. unfold removeScript.
  assert (H1 : field "changelog:add" s2 = VString "changelog-add").
  { unfold s2. rewrite field_setField_ne by discriminate. apply field_setField_eq. }
  rewrite H1. cbn [truthyValue isOurCommand String.eqb Ascii.eqb Bool.eqb negb andb orb].
  assert (Hd1 : deleteField "changelog:add" s2
                = setField "changelog:release" (VString "changelog-release") scripts).
  { unfold s2, s1. rewrite deleteField_setField_ne by discriminate.
    now rewrite deleteField_setField. }
  rewrite Hd1. rewrite field_setField_eq.
  cbn [truthyValue isOurCommand String.eqb Ascii.eqb Bool.eqb negb andb orb].
  rewrite (deleteField_setField _ _ _ Hr).
  cbn [app List.length Nat.ltb Nat.leb].
  rewrite setField_setField. rewrite <- Hf. rewrite setField_same; [reflexivity |].
  rewrite Hf. discriminate.
Qed.

Lemma uninstall_undoes_install_witness :
  removeFrom (contents (addTo plainPackage) plainPackage) = Wrote plainPackage.
Proof.
  apply (uninstall_undoes_install
           [ ("name", VString "my-app");
             ("scripts", VObject [ ("test", VString "jest") ]);
             ("version", VString "1.0.0") ]
           [ ("test", VString "jest") ]).
  - reflexivity.
  - intros [H | []]. discriminate H.
  - intros [H | []]. discriminate H.
Defined.

Lemma removeScripts_result (scripts : list (string * value)) (name : string) :
  isOurCommand (field name scripts) = false \/ isHookScript name = false ->
  field name
    (fst (fold_left removeScript ["changelog:add"; "changelog:release"] (scripts, [])))
  = field name scripts.
Proof.
  intros Hname. cbn [fold_left]. unfold removeScript.
  assert (Hround : forall key s,
             isHookScript key = true ->
             field name s = field name scripts ->
             field name
               (if truthyValue (field key s) && isOurCommand (field key s)
                then deleteField key s else s)
             = field name scripts).
  { intros key s Hkey Hs.
    destruct (truthyValue (field key s) && isOurCommand (field key s)) eqn:E;
      [|exact Hs].
    rewrite field_deleteField_ne; [exact Hs |].
    intros <-. apply andb_true_iff in E as [_ E].
    destruct Hname as [Ho | Hn]; [| congruence].
    rewrite Hs in E. congruence. }
  pose proof (Hround "changelog:add" scripts eq_refl eq_refl) as H1.
  destruct (truthyValue (field "changelog:add" scripts)
            && isOurCommand (field "changelog:add" scripts)); cbv beta iota.
  - pose proof (Hround "changelog:release" _ eq_refl H1) as H2.
    destruct (truthyValue (field "changelog:release" _) && _); exact H2.
  - pose proof (Hround "changelog:release" _ eq_refl H1) as H2.
    destruct (truthyValue (field "changelog:release" _) && _); exact H2.
Qed.

(** X28. The uninstall hook removes nothing but its own: a script whose
    command is neither [changelog-add] nor [changelog-release], and every
    script under another name than the two of the hook, is the same after
    the hook, whatever the manifest is. *)
Theorem uninstall_keeps_custom_scripts (packageJson : value) (name : string) :
  isOurCommand (field name (scriptsOf packageJson)) = false
  \/ isHookScript name = false ->
  field name (scriptsOf (contents (removeFrom packageJson) packageJson))
  = field name (scriptsOf packageJson).
Proof.
  intros Hname.
  destruct packageJson as [| | | | | |fields]; try reflexivity.
  unfold removeFrom.
  destruct (field "scripts" fields) as [| | | | | |scripts] eqn:Hf; try reflexivity.
  assert (Hof : scriptsOf (VObject fields) = scripts)
    by (unfold scriptsOf; now rewrite Hf).
  rewrite Hof in *.
  pose proof (removeScripts_result scripts name Hname) as Hres.
  destruct (fold_left removeScript _ (scripts, [])) as [s' removed].
  cbn [fst] in Hres.
  destruct (0 <? List.length removed)%nat; cbn [contents].
  - unfold scriptsOf. now rewrite field_setField_eq.
  - now rewrite Hof.
Qed.

Lemma uninstall_keeps_custom_scripts_witness :
  field "changelog:release"
    (scriptsOf (contents (removeFrom samplePackage) samplePackage))
  = VString "node tools/release.js".
Proof.
  apply (uninstall_keeps_custom_scripts samplePackage "changelog:release").
  left. reflexivity.
Defined.

Lemma locate_found (probe : nat -> Probe) (rounds start level : nat) (pkg : value) :
  locate probe start rounds = Found level pkg ->
  (start <= level < start + rounds)%nat
  /\ probe level = Parsed pkg
  /\ (exists name, property pkg "name" = Some name /\ isOwnName name = false)
  /\ forall i, (start <= i < level)%nat -> passedOver (probe i).
Proof.
  revert start. induction rounds as [|rounds IH]; intros start H; [discriminate H |].
  cbn [locate] in H.
  assert (Hnext : locate probe (S start) rounds = Found level pkg ->
                  passedOver (probe start) ->
                  (start <= level < start + S rounds)%nat
                  /\ probe level = Parsed pkg
                  /\ (exists name, property pkg "name" = Some name
                                   /\ isOwnName name = false)
                  /\ forall i, (start <= i < level)%nat -> passedOver (probe i)).
  { intros Hl Hp. destruct (IH _ Hl) as (Hrange & Hprobe & Hname & Hbelow).
    split; [lia |]. split; [exact Hprobe |]. split; [exact Hname |].
    intros i Hi. destruct (decide (i = start)) as [-> | Hne]; [exact Hp |].
    apply Hbelow. lia. }
  destruct (probe start) as [| |p] eqn:Hp; [| discriminate H |].
  - apply Hnext; [exact H | now left].
  - destruct (property p "name") as [name|] eqn:Hn; [|discriminate H].
    destruct (isOwnName name) eqn:Ho.
    + apply Hnext; [exact H |]. right. now exists p, name.
    + injection H as <- <-. split; [lia |]. split; [exact Hp |].
      split; [now exists name |]. intros i Hi. lia.
Qed.

(** X29. The install hook writes to one manifest at most: the nearest one,
    at most four levels above the working directory, that is not the
    manifest of the tool itself; every directory below it has no manifest
    or the tool's own. *)
Theorem install_hook_target (probe : nat -> Probe) (level : nat) (written : value) :
  addChangelogScripts probe = Some (level, written) ->
  (level < 5)%nat
  /\ (exists pkg name,
        probe level = Parsed pkg
        /\ property pkg "name" = Some name
        /\ isOwnName name = false
        /\ addTo pkg = Wrote written)
  /\ forall i, (i < level)%nat -> passedOver (probe i).
Proof.
  unfold addChangelogScripts. intros H.
  destruct (locate probe 0 5) as [| |lv pkg] eqn:Hl; try discriminate H.
  destruct (addTo pkg) as [|v] eqn:Ha; [discriminate H |].
  injection H as <- <-.
  destruct (locate_found probe 5 0 lv pkg Hl) as (Hrange & Hp & (name & Hn & Ho) & Hbelow).
  split; [lia |]. split.
  - now exists pkg, name.
  - intros i Hi. apply Hbelow. lia.
Qed.

Lemma install_hook_target_witness :
  (2 < 5)%nat
  /\ (exists pkg name,
        sampleProbe 2%nat = Parsed pkg
        /\ property pkg "name" = Some name
        /\ isOwnName name = false
        /\ addTo pkg = Wrote (contents (addTo plainPackage) plainPackage))
  /\ forall i, (i < 2)%nat -> passedOver (sampleProbe i).
Proof.
  apply (install_hook_target sampleProbe 2 (contents (addTo plainPackage) plainPackage)).
  reflexivity.
Defined.

(** X30. The scripts step of the init command and the install hook do the
    same to a manifest, whatever it holds. *)
Theorem initScripts_as_install_hook (packageJson : value) :
  initScripts packageJson = addTo packageJson.
Proof.
  destruct packageJson as [| | | | | |fields]; try reflexivity.
  unfold initScripts, addTo.
  destruct (field "scripts"
              (if truthyValue (field "scripts" fields) then fields
               else setField "scripts" (VObject []) fields))
    as [| | | | | |scripts]; try reflexivity.
  rewrite addScripts_rounds. cbv zeta.
  destruct (truthyValue (field "changelog:add" scripts));
    match goal with
    | |- context [truthyValue (field "changelog:release" ?s)] =>
        destruct (truthyValue (field "changelog:release" s))
    end; reflexivity.
Qed.

End ScriptsFacts.
